(** * Charta ICP pipeline: code aggregator and scoring engine

    A shallow embedding of

    - [workers/pipeline/mine_cpt_codes.py] (the CPT code aggregator), and
    - [workers/pipeline/score_icp_production.py] (the ICP scoring engine),

    followed by the properties proved about them.

    Numbers.  The Python code computes with IEEE doubles.  Here every
    finite number is an exact rational ([Q]); a missing value (a [NaN]
    cell, or [None]) is kept apart from the numbers.  [round(x, 1)] is
    rounding to one decimal with ties to even, on the exact value.
    A double computation can differ from the exact one in the last
    place: a sum depends on the order of its terms, a value that lies
    on a threshold or half-way between two decimals can fall on either
    side.  The statements below are the ones that hold either way:
    they give a score within a tolerance of its formula, leave a
    margin around a threshold, or are restricted to whole-number
    counts, whose double sums are exact.  The aggregator is embedded a
    second time on doubles ([mine_cpt_codes_binary64]), to run it on
    fractional counts.

    Scope.  Of the scoring engine the scores, the tier, the track and
    the labels are embedded; the free-text reasoning strings and the
    driver list, which no other computed value depends on, are left
    out.  [math.log] is a parameter of the engine. *)

From Stdlib Require Import QArith Qround ZArith List Sorted.
From Stdlib Require Import String Ascii Bool Lia Lqa Permutation.
From Stdlib Require Floats.
Import ListNotations.

Open Scope Q_scope.

(* ================================================================== *)
(** * Part I. Definitions *)
(* ================================================================== *)

(** ** Numbers *)

(** [a < b] as a boolean, next to the library's [Qle_bool]. *)
Definition Qlt_bool (a b : Q) : bool := negb (Qle_bool b a).

(** Python's [min(a, b)]: [b] when [b < a], else [a]. *)
Definition py_min (a b : Q) : Q := if Qlt_bool b a then b else a.

(** Python's [max(a, b)]: [b] when [b > a], else [a]. *)
Definition py_max (a b : Q) : Q := if Qlt_bool a b then b else a.

(** Nearest integer, ties to the even one. *)
Definition round_half_even (q : Q) : Z :=
  let f := Qfloor q in
  match Qcompare (q - inject_Z f) (1 # 2) with
  | Lt => f
  | Gt => (f + 1)%Z
  | Eq => if Z.even f then f else (f + 1)%Z
  end.

(** [round(q, 1)], on the exact value.  Python rounds the double: next
    to a tie between two decimals it can give the other neighbour, one
    tenth away. *)
Definition round1 (q : Q) : Q := round_half_even (q * 10) # 10.

(** A number with at most one decimal. *)
Definition one_decimal (q : Q) : Prop := exists z : Z, q == z # 10.

(** A table cell as [row.get] sees it: the column may be absent, the
    cell may hold [NaN], or it holds a number. *)
Inductive cell : Type :=
| Absent
| NaN
| Num (q : Q).

(** [row.get(col)] followed by [pd.isna] tests: [None] and [NaN] are
    both missing. *)
Definition cell_value (c : cell) : option Q :=
  match c with
  | Num q => Some q
  | _ => None
  end.

(** [row.get(col, d)]: the default replaces an absent column only. *)
Definition cell_get (c : cell) (d : Q) : option Q :=
  match c with
  | Absent => Some d
  | NaN => None
  | Num q => Some q
  end.

(** [x = row.get(col, 0); if pd.isna(x): x = 0]. *)
Definition cell_or_zero (c : cell) : Q :=
  match c with
  | Num q => q
  | _ => 0
  end.

(** The outcome of a float division in a pandas column: a finite
    quotient, an infinity (non-zero over zero) or [NaN] (zero over
    zero). *)
Inductive fval : Type :=
| Fin (q : Q)
| PosInf
| NegInf
| NotANumber.

Definition pd_div (a b : Q) : fval :=
  if Qeq_bool b 0 then
    if Qeq_bool a 0 then NotANumber
    else if Qlt_bool 0 a then PosInf else NegInf
  else Fin (a / b).

(** [.fillna(0)] on one value. *)
Definition fillna0 (v : fval) : fval :=
  match v with
  | NotANumber => Fin 0
  | _ => v
  end.

(** [sum] of a column of numbers, taken exactly.  The sum of doubles,
    which depends on the order of the additions, is
    [mine_cpt_codes_binary64.fsum]; the two agree on whole numbers up
    to 2^53. *)
Definition Qsum (l : list Q) : Q := fold_right Qplus 0 l.

(** ** Strings (ASCII) *)

Definition upper_ascii (c : ascii) : ascii :=
  let n := N_of_ascii c in
  if (97 <=? n)%N && (n <=? 122)%N then ascii_of_N (n - 32) else c.

Definition lower_ascii (c : ascii) : ascii :=
  let n := N_of_ascii c in
  if (65 <=? n)%N && (n <=? 90)%N then ascii_of_N (n + 32) else c.

Fixpoint string_map (f : ascii -> ascii) (s : string) : string :=
  match s with
  | EmptyString => EmptyString
  | String c t => String (f c) (string_map f t)
  end.

(** [s.upper()] and [s.lower()]. *)
Definition upper (s : string) : string := string_map upper_ascii s.
Definition lower (s : string) : string := string_map lower_ascii s.

(** [needle in hay]. *)
Fixpoint contains (needle hay : string) : bool :=
  prefix needle hay ||
  match hay with
  | EmptyString => false
  | String _ t => contains needle t
  end.

(** [s.split(sep)] for a one-character separator. *)
Fixpoint split_on (sep : ascii) (s : string) : list string :=
  match s with
  | EmptyString => [EmptyString]
  | String c t =>
      if Ascii.eqb c sep then EmptyString :: split_on sep t
      else match split_on sep t with
           | [] => [String c EmptyString]
           | h :: r => String c h :: r
           end
  end.

(** White space as [str.strip] sees it in the ASCII range. *)
Definition is_space (c : ascii) : bool :=
  let n := N_of_ascii c in
  (n =? 32)%N || ((9 <=? n)%N && (n <=? 13)%N)
  || ((28 <=? n)%N && (n <=? 31)%N).

Fixpoint lstrip (s : string) : string :=
  match s with
  | EmptyString => EmptyString
  | String c t => if is_space c then lstrip t else s
  end.

Fixpoint rstrip (s : string) : string :=
  match s with
  | EmptyString => EmptyString
  | String c t =>
      match rstrip t with
      | EmptyString => if is_space c then EmptyString else String c EmptyString
      | t' => String c t'
      end
  end.

(** [s.strip()]. *)
Definition strip (s : string) : string := rstrip (lstrip s).

Definition is_empty_string (s : string) : bool :=
  match s with
  | EmptyString => true
  | _ => false
  end.

Definition digit_of (c : ascii) : option Z :=
  let n := Z.of_N (N_of_ascii c) in
  if (48 <=? n)%Z && (n <=? 57)%Z then Some (n - 48)%Z else None.

Fixpoint py_int_acc (s : string) (acc : Z) : option Z :=
  match s with
  | EmptyString => Some acc
  | String c t =>
      match digit_of c with
      | Some d => py_int_acc t (acc * 10 + d)%Z
      | None => None
      end
  end.

(** [int(s)] on a string of decimal digits; [None] stands for
    [ValueError].  Python also accepts blanks around the digits, a
    sign and underscores between digits; in a string of at most five
    characters each of these leaves at most four digits. *)
Definition py_int (s : string) : option Z :=
  match s with
  | EmptyString => None
  | _ => py_int_acc s 0
  end.

(** ** groupby(...).sum() *)

Section GroupBy.
Context {K : Type}.
Variable eqb : K -> K -> bool.
Variable ltb : K -> K -> bool.

(** Place [k] before the first larger key. *)
Fixpoint insert_sorted (k : K) (ks : list K) : list K :=
  match ks with
  | [] => [k]
  | k' :: t => if ltb k k' then k :: ks else k' :: insert_sorted k t
  end.

Definition insert_key (k : K) (ks : list K) : list K :=
  if existsb (eqb k) ks then ks else insert_sorted k ks.

(** The distinct keys of a column, in ascending order: the index a
    [groupby] produces. *)
Definition group_keys (ks : list K) : list K := fold_right insert_key [] ks.

(** Sum of the values of the rows whose key is [k]. *)
Definition sum_where (k : K) (rows : list (K * Q)) : Q :=
  Qsum (map snd (filter (fun r => eqb k (fst r)) rows)).

(** [rows.groupby(key)[value].sum().reset_index()]. *)
Definition groupby_sum (rows : list (K * Q)) : list (K * Q) :=
  map (fun k => (k, sum_where k rows)) (group_keys (map fst rows)).

(** The value stored under [k], if any. *)
Definition lookup (k : K) (rows : list (K * Q)) : option Q :=
  match find (fun r => eqb k (fst r)) rows with
  | Some r => Some (snd r)
  | None => None
  end.
End GroupBy.

(** ** drop_duplicates() and dictionaries *)

Section KeepFirst.
Context {A : Type}.
Variable eqb : A -> A -> bool.

(** The rows of [l] that are neither in [seen] nor earlier in [l]. *)
Fixpoint drop_duplicates_from (seen l : list A) : list A :=
  match l with
  | [] => []
  | x :: t =>
      if existsb (eqb x) seen then drop_duplicates_from seen t
      else x :: drop_duplicates_from (x :: seen) t
  end.

(** [df.drop_duplicates()]: the first occurrence of each row is kept. *)
Definition drop_duplicates (l : list A) : list A := drop_duplicates_from [] l.
End KeepFirst.

(** A dictionary from strings to counts, in insertion order. *)
Definition dict : Type := list (string * Z).

(** [d.get(k, default)]. *)
Fixpoint dict_get (d : dict) (k : string) (default : Z) : Z :=
  match d with
  | [] => default
  | (k', v) :: t => if String.eqb k k' then v else dict_get t k default
  end.

(** [d[k] = v]: the entry of [k] is overwritten where it stands, a new
    key goes to the end. *)
Fixpoint dict_set (d : dict) (k : string) (v : Z) : dict :=
  match d with
  | [] => [(k, v)]
  | (k', v') :: t =>
      if String.eqb k k' then (k', v) :: t else (k', v') :: dict_set t k v
  end.

(** [sum(d.values())]. *)
Definition dict_total (d : dict) : Z := fold_right Z.add 0%Z (map snd d).

(* ------------------------------------------------------------------ *)
(** ** mine_cpt_codes.py *)

Module mine_cpt_codes.

Definition LEVEL_3_CODES : list string := ["99203"; "99213"]%string.
Definition LEVEL_4_5_CODES : list string :=
  ["99204"; "99205"; "99214"; "99215"]%string.
Definition ALL_TARGET_CODES : list string := LEVEL_3_CODES ++ LEVEL_4_5_CODES.

(** [is_procedure_code(code)]. *)
Definition is_procedure_code (code : string) : bool :=
  if (String.length code <? 4)%nat then false
  else match py_int (substring 0 5 code) with
       | Some code_num => (10000 <=? code_num)%Z && (code_num <=? 69999)%Z
       | None => false
       end.

(** One row of the utilization file; [Tot_Srvcs] is a finite number. *)
Record ServiceRecord : Type := {
  Rndrng_NPI : Z;
  HCPCS_Cd : string;
  Tot_Srvcs : Q
}.

(** The PECOS bridge: rows [(indiv_npi, org_npi)]. *)
Definition Bridge : Type := list (Z * Z).

Definition link_eqb (a b : Z * Z) : bool :=
  (fst a =? fst b)%Z && (snd a =? snd b)%Z.

(** [load_pecos_bridge()], the two PECOS extracts being arguments:
    [enroll] holds the rows [(NPI, ENRLMT_ID)] of the enrollment file
    and [reassign] the rows [(REASGN_BNFT_ENRLMT_ID,
    RCV_BNFT_ENRLMT_ID)] of the reassignment file; [None] is a file
    that does not exist.  Identifiers are strings, none of them null. *)
Definition load_pecos_bridge (enroll : option (list (Z * string)))
  (reassign : option (list (string * string))) : option Bridge :=
  match reassign, enroll with
  | Some reas, Some enrl =>
      (* reas.merge(enrl, left_on=REASGN..., how='inner'): the row with
         its [indiv_npi] *)
      let merged :=
        flat_map (fun r =>
                    map (fun e => (r, fst e))
                        (filter (fun e => String.eqb (fst r) (snd e)) enrl))
                 reas in
      (* merged.merge(enrl, left_on=RCV..., how='inner'), projected on
         [indiv_npi] and [org_npi] *)
      let pairs :=
        flat_map (fun m =>
                    map (fun e => (snd m, fst e))
                        (filter (fun e => String.eqb (snd (fst m)) (snd e))
                                enrl))
                 merged in
      Some (drop_duplicates link_eqb pairs)
  | _, _ => None
  end.

(** Key of an E&M partial row: [(npi, HCPCS_Cd)]. *)
Definition em_key : Type := (Z * string)%type.

Definition em_key_eqb (a b : em_key) : bool :=
  (fst a =? fst b)%Z && String.eqb (snd a) (snd b).

Definition em_key_ltb (a b : em_key) : bool :=
  (fst a <? fst b)%Z || ((fst a =? fst b)%Z && String.ltb (snd a) (snd b)).

(** [chunk[chunk['HCPCS_Cd'].isin(ALL_TARGET_CODES)]]. *)
Definition filter_target (chunk : list ServiceRecord) : list ServiceRecord :=
  filter (fun r => existsb (String.eqb (HCPCS_Cd r)) ALL_TARGET_CODES) chunk.

(** [chunk[chunk['is_procedure']]]. *)
Definition filter_procedure (chunk : list ServiceRecord) : list ServiceRecord :=
  filter (fun r => is_procedure_code (HCPCS_Cd r)) chunk.

(** [rows.merge(bridge, left_on='Rndrng_NPI', right_on='indiv_npi',
    how='inner')]: one row per matching bridge link, carrying its
    [org_npi]. *)
Definition merge_bridge (rows : list ServiceRecord) (bridge : Bridge)
  : list (Z * ServiceRecord) :=
  flat_map (fun r =>
              map (fun link => (snd link, r))
                  (filter (fun link => (fst link =? Rndrng_NPI r)%Z) bridge))
           rows.

(** The organisation each selected row counts for: the bridged
    [org_npi], or the rendering NPI itself when there is no bridge. *)
Definition with_org (bridge : option Bridge) (rows : list ServiceRecord)
  : list (Z * ServiceRecord) :=
  match bridge with
  | Some b => merge_bridge rows b
  | None => map (fun r => (Rndrng_NPI r, r)) rows
  end.

(** The selected E&M rows keyed by [(npi, HCPCS_Cd)], as they enter
    the [groupby]. *)
Definition em_rows (bridge : option Bridge) (filtered : list ServiceRecord)
  : list (em_key * Q) :=
  map (fun p => ((fst p, HCPCS_Cd (snd p)), Tot_Srvcs (snd p)))
      (with_org bridge filtered).

(** The selected procedure rows keyed by [npi]. *)
Definition proc_rows (bridge : option Bridge)
  (procedure_filtered : list ServiceRecord) : list (Z * Q) :=
  map (fun p => (fst p, Tot_Srvcs (snd p)))
      (with_org bridge procedure_filtered).

(** The per-chunk E&M aggregate [agg]. *)
Definition em_agg (bridge : option Bridge) (filtered : list ServiceRecord)
  : list (em_key * Q) :=
  groupby_sum em_key_eqb em_key_ltb (em_rows bridge filtered).

(** The per-chunk procedure aggregate [proc_agg]. *)
Definition proc_agg (bridge : option Bridge)
  (procedure_filtered : list ServiceRecord) : list (Z * Q) :=
  groupby_sum Z.eqb Z.ltb (proc_rows bridge procedure_filtered).

(** The two accumulators of the chunk loop. *)
Record Partials : Type := {
  org_chunks : list (list (em_key * Q));
  procedure_chunks : list (list (Z * Q))
}.

Definition is_nil {A : Type} (l : list A) : bool :=
  match l with
  | [] => true
  | _ => false
  end.

(** The body of the loop over chunks; the two row counters, which are
    only printed, are left out. *)
Definition process_chunk (bridge : option Bridge) (acc : Partials)
  (chunk : list ServiceRecord) : Partials :=
  let filtered := filter_target chunk in
  let procedure_filtered := filter_procedure chunk in
  {| org_chunks :=
       if is_nil filtered then org_chunks acc
       else org_chunks acc ++ [em_agg bridge filtered];
     procedure_chunks :=
       if is_nil procedure_filtered then procedure_chunks acc
       else procedure_chunks acc ++ [proc_agg bridge procedure_filtered] |}.

(** One row of the result. *)
Record OrgCodeMetrics : Type := {
  npi : Z;
  undercoding_ratio : fval;
  total_eval_codes : Q;
  count_level_3 : Q;
  count_level_4_5 : Q;
  total_procedure_codes : Q;
  procedure_ratio : fval
}.

(** A cell of the pivot table after [.fillna(0)] and after the missing
    target columns are set to 0. *)
Definition pivot_at (final_agg : list (em_key * Q)) (n : Z) (code : string)
  : Q :=
  match lookup em_key_eqb (n, code) final_agg with
  | Some v => v
  | None => 0
  end.

(** A pivot row with its three level sums. *)
Record PivotRow : Type := {
  p_npi : Z;
  p_count_level_3 : Q;
  p_count_level_4_5 : Q;
  p_total_eval_codes : Q
}.

Definition pivot_row (final_agg : list (em_key * Q)) (n : Z) : PivotRow :=
  let c3 := Qsum (map (pivot_at final_agg n) LEVEL_3_CODES) in
  let c45 := Qsum (map (pivot_at final_agg n) LEVEL_4_5_CODES) in
  {| p_npi := n;
     p_count_level_3 := c3;
     p_count_level_4_5 := c45;
     p_total_eval_codes := c3 + c45 |}.

(** Everything after the chunk loop; [None] is the early [return None]
    when no E&M target code was seen. *)
Definition finalize (acc : Partials) : option (list OrgCodeMetrics) :=
  if is_nil (org_chunks acc) then None
  else
    let full_df := List.concat (org_chunks acc) in
    let final_agg := groupby_sum em_key_eqb em_key_ltb full_df in
    let index :=
      group_keys Z.eqb Z.ltb (map (fun r => fst (fst r)) final_agg) in
    let pivot :=
      filter (fun p => Qle_bool 10 (p_total_eval_codes p))
             (map (pivot_row final_agg) index) in
    let proc_final :=
      groupby_sum Z.eqb Z.ltb (List.concat (procedure_chunks acc)) in
    Some (map (fun p =>
                 let ratio :=
                   pd_div (p_count_level_4_5 p) (p_total_eval_codes p) in
                 if is_nil (procedure_chunks acc) then
                   {| npi := p_npi p;
                      undercoding_ratio := ratio;
                      total_eval_codes := p_total_eval_codes p;
                      count_level_3 := p_count_level_3 p;
                      count_level_4_5 := p_count_level_4_5 p;
                      total_procedure_codes := 0;
                      procedure_ratio := Fin 0 |}
                 else
                   let tpc := match lookup Z.eqb (p_npi p) proc_final with
                              | Some v => v
                              | None => 0
                              end in
                   {| npi := p_npi p;
                      undercoding_ratio := ratio;
                      total_eval_codes := p_total_eval_codes p;
                      count_level_3 := p_count_level_3 p;
                      count_level_4_5 := p_count_level_4_5 p;
                      total_procedure_codes := tpc;
                      procedure_ratio :=
                        fillna0 (pd_div tpc (tpc + p_total_eval_codes p)) |})
              pivot).

(** The chunk loop followed by the finalization, for the chunks the
    reader yields. *)
Definition process_chunks (bridge : option Bridge)
  (chunks : list (list ServiceRecord)) : option (list OrgCodeMetrics) :=
  finalize (fold_left (process_chunk bridge) chunks
                      {| org_chunks := []; procedure_chunks := [] |}).

(** [pd.read_csv(..., chunksize=chunk_size)]: consecutive blocks of
    [chunk_size] rows, the last one possibly shorter.  The fuel bounds
    the number of blocks; the number of rows is enough of it. *)
Fixpoint read_chunks_fuel (fuel : nat) (chunk_size : N)
  (rows : list ServiceRecord) : list (list ServiceRecord) :=
  match fuel, rows with
  | _, [] => []
  | O, _ => [rows]
  | S fuel', _ =>
      firstn (N.to_nat chunk_size) rows
        :: read_chunks_fuel fuel' chunk_size (skipn (N.to_nat chunk_size) rows)
  end.

Definition read_chunks (chunk_size : N) (rows : list ServiceRecord)
  : list (list ServiceRecord) :=
  read_chunks_fuel (List.length rows) chunk_size rows.

Definition chunk_size : N := 100000.

(** [process_utilization_with_bridge(bridge)], the rows of [UTIL_FILE]
    being [util_file]. *)
Definition process_utilization_with_bridge (bridge : option Bridge)
  (util_file : list ServiceRecord) : option (list OrgCodeMetrics) :=
  process_chunks bridge (read_chunks chunk_size util_file).

(** A file whose counts the doubles add up exactly: every count is a
    whole number, none is negative, and the counts of the rows as they
    enter the [groupby]s (one per bridge link of a record) are together
    at most 2^53.  Every sum taken over such a file is a whole number
    of at most 2^53, which a double holds exactly, in whatever order
    the terms are added. *)
Definition whole_counts (bridge : option Bridge)
  (util_file : list ServiceRecord) : bool :=
  forallb (fun r =>
             Qle_bool 0 (Tot_Srvcs r)
             && Qeq_bool (Tot_Srvcs r) (inject_Z (Qfloor (Tot_Srvcs r))))
          util_file
  && Qle_bool (Qsum (map (fun p => Tot_Srvcs (snd p))
                         (with_org bridge util_file)))
              9007199254740992.

(** The number of times a record counts for organisation [n]: once per
    bridge link from its rendering NPI to [n]; without a bridge, once
    for its own rendering NPI. *)
Definition counts_for (bridge : option Bridge) (r : ServiceRecord) (n : Z)
  : nat :=
  match bridge with
  | Some b =>
      List.length
        (filter (fun link => (fst link =? Rndrng_NPI r)%Z && (snd link =? n)%Z)
                b)
  | None => if (Rndrng_NPI r =? n)%Z then 1%nat else 0%nat
  end.

(** The services of the file that count for organisation [n] under the
    codes [sel] selects. *)
Definition volume (bridge : option Bridge) (util_file : list ServiceRecord)
  (sel : string -> bool) (n : Z) : Q :=
  Qsum (map (fun r =>
               if sel (HCPCS_Cd r)
               then Tot_Srvcs r * inject_Z (Z.of_nat (counts_for bridge r n))
               else 0)
            util_file).

End mine_cpt_codes.

(* ------------------------------------------------------------------ *)
(** ** mine_cpt_codes.py on doubles *)

(** The aggregator once more, with [Tot_Srvcs] and every sum and
    quotient in IEEE binary64, as [dtype=float] makes them.  Codes,
    keys, bridge and selection are those of [mine_cpt_codes]. *)
Module mine_cpt_codes_binary64.
Import Floats.
Import mine_cpt_codes.

Record ServiceRecord : Type := {
  Rndrng_NPI : Z;
  HCPCS_Cd : string;
  Tot_Srvcs : float
}.

(** The double of a small whole number, and the double nearest to
    [n / 10]. *)
Definition whole (n : Z) : float := PrimFloat.of_uint63 (Uint63.of_Z n).
Definition tenths (n : Z) : float := PrimFloat.div (whole n) (whole 10).

(** [sum] of a column of doubles: the values are added one after the
    other, from 0. *)
Definition fsum (l : list float) : float :=
  fold_left PrimFloat.add l (whole 0).

Section GroupBy64.
Context {K : Type}.
Variable eqb : K -> K -> bool.
Variable ltb : K -> K -> bool.

Definition sum_where (k : K) (rows : list (K * float)) : float :=
  fsum (map snd (filter (fun r => eqb k (fst r)) rows)).

Definition groupby_sum (rows : list (K * float)) : list (K * float) :=
  map (fun k => (k, sum_where k rows)) (group_keys eqb ltb (map fst rows)).

Definition lookup (k : K) (rows : list (K * float)) : option float :=
  match find (fun r => eqb k (fst r)) rows with
  | Some r => Some (snd r)
  | None => None
  end.
End GroupBy64.

Definition filter_target (chunk : list ServiceRecord) : list ServiceRecord :=
  filter (fun r => existsb (String.eqb (HCPCS_Cd r)) ALL_TARGET_CODES) chunk.

Definition filter_procedure (chunk : list ServiceRecord) : list ServiceRecord :=
  filter (fun r => is_procedure_code (HCPCS_Cd r)) chunk.

Definition merge_bridge (rows : list ServiceRecord) (bridge : Bridge)
  : list (Z * ServiceRecord) :=
  flat_map (fun r =>
              map (fun link => (snd link, r))
                  (filter (fun link => (fst link =? Rndrng_NPI r)%Z) bridge))
           rows.

Definition with_org (bridge : option Bridge) (rows : list ServiceRecord)
  : list (Z * ServiceRecord) :=
  match bridge with
  | Some b => merge_bridge rows b
  | None => map (fun r => (Rndrng_NPI r, r)) rows
  end.

Definition em_agg (bridge : option Bridge) (filtered : list ServiceRecord)
  : list (em_key * float) :=
  groupby_sum em_key_eqb em_key_ltb
    (map (fun p => ((fst p, HCPCS_Cd (snd p)), Tot_Srvcs (snd p)))
         (with_org bridge filtered)).

Definition proc_agg (bridge : option Bridge)
  (procedure_filtered : list ServiceRecord) : list (Z * float) :=
  groupby_sum Z.eqb Z.ltb
    (map (fun p => (fst p, Tot_Srvcs (snd p)))
         (with_org bridge procedure_filtered)).

Record Partials : Type := {
  org_chunks : list (list (em_key * float));
  procedure_chunks : list (list (Z * float))
}.

Definition process_chunk (bridge : option Bridge) (acc : Partials)
  (chunk : list ServiceRecord) : Partials :=
  let filtered := filter_target chunk in
  let procedure_filtered := filter_procedure chunk in
  {| org_chunks :=
       if is_nil filtered then org_chunks acc
       else org_chunks acc ++ [em_agg bridge filtered];
     procedure_chunks :=
       if is_nil procedure_filtered then procedure_chunks acc
       else procedure_chunks acc ++ [proc_agg bridge procedure_filtered] |}.

(** One row of the result; a ratio is the double the division gives,
    an infinity or [NaN] included. *)
Record OrgCodeMetrics : Type := {
  npi : Z;
  undercoding_ratio : float;
  total_eval_codes : float;
  count_level_3 : float;
  count_level_4_5 : float;
  total_procedure_codes : float;
  procedure_ratio : float
}.

(** [.fillna(0)] on one double. *)
Definition fillna0 (x : float) : float :=
  if PrimFloat.is_nan x then whole 0 else x.

Definition pivot_at (final_agg : list (em_key * float)) (n : Z)
  (code : string) : float :=
  match lookup em_key_eqb (n, code) final_agg with
  | Some v => fillna0 v
  | None => whole 0
  end.

Definition finalize (acc : Partials) : option (list OrgCodeMetrics) :=
  if is_nil (org_chunks acc) then None
  else
    let full_df := List.concat (org_chunks acc) in
    let final_agg := groupby_sum em_key_eqb em_key_ltb full_df in
    let index :=
      group_keys Z.eqb Z.ltb (map (fun r => fst (fst r)) final_agg) in
    let proc_final :=
      groupby_sum Z.eqb Z.ltb (List.concat (procedure_chunks acc)) in
    Some (flat_map
            (fun n =>
               let c3 := fsum (map (pivot_at final_agg n) LEVEL_3_CODES) in
               let c45 := fsum (map (pivot_at final_agg n) LEVEL_4_5_CODES) in
               let tec := PrimFloat.add c3 c45 in
               if PrimFloat.leb (whole 10) tec then
                 let tpc :=
                   if is_nil (procedure_chunks acc) then whole 0
                   else match lookup Z.eqb n proc_final with
                        | Some v => fillna0 v
                        | None => whole 0
                        end in
                 [ {| npi := n;
                      undercoding_ratio := PrimFloat.div c45 tec;
                      total_eval_codes := tec;
                      count_level_3 := c3;
                      count_level_4_5 := c45;
                      total_procedure_codes := tpc;
                      procedure_ratio :=
                        if is_nil (procedure_chunks acc) then whole 0
                        else fillna0
                               (PrimFloat.div tpc (PrimFloat.add tpc tec)) |} ]
               else [])
            index).

Definition process_chunks (bridge : option Bridge)
  (chunks : list (list ServiceRecord)) : option (list OrgCodeMetrics) :=
  finalize (fold_left (process_chunk bridge) chunks
                      {| org_chunks := []; procedure_chunks := [] |}).

Fixpoint read_chunks_fuel (fuel : nat) (chunk_size : N)
  (rows : list ServiceRecord) : list (list ServiceRecord) :=
  match fuel, rows with
  | _, [] => []
  | O, _ => [rows]
  | S fuel', _ =>
      firstn (N.to_nat chunk_size) rows
        :: read_chunks_fuel fuel' chunk_size (skipn (N.to_nat chunk_size) rows)
  end.

Definition read_chunks (chunk_size : N) (rows : list ServiceRecord)
  : list (list ServiceRecord) :=
  read_chunks_fuel (List.length rows) chunk_size rows.

Definition process_utilization_with_bridge (bridge : option Bridge)
  (util_file : list ServiceRecord) : option (list OrgCodeMetrics) :=
  process_chunks bridge (read_chunks chunk_size util_file).

End mine_cpt_codes_binary64.

(* ------------------------------------------------------------------ *)
(** ** score_icp_production.py *)

Module score_icp_production.

Definition UNDERCODING_SEVERE : Q := 15 # 100.
Definition UNDERCODING_NATIONAL_AVG : Q := 45 # 100.
Definition PROCEDURE_DEFICIT_THRESHOLD : Q := 20 # 100.

(** [SPECIALTY_PROCEDURE_TARGETS], in the order the dictionary is
    written (the order in which [.items()] yields it). *)
Definition SPECIALTY_PROCEDURE_TARGETS : list (string * Q) :=
  [ ("213E", 60 # 100); ("207X", 50 # 100); ("207W", 60 # 100);
    ("207N", 50 # 100); ("204C", 40 # 100); ("204D", 40 # 100);
    ("208200", 40 # 100); ("207V", 50 # 100); ("207T", 45 # 100) ]%string.

(** One row of the enriched table.  Numeric columns are [cell]s.  A
    text column is [None] when the row has no such column and
    otherwise holds what [str(...)] makes of the cell.  [taxonomy] is
    [None] when the column is absent or the cell is [NaN]. *)
Record Row : Type := {
  total_revenue : cell;
  hospital_total_revenue : cell;
  fqhc_revenue : cell;
  hha_revenue : cell;
  real_medicare_revenue : cell;
  services_count : cell;
  final_volume : cell;
  volume_source : option string;
  undercoding_ratio : cell;
  psych_risk_ratio : cell;
  is_aco_participant : option string;
  risk_compliance_flag : option string;
  oig_leie_flag : option string;
  npi_count : cell;
  segment_label : option string;
  org_name : option string;
  total_psych_codes : cell;
  total_eval_codes : cell;
  net_margin : cell;
  avg_mips_score : cell;
  is_hpsa : option string;
  is_mua : option string;
  taxonomy : option string;
  procedure_ratio : cell;
  total_procedure_codes : cell
}.

(** [str(row.get(col, default))]. *)
Definition text_get (c : option string) (default : string) : string :=
  match c with
  | Some s => s
  | None => default
  end.

(** [str(row.get(col, default)).lower() == 'true']. *)
Definition flag_true (c : option string) (default : string) : bool :=
  String.eqb (lower (text_get c default)) "true".

Fixpoint first_some {A B : Type} (f : A -> option B) (l : list A) : option B :=
  match l with
  | [] => None
  | a :: t =>
      match f a with
      | Some b => Some b
      | None => first_some f t
      end
  end.

(** [get_expected_procedure_ratio(taxonomy_str)]. *)
Definition get_expected_procedure_ratio (taxonomy_str : option string)
  : option Q :=
  match taxonomy_str with
  | None => None
  | Some s =>
      if is_empty_string s then None
      else
        let codes :=
          filter (fun c => negb (is_empty_string c))
                 (map strip (split_on ";" s)) in
        first_some
          (fun code =>
             match find (fun t => prefix (fst t) code)
                        SPECIALTY_PROCEDURE_TARGETS with
             | Some t => Some (snd t)
             | None => None
             end)
          codes
  end.

(** [score_procedure_alignment(row)], first component.  The updates of
    the reporting counters [PROCEDURE_DATA_QUALITY_STATS], which the
    function never reads, are left out.  The deficit is the exact
    difference; the difference of the doubles can fall on the other
    side of a threshold it lies on (0.6 - 0.4 is below 0.20). *)
Definition score_procedure_alignment (row : Row) : Q :=
  let segment := text_get (segment_label row) "" in
  if negb (String.eqb segment "Private Practice"
           || String.eqb segment "Specialty Group") then 0
  else
    match get_expected_procedure_ratio (taxonomy row) with
    | None => 0
    | Some expected_ratio =>
        let procedure_ratio' := cell_or_zero (procedure_ratio row) in
        let total_procedure_codes' :=
          cell_or_zero (total_procedure_codes row) in
        let total_eval_codes' := cell_or_zero (total_eval_codes row) in
        let total_claims := total_procedure_codes' + total_eval_codes' in
        if Qlt_bool total_claims 50 then 0
        else
          match cell_value (procedure_ratio row) with
          | None => 0
          | Some _ =>
              let deficit := expected_ratio - procedure_ratio' in
              if Qle_bool PROCEDURE_DEFICIT_THRESHOLD deficit then
                if Qle_bool (40 # 100) deficit then 10
                else round1 (4 + ((deficit - PROCEDURE_DEFICIT_THRESHOLD)
                                  / (20 # 100)) * 6)
              else 0
          end
    end.

(** [TAXONOMY_TO_SPECIALTY], in the order it is written. *)
Definition TAXONOMY_TO_SPECIALTY : list (string * string) :=
  [ ("213E", "Podiatry"); ("207X", "Orthopedics"); ("207W", "Ophthalmology");
    ("207N", "Dermatology"); ("204C", "Sports Medicine");
    ("204D", "Surgical Oncology"); ("208200", "Plastic Surgery");
    ("207V", "General Surgery"); ("207T", "Pain Medicine") ]%string.

(** [get_specialty_name(taxonomy_str)]. *)
Definition get_specialty_name (taxonomy_str : option string) : string :=
  match taxonomy_str with
  | None => "Unknown"
  | Some s =>
      if is_empty_string s then "Unknown"
      else
        let codes :=
          filter (fun c => negb (is_empty_string c))
                 (map strip (split_on ";" s)) in
        match first_some
                (fun code =>
                   match find (fun t => prefix (fst t) code)
                              TAXONOMY_TO_SPECIALTY with
                   | Some t => Some (snd t)
                   | None => None
                   end)
                codes with
        | Some specialty => specialty
        | None => "Other Specialty"
        end
  end.

(** [PROCEDURE_DATA_QUALITY_STATS], the counters the scoring of
    procedure alignment updates. *)
Record Stats : Type := {
  procedure_heavy_specialties : Z;
  has_data : Z;
  missing_data : Z;
  low_volume : Z;
  by_specialty : dict;
  missing_by_specialty : dict
}.

(** The counters as the module sets them up. *)
Definition PROCEDURE_DATA_QUALITY_STATS : Stats :=
  {| procedure_heavy_specialties := 0;
     has_data := 0;
     missing_data := 0;
     low_volume := 0;
     by_specialty := [];
     missing_by_specialty := [] |}.

(** [score_procedure_alignment(row)] with the global counters passed
    in and out: the score and the counters after the call. *)
Definition score_procedure_alignment_counting (row : Row) (stats : Stats)
  : Q * Stats :=
  let segment := text_get (segment_label row) "" in
  if negb (String.eqb segment "Private Practice"
           || String.eqb segment "Specialty Group") then (0, stats)
  else
    match get_expected_procedure_ratio (taxonomy row) with
    | None => (0, stats)
    | Some expected_ratio =>
        let specialty_name := get_specialty_name (taxonomy row) in
        let heavy := (procedure_heavy_specialties stats + 1)%Z in
        let by_spec :=
          dict_set (by_specialty stats) specialty_name
                   (dict_get (by_specialty stats) specialty_name 0 + 1)%Z in
        let procedure_ratio' := cell_or_zero (procedure_ratio row) in
        let total_claims :=
          cell_or_zero (total_procedure_codes row)
          + cell_or_zero (total_eval_codes row) in
        if Qlt_bool total_claims 50 then
          (0, {| procedure_heavy_specialties := heavy;
                 has_data := has_data stats;
                 missing_data := missing_data stats;
                 low_volume := (low_volume stats + 1)%Z;
                 by_specialty := by_spec;
                 missing_by_specialty := missing_by_specialty stats |})
        else
          match cell_value (procedure_ratio row) with
          | None =>
              (0, {| procedure_heavy_specialties := heavy;
                     has_data := has_data stats;
                     missing_data := (missing_data stats + 1)%Z;
                     low_volume := low_volume stats;
                     by_specialty := by_spec;
                     missing_by_specialty :=
                       dict_set (missing_by_specialty stats) specialty_name
                         (dict_get (missing_by_specialty stats)
                                   specialty_name 0 + 1)%Z |})
          | Some _ =>
              let stats' :=
                {| procedure_heavy_specialties := heavy;
                   has_data := (has_data stats + 1)%Z;
                   missing_data := missing_data stats;
                   low_volume := low_volume stats;
                   by_specialty := by_spec;
                   missing_by_specialty := missing_by_specialty stats |} in
              let deficit := expected_ratio - procedure_ratio' in
              if Qle_bool PROCEDURE_DEFICIT_THRESHOLD deficit then
                if Qle_bool (40 # 100) deficit then (10, stats')
                else (round1 (4 + ((deficit - PROCEDURE_DEFICIT_THRESHOLD)
                                   / (20 # 100)) * 6), stats')
              else (0, stats')
          end
    end.

(** The counters after [score_procedure_alignment] has been called on
    the rows of [rows] one after the other. *)
Definition count_procedure_alignment (rows : list Row) (stats : Stats)
  : Stats :=
  fold_left (fun st row => snd (score_procedure_alignment_counting row st))
            rows stats.

(** What the counters satisfy between two calls. *)
Definition stats_consistent (bound : Z) (st : Stats) : Prop :=
  (procedure_heavy_specialties st
   = has_data st + missing_data st + low_volume st)%Z /\
  (0 <= has_data st)%Z /\ (0 <= missing_data st)%Z /\
  (0 <= low_volume st)%Z /\
  (procedure_heavy_specialties st <= bound)%Z /\
  dict_total (by_specialty st) = procedure_heavy_specialties st /\
  dict_total (missing_by_specialty st) = missing_data st /\
  (forall k, In k (map fst (by_specialty st)) ->
             In k (map snd TAXONOMY_TO_SPECIALTY)) /\
  (forall k, In k (map fst (missing_by_specialty st)) ->
             In k (map fst (by_specialty st))).

Definition behavioral_keywords : list string :=
  ["BEHAVIORAL"; "PSYCH"; "MENTAL HEALTH"; "COUNSELING"; "THERAPY"]%string.

(** [detect_track(row)]. *)
Definition detect_track (row : Row) : string :=
  let segment := text_get (segment_label row) "" in
  let org_name' := upper (text_get (org_name row) "") in
  if String.eqb segment "Behavioral Health" then "BEHAVIORAL"
  else if existsb (fun keyword => contains keyword org_name')
                  behavioral_keywords
       then "BEHAVIORAL"
  else if String.eqb segment "Home Health" || String.eqb segment "Hospital"
       then "POST_ACUTE"
  else "AMBULATORY".

(** [score_undercoding_continuous(ratio)], first component.  The
    argument is [None] for [NaN]. *)
Definition score_undercoding_continuous (ratio : option Q) : Q :=
  match ratio with
  | None => 10
  | Some r =>
      if Qle_bool r 0 then 10
      else if Qle_bool UNDERCODING_NATIONAL_AVG r then 0
      else if Qle_bool r UNDERCODING_SEVERE then 40
      else round1 (40 - ((r - UNDERCODING_SEVERE)
                         / (UNDERCODING_NATIONAL_AVG - UNDERCODING_SEVERE)) * 25)
  end.

Definition SEVERE_LOW : Q := 30 # 100.
Definition SEVERE_HIGH : Q := 75 # 100.
Definition SWEET_SPOT_LOW : Q := 40 # 100.
Definition SWEET_SPOT_HIGH : Q := 60 # 100.

(** [score_psych_risk_continuous(ratio)], first component. *)
Definition score_psych_risk_continuous (ratio : option Q) : Q :=
  match ratio with
  | None => 10
  | Some r =>
      if Qle_bool r 0 then 10
      else if Qle_bool r SEVERE_LOW then 40
      else if Qle_bool SEVERE_HIGH r then 40
      else if Qle_bool SWEET_SPOT_LOW r && Qle_bool r SWEET_SPOT_HIGH then 10
      else if Qlt_bool r SWEET_SPOT_LOW then
        let deviation := (SWEET_SPOT_LOW - r) / (SWEET_SPOT_LOW - SEVERE_LOW) in
        round1 (10 + deviation * 30)
      else
        let deviation :=
          (r - SWEET_SPOT_HIGH) / (SEVERE_HIGH - SWEET_SPOT_HIGH) in
        round1 (10 + deviation * 30)
  end.

(** [score_behavioral_vbc_readiness(row)], first component. *)
Definition score_behavioral_vbc_readiness (row : Row) : Q :=
  let s_mips :=
    match cell_value (avg_mips_score row) with
    | Some m => if Qlt_bool 80 m then 5 else if Qle_bool 60 m then 3 else 0
    | None => 0
    end in
  let s_aco := if flag_true (is_aco_participant row) "" then 5 else 0 in
  let s_area :=
    if flag_true (is_hpsa row) "False" || flag_true (is_mua row) "False"
    then 5 else 0 in
  py_min (s_mips + s_aco + s_area) 15.

(** [psych_percentage], the therapy share of the ambulatory volume, as
    computed before each use of the therapy relevance gate. *)
Definition psych_percentage (row : Row) : Q :=
  let total_psych_codes' := cell_or_zero (total_psych_codes row) in
  let eval_codes_available :=
    match cell_get (total_eval_codes row) 0 with
    | Some e => Qlt_bool 0 e
    | None => false
    end in
  let total_eval_codes' := cell_or_zero (total_eval_codes row) in
  if negb eval_codes_available then 0
  else
    let total_ambulatory_claims := total_psych_codes' + total_eval_codes' in
    if Qlt_bool 0 total_ambulatory_claims
    then total_psych_codes' / total_ambulatory_claims
    else 0.

(** The therapy relevance gate:
    [psych_percentage > 0.20 and total_psych_codes >= 100]. *)
Definition therapy_gate (psych_share total_psych_codes' : Q) : bool :=
  Qlt_bool (20 # 100) psych_share && Qle_bool 100 total_psych_codes'.

(** [pain_therapy] on the AMBULATORY path. *)
Definition ambulatory_pain_therapy (row : Row) : Q :=
  let psych_risk := cell_or_zero (psych_risk_ratio row) in
  if therapy_gate (psych_percentage row) (cell_or_zero (total_psych_codes row))
  then if Qlt_bool 0 psych_risk
       then score_psych_risk_continuous (Some psych_risk)
       else 0
  else 0.

(** [pain] at the end of the AMBULATORY branch. *)
Definition ambulatory_pain (row : Row) : Q :=
  let undercoding := cell_or_zero (undercoding_ratio row) in
  let pain_undercoding := score_undercoding_continuous (Some undercoding) in
  let pain_therapy := ambulatory_pain_therapy row in
  let pain_procedure_alignment := score_procedure_alignment row in
  let pain :=
    if Qlt_bool pain_undercoding pain_therapy then pain_therapy
    else pain_undercoding in
  if Qlt_bool 0 pain_procedure_alignment
  then py_min 40 (pain + pain_procedure_alignment)
  else pain.

(** [pain] at the end of the BEHAVIORAL branch. *)
Definition behavioral_pain (row : Row) : Q :=
  let psych_risk := cell_or_zero (psych_risk_ratio row) in
  let pain := score_psych_risk_continuous (Some psych_risk) in
  match cell_get (total_psych_codes row) 0 with
  | Some total_psych =>
      if Qlt_bool 500 total_psych then
        let addon_bonus := py_min 5 ((total_psych / 1000) * 5) in
        py_min 40 (pain + addon_bonus)
      else pain
  | None => pain
  end.

(** [pain] at the end of the POST_ACUTE branch. *)
Definition post_acute_pain (row : Row) : Q :=
  match cell_value (net_margin row) with
  | Some real_margin =>
      if Qlt_bool real_margin 0 then 40
      else if Qlt_bool real_margin (5 # 100) then
        round1 (25 + ((5 # 100) - real_margin) / (5 # 100) * 15)
      else 15
  | None => 10
  end.

(** The pain label chosen on the BEHAVIORAL track. *)
Definition behavioral_pain_label (row : Row) : string :=
  let undercoding := cell_or_zero (undercoding_ratio row) in
  let psych_risk := cell_or_zero (psych_risk_ratio row) in
  let total_psych_codes_bh := cell_or_zero (total_psych_codes row) in
  let psych_pct_bh := psych_percentage row in
  let pain_therapy_bh := score_psych_risk_continuous (Some psych_risk) in
  let pain_undercoding_bh := score_undercoding_continuous (Some undercoding) in
  let is_winning_bh :=
    Qle_bool UNDERCODING_NATIONAL_AVG undercoding
    && Qeq_bool pain_therapy_bh 0 in
  if is_winning_bh then "Low Pain - Strong Documentation"
  else if therapy_gate psych_pct_bh total_psych_codes_bh
          && Qlt_bool 0 psych_risk
          && Qlt_bool pain_undercoding_bh pain_therapy_bh
  then if Qle_bool psych_risk (30 # 100) then "Therapy Undercoding Pain"
       else if Qle_bool (75 # 100) psych_risk then "Audit Risk Pain"
       else "Therapy Coding Risk"
  else "Undercoding Pain".

(** The pain label chosen on the AMBULATORY track. *)
Definition ambulatory_pain_label (row : Row) : string :=
  let undercoding := cell_or_zero (undercoding_ratio row) in
  let psych_risk := cell_or_zero (psych_risk_ratio row) in
  let total_psych_codes' := cell_or_zero (total_psych_codes row) in
  let pain_procedure_alignment := score_procedure_alignment row in
  let pain_therapy_check := score_psych_risk_continuous (Some psych_risk) in
  let pain_undercoding_check :=
    score_undercoding_continuous (Some undercoding) in
  let is_winning :=
    Qle_bool UNDERCODING_NATIONAL_AVG undercoding
    && Qeq_bool pain_therapy_check 0
    && Qeq_bool pain_procedure_alignment 0 in
  if is_winning then "Low Pain - Strong Documentation"
  else if Qle_bool 3 pain_procedure_alignment
          && Qle_bool pain_therapy_check pain_procedure_alignment
          && Qle_bool pain_undercoding_check pain_procedure_alignment
  then "Procedure Alignment Pain"
  else if therapy_gate (psych_percentage row) total_psych_codes'
          && Qlt_bool 0 psych_risk
          && Qlt_bool pain_undercoding_check pain_therapy_check
  then if Qle_bool psych_risk (30 # 100) then "Therapy Undercoding Pain"
       else if Qle_bool (75 # 100) psych_risk then "Therapy Audit Risk"
       else "Therapy Coding Risk"
  else "Undercoding Pain".

(** [real_revenue]: the first revenue column that holds a number. *)
Definition real_revenue (row : Row) : option Q :=
  first_some cell_value
    [ total_revenue row; hospital_total_revenue row; fqhc_revenue row;
      hha_revenue row; real_medicare_revenue row ].

(** [vol_metric]. *)
Definition vol_metric (row : Row) : Q :=
  match cell_value (services_count row) with
  | Some real_enc =>
      if Qlt_bool 0 real_enc then real_enc
      else cell_or_zero (final_volume row)
  | None => cell_or_zero (final_volume row)
  end.

(** [is_verified_volume]. *)
Definition is_verified_volume (row : Row) : bool :=
  let volume_source' := upper (text_get (volume_source row) "") in
  contains "UDS" volume_source' || contains "VERIFIED" volume_source'
  || contains "CLAIMS" volume_source' || contains "HRSA" volume_source'.

(** [segment] after the revenue-based downgrade of hospitals. *)
Definition segment_of (row : Row) : string :=
  let segment := text_get (segment_label row) "Multi-specialty" in
  match real_revenue row with
  | Some r =>
      if String.eqb segment "Hospital" && Qlt_bool r 10000000
      then "Ambulatory Center" else segment
  | None => segment
  end.

(** [segment_alignment_scores.get(segment, 5)]. *)
Definition segment_alignment_score (segment : string) : Q :=
  match find (fun e => String.eqb segment (fst e))
             [ ("FQHC", 15); ("Urgent Care", 15); ("Behavioral Health", 10);
               ("Private Practice", 10); ("Hospital", 8); ("Home Health", 5);
               ("Ambulatory Clinic", 5); ("Multi-specialty", 5) ]%string with
  | Some e => snd e
  | None => 5
  end.

(** [pain] after the track dispatch. *)
Definition pain_of (row : Row) : Q :=
  let track := detect_track row in
  if String.eqb track "BEHAVIORAL" then behavioral_pain row
  else if String.eqb track "POST_ACUTE" then post_acute_pain row
  else ambulatory_pain row.

(** [confidence] after the track dispatch. *)
Definition confidence_of (row : Row) : Q :=
  let track := detect_track row in
  if String.eqb track "BEHAVIORAL"
  then if Qle_bool 20 (behavioral_pain row) then 40 else 0
  else if String.eqb track "POST_ACUTE"
  then match cell_value (net_margin row) with
       | Some _ => 30
       | None => 0
       end
  else if Qle_bool 30 (ambulatory_pain row) then 50 else 0.

(** [pain_label]. *)
Definition pain_label_of (row : Row) : string :=
  let track := detect_track row in
  if String.eqb track "BEHAVIORAL" then behavioral_pain_label row
  else if String.eqb track "POST_ACUTE" then "Margin Pressure"
  else ambulatory_pain_label row.

(** [tier], from [total]; every comparison with [NaN] is false. *)
Definition tier_of (total : option Q) : string :=
  match total with
  | Some t =>
      if Qle_bool 70 t then "Tier 1"
      else if Qle_bool 50 t then "Tier 2"
      else if Qle_bool 30 t then "Tier 3"
      else "Tier 4"
  | None => "Tier 4"
  end.

(** [min(100, total)]: Python's [min] keeps its first argument unless
    the second compares smaller, which [NaN] never does. *)
Definition cap_100 (total : option Q) : Q :=
  match total with
  | Some t => py_min 100 t
  | None => 100
  end.

(** [round(x, 1)] on a float that may be [NaN]. *)
Definition round1_nan (x : option Q) : option Q :=
  match x with
  | Some q => Some (round1 q)
  | None => None
  end.

(** The entries of the returned dictionary that are embedded. *)
Record ScoreResult : Type := {
  icp_score : Q;
  icp_tier : string;
  out_segment_label : string;
  scoring_track : string;
  pain_label : string;
  data_confidence : Q;
  score_pain_total : Q;
  score_fit_total : option Q;
  score_strat_total : Q;
  score_base_before_bonus : Q;
  metric_est_revenue : Q;
  metric_used_volume : Q
}.

Section WithLog.
(** [math.log]. *)
Variable ln : Q -> Q.

(** [score_provider_count_continuous(npi_count)]; [None] is [NaN],
    for which both comparisons fail and the logarithm is [NaN]. *)
Definition score_provider_count_continuous (npi_count' : option Q)
  : option Q :=
  match npi_count' with
  | None => None
  | Some n =>
      if Qle_bool n 1 then Some 0
      else if Qle_bool 100 n then Some 10
      else Some (round1 ((ln n / ln 100) * 10))
  end.

(** [score_revenue_continuous(revenue, segment)]. *)
Definition score_revenue_continuous (revenue : option Q) (segment : string)
  : Q :=
  match revenue with
  | None => 2
  | Some rev =>
      if Qle_bool rev 0 then 2
      else
        let is_fqhc := String.eqb segment "FQHC" in
        let min_rev := if is_fqhc then 100000 else 500000 in
        let max_rev := if is_fqhc then 5000000 else 15000000 in
        if Qle_bool max_rev rev then 15
        else if Qle_bool rev min_rev then 2
        else
          let score :=
            2 + ((ln rev - ln min_rev) / (ln max_rev - ln min_rev)) * 13 in
          round1 (py_min 15 (py_max 2 score))
  end.

(** The body shared by [score_volume_continuous] and
    [score_behavioral_volume_continuous], which differ in the two
    thresholds. *)
Definition score_volume_between (lo hi : Q) (volume : option Q)
  (is_verified : bool) : Q :=
  match volume with
  | None => 3
  | Some v =>
      if Qle_bool v 0 then 3
      else
        let max_score := if is_verified then 15 else 10 in
        if Qle_bool hi v then max_score
        else if Qle_bool v lo then 3
        else
          let score :=
            3 + ((ln v - ln lo) / (ln hi - ln lo)) * (max_score - 3) in
          round1 (py_min max_score (py_max 3 score))
  end.

(** [score_volume_continuous(volume, is_verified)]. *)
Definition score_volume_continuous : option Q -> bool -> Q :=
  score_volume_between 1000 50000.

(** [score_behavioral_volume_continuous(volume, is_verified)]. *)
Definition score_behavioral_volume_continuous : option Q -> bool -> Q :=
  score_volume_between 500 20000.

(** [fit]; [None] is [NaN], which an [npi_count] cell holding [NaN]
    carries through [min] and the sums. *)
Definition fit_of (row : Row) : option Q :=
  let s2_complex :=
    score_provider_count_continuous (cell_get (npi_count row) 1) in
  if String.eqb (detect_track row) "BEHAVIORAL" then
    let s2_align := 10 in
    let vbc_score := score_behavioral_vbc_readiness row in
    match s2_complex with
    | Some c => Some (round1 (s2_align + vbc_score + py_min c 5))
    | None => None
    end
  else
    let s2_align := segment_alignment_score (segment_of row) in
    let is_aco := flag_true (is_aco_participant row) "" in
    let is_risk :=
      flag_true (risk_compliance_flag row) ""
      || flag_true (oig_leie_flag row) "" in
    let s2_tech_risk :=
      (if is_aco then 3 else 0) + (if is_risk then 2 else 0) in
    let s2_mips :=
      match cell_value (avg_mips_score row) with
      | Some m => if Qlt_bool 80 m then 5 else if Qlt_bool m 50 then 5 else 0
      | None => 0
      end in
    let s2_hpsa_mua :=
      if flag_true (is_hpsa row) "False" || flag_true (is_mua row) "False"
      then 5 else 0 in
    match s2_complex with
    | Some c =>
        Some (round1 (s2_align + c + s2_tech_risk + s2_mips + s2_hpsa_mua))
    | None => None
    end.

(** [est_rev]. *)
Definition est_rev_of (row : Row) : Q :=
  let multiplier :=
    if String.eqb (detect_track row) "BEHAVIORAL" then 150
    else if String.eqb (segment_of row) "FQHC" then 300
    else 100 in
  match real_revenue row with
  | Some r => r
  | None => vol_metric row * multiplier
  end.

(** [strat]. *)
Definition strat_of (row : Row) : Q :=
  let est_rev := est_rev_of row in
  if String.eqb (detect_track row) "BEHAVIORAL" then
    let s3_revenue :=
      if Qle_bool est_rev 0 then 2
      else if Qle_bool 15000000 est_rev then 15
      else if Qle_bool est_rev 1000000 then 2
      else
        round1 (py_min 15 (py_max 2
          (2 + ((ln est_rev - ln 1000000)
                / (ln 15000000 - ln 1000000)) * 13))) in
    let s3_volume :=
      score_behavioral_volume_continuous (Some (vol_metric row))
                                         (is_verified_volume row) in
    round1 (s3_revenue + s3_volume)
  else
    let s3_revenue :=
      score_revenue_continuous (Some est_rev) (segment_of row) in
    let s3_volume :=
      score_volume_continuous (Some (vol_metric row))
                              (is_verified_volume row) in
    round1 (s3_revenue + s3_volume).

(** [total = round(pain + fit + strat, 1)]. *)
Definition total_of (row : Row) : option Q :=
  match fit_of row with
  | Some fit => Some (round1 (pain_of row + fit + strat_of row))
  | None => None
  end.

(** [calculate_row_score(row)]. *)
Definition calculate_row_score (row : Row) : ScoreResult :=
  let total := total_of row in
  {| icp_score := cap_100 total;
     icp_tier := tier_of total;
     out_segment_label := segment_of row;
     scoring_track := detect_track row;
     pain_label := pain_label_of row;
     data_confidence := py_min 100 (confidence_of row);
     score_pain_total := round1 (pain_of row);
     score_fit_total := round1_nan (fit_of row);
     score_strat_total := round1 (strat_of row);
     score_base_before_bonus := cap_100 total;
     metric_est_revenue := est_rev_of row;
     metric_used_volume := vol_metric row |}.
End WithLog.

End score_icp_production.

(* ------------------------------------------------------------------ *)
(** ** scripts/validate_fixes.py and scripts/validate_scoring_signals.py *)

Module validate_fixes.
Import score_icp_production.

(** [calc_psych_pct(row)]. *)
Definition calc_psych_pct (row : Row) : Q :=
  let psych := cell_or_zero (total_psych_codes row) in
  let eval_codes := cell_or_zero (total_eval_codes row) in
  let total := psych + eval_codes in
  if Qlt_bool 0 total then psych / total else 0.

(** The rows test 1 reports: [pain_label] contains 'Therapy' and
    [psych_percentage < 0.20]. *)
Definition low_psych (row : Row) (scored : ScoreResult) : bool :=
  contains "Therapy" (pain_label scored)
  && Qlt_bool (calc_psych_pct row) (20 # 100).

End validate_fixes.

Module validate_scoring_signals.
Import score_icp_production.

(** The filter of [check_c_zero_check]; a comparison with a [NaN]
    cell is false. *)
Definition high_pain_low_volume (row : Row) (scored : ScoreResult) : bool :=
  String.eqb (scoring_track scored) "AMBULATORY"
  && Qlt_bool 30 (score_pain_total scored)
  && contains "Therapy" (pain_label scored)
  && match cell_value (total_psych_codes row) with
     | Some p => Qlt_bool p 100
     | None => false
     end.

End validate_scoring_signals.

(* ------------------------------------------------------------------ *)
(** ** Sample inputs *)

Module samples.
Import score_icp_production.

(** The fixture [base_clinic_data] of [test_score_icp_production.py],
    with the columns the tests override as arguments. *)
Definition clinic (segment name : string)
  (revenue undercoding psych_risk total_psych total_eval margin npis : cell)
  : Row :=
  {| total_revenue := revenue;
     hospital_total_revenue := Absent;
     fqhc_revenue := Absent;
     hha_revenue := Absent;
     real_medicare_revenue := Absent;
     services_count := Num 10000;
     final_volume := Num 10000;
     volume_source := Some "CLAIMS"%string;
     undercoding_ratio := undercoding;
     psych_risk_ratio := psych_risk;
     is_aco_participant := Some "false"%string;
     risk_compliance_flag := Some "false"%string;
     oig_leie_flag := Some "false"%string;
     npi_count := npis;
     segment_label := Some segment;
     org_name := Some name;
     total_psych_codes := total_psych;
     total_eval_codes := total_eval;
     net_margin := margin;
     avg_mips_score := Num 75;
     is_hpsa := Some "false"%string;
     is_mua := Some "false"%string;
     taxonomy := None;
     procedure_ratio := Absent;
     total_procedure_codes := Absent |}.

Definition base_clinic_data : Row :=
  clinic "Private Practice" "Test Clinic" (Num 5000000) (Num (6 # 10))
         (Num (2 # 10)) (Num 0) Absent Absent (Num 10).

(** [test_therapy_gate_closes_for_irrelevant_clinic]. *)
Definition cardiology_clinic : Row :=
  clinic "Private Practice" "Cardiology Associates" (Num 5000000)
         (Num (6 # 10)) (Num (2 # 10)) (Num 10) Absent Absent (Num 10).

(** [test_hospital_revenue_downgrade]. *)
Definition low_revenue_hospital : Row :=
  clinic "Hospital" "Test Clinic" (Num 5000000) (Num (6 # 10))
         (Num (2 # 10)) (Num 0) Absent Absent (Num 10).

(** [test_hospital_revenue_no_downgrade]. *)
Definition high_revenue_hospital : Row :=
  clinic "Hospital" "Test Clinic" (Num 25000000) (Num (6 # 10))
         (Num (2 # 10)) (Num 0) Absent Absent (Num 10).

(** A hospital none of whose revenue columns holds a number. *)
Definition no_revenue_hospital : Row :=
  clinic "Hospital" "Test Clinic" NaN (Num (6 # 10))
         (Num (2 # 10)) (Num 0) Absent Absent (Num 10).

(** A hospital whose revenue is known from the fallback columns only:
    [total_revenue] is [NaN], [hospital_total_revenue] is absent, and
    the first number of the chain is [fqhc_revenue]. *)
Definition fallback_revenue_hospital : Row :=
  {| total_revenue := NaN;
     hospital_total_revenue := Absent;
     fqhc_revenue := Num 5000000;
     hha_revenue := Num 25000000;
     real_medicare_revenue := Absent;
     services_count := Num 10000;
     final_volume := Num 10000;
     volume_source := Some "CLAIMS"%string;
     undercoding_ratio := Num (6 # 10);
     psych_risk_ratio := Num (2 # 10);
     is_aco_participant := Some "false"%string;
     risk_compliance_flag := Some "false"%string;
     oig_leie_flag := Some "false"%string;
     npi_count := Num 10;
     segment_label := Some "Hospital"%string;
     org_name := Some "Test Clinic"%string;
     total_psych_codes := Num 0;
     total_eval_codes := Absent;
     net_margin := Absent;
     avg_mips_score := Num 75;
     is_hpsa := Some "false"%string;
     is_mua := Some "false"%string;
     taxonomy := None;
     procedure_ratio := Absent;
     total_procedure_codes := Absent |}.

(** The fixture with a provider count that is [NaN], as
    [pd.to_numeric(..., errors='coerce')] leaves a blank cell. *)
Definition nan_provider_clinic : Row :=
  clinic "Private Practice" "Test Clinic" (Num 5000000) (Num (6 # 10))
         (Num (2 # 10)) (Num 0) Absent Absent NaN.

(** The case the gate's comment names: 302 psych codes, evaluation
    volume [NaN]. *)
Definition north_shore : Row :=
  clinic "Multi-specialty" "NORTH SHORE" (Num 5000000) (Num (3 # 10))
         (Num (2 # 10)) (Num 302) NaN Absent (Num 10).

(** A behavioral clinic with balanced therapy coding and 501 psych
    codes; its revenue, volume and provider count lie outside the
    ranges in which the engine takes a logarithm. *)
Definition counseling_center : Row :=
  {| total_revenue := Num 20000000;
     hospital_total_revenue := Absent;
     fqhc_revenue := Absent;
     hha_revenue := Absent;
     real_medicare_revenue := Absent;
     services_count := Num 400;
     final_volume := Num 400;
     volume_source := Some "CLAIMS"%string;
     undercoding_ratio := Num (6 # 10);
     psych_risk_ratio := Num (5 # 10);
     is_aco_participant := Some "false"%string;
     risk_compliance_flag := Some "false"%string;
     oig_leie_flag := Some "false"%string;
     npi_count := Num 1;
     segment_label := Some "Behavioral Health"%string;
     org_name := Some "Mindful Counseling Center"%string;
     total_psych_codes := Num 501;
     total_eval_codes := Absent;
     net_margin := Absent;
     avg_mips_score := Num 75;
     is_hpsa := Some "false"%string;
     is_mua := Some "false"%string;
     taxonomy := None;
     procedure_ratio := Absent;
     total_procedure_codes := Absent |}.

(** A podiatry practice (taxonomy prefix 213E) with a procedure ratio
    of 0.10 over 100 evaluation codes. *)
Definition podiatry_practice : Row :=
  {| total_revenue := Num 5000000;
     hospital_total_revenue := Absent;
     fqhc_revenue := Absent;
     hha_revenue := Absent;
     real_medicare_revenue := Absent;
     services_count := Num 10000;
     final_volume := Num 10000;
     volume_source := Some "CLAIMS"%string;
     undercoding_ratio := Num (6 # 10);
     psych_risk_ratio := Absent;
     is_aco_participant := Some "false"%string;
     risk_compliance_flag := Some "false"%string;
     oig_leie_flag := Some "false"%string;
     npi_count := Num 1;
     segment_label := Some "Private Practice"%string;
     org_name := Some "Foot Care Associates"%string;
     total_psych_codes := Num 10;
     total_eval_codes := Num 100;
     net_margin := Absent;
     avg_mips_score := Num 75;
     is_hpsa := Some "false"%string;
     is_mua := Some "false"%string;
     taxonomy := Some "213E00000X"%string;
     procedure_ratio := Num (1 # 10);
     total_procedure_codes := Num 11 |}.

(** The integrated clinic of the gate's comment: 300 psych codes out of
    1,200 ambulatory claims, with a low psych-risk ratio. *)
Definition integrated_clinic : Row :=
  clinic "FQHC" "Integrated Care" (Num 5000000) (Num (6 # 10))
         (Num (2 # 10)) (Num 300) (Num 900) Absent (Num 10).

(** A small bridge: providers 101 and 102 reassign to organisation
    900, provider 103 to organisation 901. *)
Definition sample_bridge : mine_cpt_codes.Bridge :=
  [(101, 900); (102, 900); (103, 901)]%Z.

Definition service (n : Z) (code : string) (srvcs : Q)
  : mine_cpt_codes.ServiceRecord :=
  {| mine_cpt_codes.Rndrng_NPI := n;
     mine_cpt_codes.HCPCS_Cd := code;
     mine_cpt_codes.Tot_Srvcs := srvcs |}.

(** A utilization stream: organisation 900 gets 20 level-3 and 40
    level-4/5 services and 40 procedures; organisation 901 stays below
    10 evaluation codes; provider 104 has no bridge link. *)
Definition sample_stream : list mine_cpt_codes.ServiceRecord :=
  [ service 101 "99213" 20; service 101 "99214" 30;
    service 102 "99215" 10; service 102 "11042" 40;
    service 103 "99203" 4; service 103 "99204" 3;
    service 104 "99213" 50; service 101 "G0463" 7 ]%string.

Definition fractional_service (n : Z) (code : string) (srvcs_tenths : Z)
  : mine_cpt_codes_binary64.ServiceRecord :=
  {| mine_cpt_codes_binary64.Rndrng_NPI := n;
     mine_cpt_codes_binary64.HCPCS_Cd := code;
     mine_cpt_codes_binary64.Tot_Srvcs :=
       mine_cpt_codes_binary64.tenths srvcs_tenths |}.

(** Provider 1 bills 1.7, 1.7 and 6.6 level-3 services (10 together)
    in rows 1, 1,001 and 1,002 of a file whose other rows carry a drug
    code, which the aggregator does not select. *)
Definition fractional_stream : list mine_cpt_codes_binary64.ServiceRecord :=
  fractional_service 1 "99213" 17
    :: repeat (fractional_service 2 "J3490" 10) 999
    ++ [ fractional_service 1 "99213" 17;
         fractional_service 1 "99213" 66 ]%string.

(** The same three records in a file of four rows. *)
Definition short_fractional_stream
  : list mine_cpt_codes_binary64.ServiceRecord :=
  [ fractional_service 2 "J3490" 10; fractional_service 1 "99213" 17;
    fractional_service 1 "99213" 17; fractional_service 1 "99213" 66 ]%string.

(** A function that is positive above 1, as the logarithm is; it
    stands in for [math.log] where a statement is run on a sample, and
    only where the outcome shown does not depend on it. *)
Definition sample_log (x : Q) : Q := x - 1.

End samples.

(* ================================================================== *)
(** * Part II. Properties *)
(* ================================================================== *)

(** ** Rounding *)

Lemma Qlt_bool_iff (a b : Q) : Qlt_bool a b = true <-> a < b.
Proof.
  unfold Qlt_bool. rewrite negb_true_iff.
  destruct (Qle_bool b a) eqn:E.
  - apply Qle_bool_iff in E. split; [discriminate | lra].
  - split; [intros _ | reflexivity].
    apply Qnot_le_lt. intro H. apply Qle_bool_iff in H. congruence.
Qed.

Lemma Qlt_bool_false (a b : Q) : Qlt_bool a b = false <-> b <= a.
Proof.
  unfold Qlt_bool. rewrite negb_false_iff. apply Qle_bool_iff.
Qed.

Lemma Qle_bool_false (a b : Q) : Qle_bool a b = false <-> b < a.
Proof.
  rewrite <- Qlt_bool_iff. unfold Qlt_bool.
  destruct (Qle_bool a b); simpl; intuition congruence.
Qed.

(** Turn every boolean comparison in the context into its proposition. *)
Ltac qbool :=
  repeat match goal with
  | H : Qle_bool _ _ = true |- _ => apply Qle_bool_iff in H
  | H : Qle_bool _ _ = false |- _ => apply Qle_bool_false in H
  | H : Qlt_bool _ _ = true |- _ => apply Qlt_bool_iff in H
  | H : Qlt_bool _ _ = false |- _ => apply Qlt_bool_false in H
  | H : andb _ _ = true |- _ => apply andb_true_iff in H; destruct H
  | H : andb _ _ = false |- _ => apply andb_false_iff in H
  end.

Lemma round_half_even_bounds (q : Q) :
  inject_Z (round_half_even q) - (1 # 2) <= q /\
  q <= inject_Z (round_half_even q) + (1 # 2).
Proof.
  unfold round_half_even.
  pose proof (Qfloor_le q) as Hlo. pose proof (Qlt_floor q) as Hhi.
  rewrite inject_Z_plus in Hhi. change (inject_Z 1) with 1 in Hhi.
  destruct (Qcompare_spec (q - inject_Z (Qfloor q)) (1 # 2)) as [E | E | E].
  - destruct (Z.even (Qfloor q)); rewrite ?inject_Z_plus;
      change (inject_Z 1) with 1; split; lra.
  - split; lra.
  - rewrite inject_Z_plus. change (inject_Z 1) with 1. split; lra.
Qed.

Lemma round_half_even_Z (z : Z) : round_half_even (inject_Z z) = z.
Proof.
  unfold round_half_even. rewrite Qfloor_Z.
  destruct (Qcompare_spec (inject_Z z - inject_Z z) (1 # 2)) as [E | E | E];
    try reflexivity; exfalso; lra.
Qed.

Lemma round_half_even_comp (p q : Q) :
  p == q -> round_half_even p = round_half_even q.
Proof.
  intros E. unfold round_half_even.
  rewrite (Qfloor_comp _ _ E).
  assert (E' : p - inject_Z (Qfloor q) == q - inject_Z (Qfloor q)) by lra.
  rewrite (Qcompare_comp _ _ E' _ _ (Qeq_refl (1 # 2))). reflexivity.
Qed.

Lemma round_half_even_mono (p q : Q) :
  p <= q -> (round_half_even p <= round_half_even q)%Z.
Proof.
  intros Hpq.
  pose proof (Qfloor_resp_le _ _ Hpq) as Hf.
  destruct (Z.eq_dec (Qfloor p) (Qfloor q)) as [E | NE].
  - unfold round_half_even. rewrite E.
    destruct (Qcompare_spec (p - inject_Z (Qfloor q)) (1 # 2)) as [E1 | E1 | E1];
    destruct (Qcompare_spec (q - inject_Z (Qfloor q)) (1 # 2)) as [E2 | E2 | E2];
      try lia; try (exfalso; lra);
      destruct (Z.even (Qfloor q)); lia.
  - assert (Hlt : (Qfloor p + 1 <= Qfloor q)%Z) by lia.
    assert (H1 : (round_half_even p <= Qfloor p + 1)%Z).
    { unfold round_half_even.
      destruct (_ ?= _); [destruct (Z.even _) | |]; lia. }
    assert (H2 : (Qfloor q <= round_half_even q)%Z).
    { unfold round_half_even.
      destruct (_ ?= _); [destruct (Z.even _) | |]; lia. }
    lia.
Qed.

Lemma Qmake_10_le (a b : Z) : (a <= b)%Z <-> (a # 10) <= (b # 10).
Proof. unfold Qle; simpl. lia. Qed.

Lemma round1_mono (p q : Q) : p <= q -> round1 p <= round1 q.
Proof.
  intros H. unfold round1. apply (proj1 (Qmake_10_le _ _)).
  apply round_half_even_mono. lra.
Qed.

Lemma round1_comp (p q : Q) : p == q -> round1 p = round1 q.
Proof.
  intros E. unfold round1. f_equal. apply round_half_even_comp. lra.
Qed.

Lemma round1_int (z : Z) : round1 (inject_Z z) == inject_Z z.
Proof.
  unfold round1.
  rewrite (round_half_even_comp (inject_Z z * 10) (inject_Z (z * 10))).
  - rewrite round_half_even_Z. unfold Qeq, inject_Z; simpl. lia.
  - rewrite inject_Z_mult. reflexivity.
Qed.

Lemma round1_between (lo hi : Z) (q : Q) :
  inject_Z lo <= q -> q <= inject_Z hi ->
  inject_Z lo <= round1 q /\ round1 q <= inject_Z hi.
Proof.
  intros H1 H2. split.
  - rewrite <- (round1_int lo). apply round1_mono, H1.
  - rewrite <- (round1_int hi). apply round1_mono, H2.
Qed.

(** Rounding to one decimal moves a number by at most 0.05. *)
Lemma round1_close (q : Q) :
  - (1 # 20) <= round1 q - q /\ round1 q - q <= 1 # 20.
Proof.
  unfold round1.
  pose proof (round_half_even_bounds (q * 10)) as [Hlo Hhi].
  assert (E : round_half_even (q * 10) # 10
              == inject_Z (round_half_even (q * 10)) * (1 # 10)).
  { unfold Qeq, Qmult, inject_Z; simpl. lia. }
  rewrite E.
  generalize dependent (inject_Z (round_half_even (q * 10))).
  intros z Hlo Hhi _. split; lra.
Qed.

(* ------------------------------------------------------------------ *)
(** ** The scoring curves *)

Import score_icp_production.

Lemma undercoding_interp (r : Q) :
  40 - ((r - UNDERCODING_SEVERE)
        / (UNDERCODING_NATIONAL_AVG - UNDERCODING_SEVERE)) * 25
  == 40 - (r - (15 # 100)) * (250 # 3).
Proof. unfold UNDERCODING_SEVERE, UNDERCODING_NATIONAL_AVG. field. Qed.

Lemma psych_low_interp (r : Q) :
  10 + ((SWEET_SPOT_LOW - r) / (SWEET_SPOT_LOW - SEVERE_LOW)) * 30
  == 10 + ((40 # 100) - r) * 300.
Proof. unfold SWEET_SPOT_LOW, SEVERE_LOW. field. Qed.

Lemma psych_high_interp (r : Q) :
  10 + ((r - SWEET_SPOT_HIGH) / (SEVERE_HIGH - SWEET_SPOT_HIGH)) * 30
  == 10 + (r - (60 # 100)) * 200.
Proof. unfold SWEET_SPOT_HIGH, SEVERE_HIGH. field. Qed.

(** Split on every conditional of the goal and read the tests as
    inequalities. *)
Ltac curve_cases :=
  repeat match goal with
  | |- context [if ?b then _ else _] => destruct b eqn:?
  end; qbool.

Ltac undercoding_consts :=
  unfold UNDERCODING_SEVERE, UNDERCODING_NATIONAL_AVG in *.

Ltac psych_consts :=
  unfold SEVERE_LOW, SEVERE_HIGH, SWEET_SPOT_LOW, SWEET_SPOT_HIGH in *.

(** [round1_between] with the bounds written as numerals. *)
Lemma round1_within (lo hi : Z) (q : Q) :
  (lo # 1) <= q -> q <= (hi # 1) -> (lo # 1) <= round1 q <= (hi # 1).
Proof. apply round1_between. Qed.

Lemma score_undercoding_range (ratio : option Q) :
  0 <= score_undercoding_continuous ratio <= 40.
Proof.
  destruct ratio as [r |]; simpl; [| lra].
  curve_cases; try lra.
  rewrite (round1_comp _ _ (undercoding_interp r)). undercoding_consts.
  apply (round1_within 0 40); lra.
Qed.





Lemma score_psych_risk_range (ratio : option Q) :
  10 <= score_psych_risk_continuous ratio <= 40.
Proof.
  destruct ratio as [r |]; simpl; [| lra].
  curve_cases; try lra.
  - rewrite (round1_comp _ _ (psych_low_interp r)). psych_consts.
    apply (round1_within 10 40); lra.
  - rewrite (round1_comp _ _ (psych_high_interp r)). psych_consts.
    match goal with H : _ \/ _ |- _ => destruct H; qbool end;
      apply (round1_within 10 40); lra.
Qed.

(** On the left of the plateau the score does not increase with the
    ratio. *)
Lemma score_psych_risk_left (r1 r2 : Q) :
  0 < r1 -> r1 <= r2 -> r2 <= (60 # 100) ->
  score_psych_risk_continuous (Some r2) <= score_psych_risk_continuous (Some r1).
Proof.
  intros H0 H1 H2.
  pose proof (score_psych_risk_range (Some r1)) as B1.
  pose proof (score_psych_risk_range (Some r2)) as B2.
  simpl in *. revert B1 B2.
  curve_cases;
    rewrite ?(round1_comp _ _ (psych_low_interp r1));
    rewrite ?(round1_comp _ _ (psych_low_interp r2));
    psych_consts; intros B1 B2;
    repeat match goal with H : _ \/ _ |- _ => destruct H; qbool end;
    try lra.
  apply round1_mono. lra.
Qed.

(** On the right of the plateau the score does not decrease with the
    ratio. *)
Lemma score_psych_risk_right (r1 r2 : Q) :
  (40 # 100) <= r1 -> r1 <= r2 ->
  score_psych_risk_continuous (Some r1) <= score_psych_risk_continuous (Some r2).
Proof.
  intros H1 H2.
  pose proof (score_psych_risk_range (Some r1)) as B1.
  pose proof (score_psych_risk_range (Some r2)) as B2.
  simpl in *. revert B1 B2.
  curve_cases;
    rewrite ?(round1_comp _ _ (psych_high_interp r1));
    rewrite ?(round1_comp _ _ (psych_high_interp r2));
    psych_consts; intros B1 B2;
    repeat match goal with H : _ \/ _ |- _ => destruct H; qbool end;
    try lra.
  apply round1_mono. lra.
Qed.

(** On the left ramp the score follows the line from (0.40, 10) up to
    (0.30, 40), on the right ramp the line from (0.60, 10) up to
    (0.75, 40); the rounding to one decimal moves it by half a step at
    most. *)
Lemma score_psych_risk_on_the_left_line (r : Q) :
  (30 # 100) <= r -> r <= (40 # 100) ->
  - (1 # 20)
  <= score_psych_risk_continuous (Some r)
     - (10 + (((40 # 100) - r) / ((40 # 100) - (30 # 100))) * 30)
  <= 1 # 20.
Proof.
  intros H1 H2.
  assert (E : 10 + (((40 # 100) - r) / ((40 # 100) - (30 # 100))) * 30
              == 10 + ((40 # 100) - r) * 300) by field.
  simpl.
  destruct (Qle_bool r 0) eqn:A; qbool; [exfalso; lra |].
  psych_consts.
  destruct (Qle_bool r (30 # 100)) eqn:B; qbool; [rewrite E; split; lra |].
  destruct (Qle_bool (75 # 100) r) eqn:C; qbool; [exfalso; lra |].
  destruct (Qle_bool (40 # 100) r && Qle_bool r (60 # 100)) eqn:D.
  { apply andb_true_iff in D. destruct D as [D1 D2]. qbool.
    rewrite E. split; lra. }
  destruct (Qlt_bool r (40 # 100)) eqn:F; qbool.
  - apply round1_close.
  - exfalso.
    repeat match goal with H : _ \/ _ |- _ => destruct H; qbool end; lra.
Qed.

Lemma score_psych_risk_on_the_right_line (r : Q) :
  (60 # 100) <= r -> r <= (75 # 100) ->
  - (1 # 20)
  <= score_psych_risk_continuous (Some r)
     - (10 + ((r - (60 # 100)) / ((75 # 100) - (60 # 100))) * 30)
  <= 1 # 20.
Proof.
  intros H1 H2.
  assert (E : 10 + ((r - (60 # 100)) / ((75 # 100) - (60 # 100))) * 30
              == 10 + (r - (60 # 100)) * 200) by field.
  simpl.
  destruct (Qle_bool r 0) eqn:A; qbool; [exfalso; lra |].
  psych_consts.
  destruct (Qle_bool r (30 # 100)) eqn:B; qbool; [exfalso; lra |].
  destruct (Qle_bool (75 # 100) r) eqn:C; qbool; [rewrite E; split; lra |].
  destruct (Qle_bool (40 # 100) r && Qle_bool r (60 # 100)) eqn:D.
  { apply andb_true_iff in D. destruct D as [D1 D2]. qbool.
    rewrite E. split; lra. }
  destruct (Qlt_bool r (40 # 100)) eqn:F; qbool; [exfalso; lra |].
  apply round1_close.
Qed.

(** C2.  [score_psych_risk_continuous] stays within [10, 40]; it is
    flat at 10 on the plateau [0.40, 0.60] and exactly 40 on (0, 0.30]
    and from 0.75 on; it falls towards the plateau and rises after it;
    and on both sides it rises linearly from 10 at the edge of the
    plateau to 40: at the fraction [d] of either ramp (0.40 - 0.10 d on
    the left, 0.60 + 0.15 d on the right) the score is 10 + 30 d
    rounded to one decimal, that is, within 0.06 of it (half a step of
    the rounding, and room for the error of evaluating the line in
    binary floating point). *)
Theorem score_psych_risk_continuous_shape :
  (forall ratio, 10 <= score_psych_risk_continuous ratio <= 40) /\
  (forall r, (40 # 100) <= r -> r <= (60 # 100) ->
     score_psych_risk_continuous (Some r) = 10) /\
  (forall r, 0 < r -> r <= (30 # 100) ->
     score_psych_risk_continuous (Some r) = 40) /\
  (forall r, (75 # 100) <= r -> score_psych_risk_continuous (Some r) = 40) /\
  (forall r, (30 # 100) < r -> r < (40 # 100) ->
     - (6 # 100)
     <= score_psych_risk_continuous (Some r)
        - (10 + (((40 # 100) - r) / ((40 # 100) - (30 # 100))) * 30)
     <= 6 # 100) /\
  (forall r, (60 # 100) < r -> r < (75 # 100) ->
     - (6 # 100)
     <= score_psych_risk_continuous (Some r)
        - (10 + ((r - (60 # 100)) / ((75 # 100) - (60 # 100))) * 30)
     <= 6 # 100) /\
  (forall r1 r2, 0 < r1 -> r1 <= r2 -> r2 <= (60 # 100) ->
     score_psych_risk_continuous (Some r2)
     <= score_psych_risk_continuous (Some r1)) /\
  (forall r1 r2, (40 # 100) <= r1 -> r1 <= r2 ->
     score_psych_risk_continuous (Some r1)
     <= score_psych_risk_continuous (Some r2)) /\
  (forall d, 0 <= d -> d <= 1 ->
     (- (6 # 100)
      <= score_psych_risk_continuous (Some ((40 # 100) - d * (10 # 100)))
         - (10 + 30 * d)
      <= 6 # 100) /\
     (- (6 # 100)
      <= score_psych_risk_continuous (Some ((60 # 100) + d * (15 # 100)))
         - (10 + 30 * d)
      <= 6 # 100)).
Proof.
  split; [exact score_psych_risk_range |].
  split; [| split; [| split; [| split; [| split; [| split; [| split]]]]]].
  - intros r H1 H2. simpl. curve_cases; psych_consts;
      repeat match goal with H : _ \/ _ |- _ => destruct H; qbool end;
      try reflexivity; exfalso; lra.
  - intros r H1 H2. simpl. curve_cases; psych_consts;
      repeat match goal with H : _ \/ _ |- _ => destruct H; qbool end;
      try reflexivity; exfalso; lra.
  - intros r H1. simpl. curve_cases; psych_consts;
      repeat match goal with H : _ \/ _ |- _ => destruct H; qbool end;
      try reflexivity; exfalso; lra.
  - intros r H1 H2.
    destruct (score_psych_risk_on_the_left_line r) as [Hlo Hhi]; lra.
  - intros r H1 H2.
    destruct (score_psych_risk_on_the_right_line r) as [Hlo Hhi]; lra.
  - exact score_psych_risk_left.
  - exact score_psych_risk_right.
  - intros d H0 H1. split.
    + destruct (score_psych_risk_on_the_left_line ((40 # 100) - d * (10 # 100)))
        as [Hlo Hhi]; try lra.
      assert (E : 10 + ((40 # 100) - ((40 # 100) - d * (10 # 100)))
                       / ((40 # 100) - (30 # 100)) * 30
                  == 10 + 30 * d) by field.
      rewrite E in Hlo, Hhi. lra.
    + destruct (score_psych_risk_on_the_right_line ((60 # 100) + d * (15 # 100)))
        as [Hlo Hhi]; try lra.
      assert (E : 10 + ((60 # 100) + d * (15 # 100) - (60 # 100))
                       / ((75 # 100) - (60 # 100)) * 30
                  == 10 + 30 * d) by field.
      rewrite E in Hlo, Hhi. lra.
Qed.

Lemma score_psych_risk_continuous_shape_witness :
  score_psych_risk_continuous (Some (50 # 100)) = 10 /\
  score_psych_risk_continuous (Some (20 # 100)) = 40 /\
  score_psych_risk_continuous (Some (80 # 100)) = 40 /\
  (24 <= score_psych_risk_continuous (Some (35 # 100)) /\
   score_psych_risk_continuous (Some (35 # 100)) <= 26) /\
  (24 <= score_psych_risk_continuous (Some ((60 # 100) + (1 # 2) * (15 # 100)))
   /\ score_psych_risk_continuous (Some ((60 # 100) + (1 # 2) * (15 # 100)))
      <= 26).
Proof.
  destruct score_psych_risk_continuous_shape
    as (_ & Hflat & Hlow & Hhigh & Hleft & _ & _ & _ & Hsym).
  split; [apply Hflat; unfold Qle; simpl; lia |].
  split; [apply Hlow; [unfold Qlt | unfold Qle]; simpl; lia |].
  split; [apply Hhigh; unfold Qle; simpl; lia |].
  split.
  - destruct (Hleft (35 # 100)) as [Hlo Hhi];
      [unfold Qlt; simpl; lia | unfold Qlt; simpl; lia |].
    assert (E : 10 + ((40 # 100) - (35 # 100)) / ((40 # 100) - (30 # 100)) * 30
                == 25) by reflexivity.
    rewrite E in Hlo, Hhi. split; lra.
  - destruct (Hsym (1 # 2)) as [_ [Hlo Hhi]];
      [unfold Qle; simpl; lia | unfold Qle; simpl; lia |].
    assert (E : 10 + 30 * (1 # 2) == 25) by reflexivity.
    rewrite E in Hlo, Hhi. split; lra.
Defined.

(* ------------------------------------------------------------------ *)
(** ** The therapy relevance gate *)

Lemma therapy_gate_iff (psych_share total_psych : Q) :
  therapy_gate psych_share total_psych = true
  <-> (20 # 100) < psych_share /\ 100 <= total_psych.
Proof.
  unfold therapy_gate.
  rewrite andb_true_iff, Qlt_bool_iff, Qle_bool_iff. reflexivity.
Qed.

Lemma psych_percentage_no_eval (row : Row) :
  match cell_value (total_eval_codes row) with
  | Some e => e <= 0
  | None => True
  end ->
  psych_percentage row = 0.
Proof.
  unfold psych_percentage.
  destruct (total_eval_codes row) as [| | e]; simpl; try reflexivity.
  intros H. destruct (Qlt_bool 0 e) eqn:E; [| reflexivity].
  qbool. exfalso. lra.
Qed.

Lemma therapy_gate_zero_share (total_psych : Q) :
  therapy_gate 0 total_psych = false.
Proof. reflexivity. Qed.

(** C3.  On the AMBULATORY pain path the therapy gate is a function of
    the therapy share and the psych-code volume alone, passing exactly
    when the share exceeds 0.20 and the volume is at least 100: the
    therapy pain is 0 whenever it is closed, and the psych-risk score
    whenever it is open and the psych-risk ratio is positive.  When the
    evaluation-code volume is missing or not positive the share is 0, so
    the gate is closed and the therapy pain is 0, whatever the psych
    volume. *)
Theorem therapy_gate_spec :
  (forall psych_share total_psych,
     therapy_gate psych_share total_psych = true
     <-> (20 # 100) < psych_share /\ 100 <= total_psych) /\
  (forall row,
     therapy_gate (psych_percentage row) (cell_or_zero (total_psych_codes row))
     = false ->
     ambulatory_pain_therapy row = 0) /\
  (forall row,
     therapy_gate (psych_percentage row) (cell_or_zero (total_psych_codes row))
     = true ->
     0 < cell_or_zero (psych_risk_ratio row) ->
     ambulatory_pain_therapy row
     = score_psych_risk_continuous (Some (cell_or_zero (psych_risk_ratio row)))) /\
  (forall row,
     match cell_value (total_eval_codes row) with
     | Some e => e <= 0
     | None => True
     end ->
     psych_percentage row = 0 /\
     (forall total_psych, therapy_gate (psych_percentage row) total_psych = false) /\
     ambulatory_pain_therapy row = 0).
Proof.
  split; [exact therapy_gate_iff |].
  split; [| split].
  - intros row H. unfold ambulatory_pain_therapy. rewrite H. reflexivity.
  - intros row H Hrisk. unfold ambulatory_pain_therapy. rewrite H.
    apply Qlt_bool_iff in Hrisk. rewrite Hrisk. reflexivity.
  - intros row H.
    pose proof (psych_percentage_no_eval row H) as E.
    unfold ambulatory_pain_therapy. rewrite E.
    rewrite therapy_gate_zero_share. repeat split.
Qed.

Lemma therapy_gate_spec_witness :
  therapy_gate (25 # 100) 300 = true /\
  therapy_gate (13 # 1000) 2306 = false /\
  psych_percentage samples.north_shore = 0 /\
  therapy_gate (psych_percentage samples.north_shore) 302 = false /\
  ambulatory_pain_therapy samples.north_shore = 0.
Proof.
  destruct therapy_gate_spec as (Hiff & Hclosed & Hopen & Hno_eval).
  split.
  - apply Hiff. split; [unfold Qlt | unfold Qle]; simpl; lia.
  - split.
    + destruct (therapy_gate (13 # 1000) 2306) eqn:E; [| reflexivity].
      apply Hiff in E. destruct E as [E _].
      unfold Qlt in E; simpl in E; lia.
    + destruct (Hno_eval samples.north_shore) as (Hs & Hg & Hp);
        [exact I | repeat split; auto].
Defined.

(* ------------------------------------------------------------------ *)
(** ** Bounds on the sub-scores *)

Lemma round1_lower (lo : Z) (q : Q) : (lo # 1) <= q -> (lo # 1) <= round1 q.
Proof.
  intros H. change (lo # 1) with (inject_Z lo).
  rewrite <- (round1_int lo). apply round1_mono, H.
Qed.

Lemma py_min_cases (a b : Q) :
  (py_min a b = a /\ a <= b) \/ (py_min a b = b /\ b < a).
Proof.
  unfold py_min. destruct (Qlt_bool b a) eqn:E; qbool; [right | left]; auto.
Qed.

Lemma py_max_cases (a b : Q) :
  (py_max a b = a /\ b <= a) \/ (py_max a b = b /\ a < b).
Proof.
  unfold py_max. destruct (Qlt_bool a b) eqn:E; qbool; [right | left]; auto.
Qed.

(** Replace every [py_min] and [py_max] of the goal by the argument
    it returns. *)
Ltac minmax_at a b cases f :=
  let m := fresh "m" in
  let E := fresh in
  let H := fresh in
  remember (f a b) as m eqn:E in *;
  destruct (cases a b) as [[H ?] | [H ?]];
  rewrite H in E; clear H; subst m.

Ltac minmax :=
  repeat match goal with
  | |- context [py_min ?a ?b] => minmax_at a b py_min_cases py_min
  | |- context [py_max ?a ?b] => minmax_at a b py_max_cases py_max
  | _ : context [py_min ?a ?b] |- _ => minmax_at a b py_min_cases py_min
  | _ : context [py_max ?a ?b] |- _ => minmax_at a b py_max_cases py_max
  end.

(** Write a division by a numeral as the product with its inverse. *)
Ltac qdiv :=
  unfold Qdiv in *;
  repeat match goal with
  | |- context [Qinv (Qmake ?n ?d)] =>
      let v := eval cbv in (Qinv (Qmake n d)) in
      change (Qinv (Qmake n d)) with v in *
  end.

Lemma score_procedure_alignment_range (row : Row) :
  0 <= score_procedure_alignment row <= 10.
Proof.
  unfold score_procedure_alignment.
  destruct (negb _); [lra |].
  destruct (get_expected_procedure_ratio _) as [e |]; [| lra].
  destruct (Qlt_bool _ 50); [lra |].
  destruct (cell_value _); [| lra].
  unfold PROCEDURE_DEFICIT_THRESHOLD.
  curve_cases; try lra.
  set (d := e - cell_or_zero (procedure_ratio row)) in *.
  assert (E : 4 + (d - (20 # 100)) / (20 # 100) * 6 == 4 + (d - (20 # 100)) * 30)
    by field.
  rewrite (round1_comp _ _ E).
  apply (round1_within 0 10); lra.
Qed.

Lemma behavioral_pain_range (row : Row) : 10 <= behavioral_pain row <= 40.
Proof.
  unfold behavioral_pain.
  pose proof (score_psych_risk_range
                (Some (cell_or_zero (psych_risk_ratio row)))) as B.
  destruct (cell_get _ 0) as [tp |]; [| exact B].
  destruct (Qlt_bool 500 tp) eqn:E; [| exact B]. qbool.
  qdiv. minmax; lra.
Qed.

Lemma post_acute_pain_range (row : Row) : 10 <= post_acute_pain row <= 40.
Proof.
  unfold post_acute_pain.
  destruct (cell_value _) as [m |]; [| lra].
  curve_cases; try lra.
  assert (E : 25 + ((5 # 100) - m) / (5 # 100) * 15
              == 25 + ((5 # 100) - m) * 300) by field.
  rewrite (round1_comp _ _ E).
  apply (round1_within 10 40); lra.
Qed.

Lemma ambulatory_pain_therapy_range (row : Row) :
  0 <= ambulatory_pain_therapy row <= 40.
Proof.
  unfold ambulatory_pain_therapy.
  pose proof (score_psych_risk_range
                (Some (cell_or_zero (psych_risk_ratio row)))) as B.
  destruct (therapy_gate _ _); [| lra].
  destruct (Qlt_bool 0 _); lra.
Qed.

Lemma ambulatory_pain_range (row : Row) : 0 <= ambulatory_pain row <= 40.
Proof.
  unfold ambulatory_pain.
  pose proof (score_undercoding_range
                (Some (cell_or_zero (undercoding_ratio row)))) as B1.
  pose proof (ambulatory_pain_therapy_range row) as B2.
  pose proof (score_procedure_alignment_range row) as B3.
  curve_cases; minmax; lra.
Qed.

Lemma pain_of_range (row : Row) : 0 <= pain_of row <= 40.
Proof.
  unfold pain_of.
  pose proof (behavioral_pain_range row).
  pose proof (post_acute_pain_range row).
  pose proof (ambulatory_pain_range row).
  destruct (String.eqb _ "BEHAVIORAL"); [lra |].
  destruct (String.eqb _ "POST_ACUTE"); lra.
Qed.

Lemma score_behavioral_vbc_readiness_range (row : Row) :
  0 <= score_behavioral_vbc_readiness row <= 15.
Proof.
  unfold score_behavioral_vbc_readiness.
  destruct (cell_value _); curve_cases; minmax; lra.
Qed.

Lemma segment_alignment_score_range (segment : string) :
  5 <= segment_alignment_score segment <= 15.
Proof.
  unfold segment_alignment_score. simpl.
  repeat (destruct (String.eqb segment _); [simpl; lra |]).
  simpl; lra.
Qed.

Lemma score_volume_between_range (ln : Q -> Q) (lo hi : Q) (v : option Q)
  (is_verified : bool) :
  3 <= score_volume_between ln lo hi v is_verified <= 15.
Proof.
  unfold score_volume_between.
  destruct v as [v |]; [| lra].
  destruct is_verified; curve_cases; try lra.
  - match goal with |- _ <= round1 ?q <= _ =>
      assert (B : 3 <= q <= 15) by (minmax; lra)
    end.
    apply (round1_within 3 15); lra.
  - match goal with |- _ <= round1 ?q <= _ =>
      assert (B : 3 <= q <= 10) by (minmax; lra)
    end.
    apply (round1_within 3 15); lra.
Qed.

Lemma score_revenue_continuous_range (ln : Q -> Q) (rev : option Q)
  (segment : string) :
  2 <= score_revenue_continuous ln rev segment <= 15.
Proof.
  unfold score_revenue_continuous.
  destruct rev as [rev |]; [| lra].
  destruct (String.eqb segment "FQHC"); curve_cases; try lra;
    match goal with |- _ <= round1 ?q <= _ =>
      assert (B : 2 <= q <= 15) by (minmax; lra)
    end;
    apply (round1_within 2 15); lra.
Qed.

Lemma strat_of_range (ln : Q -> Q) (row : Row) : 5 <= strat_of ln row <= 30.
Proof.
  unfold strat_of, score_behavioral_volume_continuous, score_volume_continuous.
  destruct (String.eqb _ "BEHAVIORAL").
  - pose proof (score_volume_between_range ln 500 20000
                  (Some (vol_metric row)) (is_verified_volume row)) as B.
    apply (round1_within 5 30);
      curve_cases; try lra;
      match goal with |- context [round1 ?q] =>
        assert (2 <= q <= 15) by (minmax; lra);
        pose proof (round1_within 2 15 q)
      end; lra.
  - pose proof (score_volume_between_range ln 1000 50000
                  (Some (vol_metric row)) (is_verified_volume row)) as B.
    pose proof (score_revenue_continuous_range ln (Some (est_rev_of row))
                  (segment_of row)) as B'.
    apply (round1_within 5 30); lra.
Qed.

Lemma tier_of_cases (t : Q) :
  (tier_of (Some t) = "Tier 1"%string <-> 70 <= t) /\
  (tier_of (Some t) = "Tier 2"%string <-> 50 <= t /\ t < 70) /\
  (tier_of (Some t) = "Tier 3"%string <-> 30 <= t /\ t < 50) /\
  (tier_of (Some t) = "Tier 4"%string <-> t < 30).
Proof.
  unfold tier_of.
  destruct (Qle_bool 70 t) eqn:E1; [| destruct (Qle_bool 50 t) eqn:E2;
    [| destruct (Qle_bool 30 t) eqn:E3]]; qbool;
    repeat split; intros; try discriminate; try lra;
    try reflexivity; exfalso; lra.
Qed.

Lemma cap_100_range (t : Q) : 0 <= t -> 0 <= cap_100 (Some t) <= 100.
Proof. intros H. simpl. minmax; lra. Qed.

(* ------------------------------------------------------------------ *)
(** ** Numbers with one decimal *)

Lemma one_decimal_round1 (q : Q) : one_decimal (round1 q).
Proof. exists (round_half_even (q * 10)). reflexivity. Qed.

Lemma one_decimal_int (z : Z) : one_decimal (z # 1).
Proof. exists (z * 10)%Z. unfold Qeq; simpl. lia. Qed.

Lemma one_decimal_plus (a b : Q) :
  one_decimal a -> one_decimal b -> one_decimal (a + b).
Proof.
  intros [x Hx] [y Hy]. exists (x + y)%Z. rewrite Hx, Hy.
  unfold Qeq, Qplus; simpl. lia.
Qed.

Lemma one_decimal_py_min (a b : Q) :
  one_decimal a -> one_decimal b -> one_decimal (py_min a b).
Proof. intros Ha Hb. unfold py_min. destruct (Qlt_bool b a); assumption. Qed.

(** Rounding leaves a number with one decimal where it is. *)
Lemma round1_one_decimal (q : Q) : one_decimal q -> round1 q == q.
Proof.
  intros [z Hz]. unfold round1.
  rewrite (round_half_even_comp (q * 10) (inject_Z z)).
  - rewrite round_half_even_Z. symmetry. exact Hz.
  - rewrite Hz. unfold Qeq, Qmult, inject_Z; simpl. lia.
Qed.

(** Close a goal [one_decimal q] where [q] is built from numerals,
    roundings, sums and [py_min]. *)
Ltac one_decimal_tac :=
  repeat first
    [ assumption
    | apply one_decimal_round1
    | apply one_decimal_int
    | apply one_decimal_plus
    | apply one_decimal_py_min ].

Lemma score_undercoding_one_decimal (ratio : option Q) :
  one_decimal (score_undercoding_continuous ratio).
Proof.
  destruct ratio as [r |]; simpl; [| one_decimal_tac].
  repeat match goal with
  | |- context [if ?b then _ else _] => destruct b
  end; one_decimal_tac.
Qed.

Lemma score_psych_risk_one_decimal (ratio : option Q) :
  one_decimal (score_psych_risk_continuous ratio).
Proof.
  destruct ratio as [r |]; simpl; [| one_decimal_tac].
  repeat match goal with
  | |- context [if ?b then _ else _] => destruct b
  end; one_decimal_tac.
Qed.

Lemma score_procedure_alignment_one_decimal (row : Row) :
  one_decimal (score_procedure_alignment row).
Proof.
  unfold score_procedure_alignment.
  destruct (negb _); [one_decimal_tac |].
  destruct (get_expected_procedure_ratio _); [| one_decimal_tac].
  destruct (Qlt_bool _ 50); [one_decimal_tac |].
  destruct (cell_value _); [| one_decimal_tac].
  repeat match goal with
  | |- context [if ?b then _ else _] => destruct b
  end; one_decimal_tac.
Qed.

Lemma post_acute_pain_one_decimal (row : Row) :
  one_decimal (post_acute_pain row).
Proof.
  unfold post_acute_pain.
  destruct (cell_value _); [| one_decimal_tac].
  repeat match goal with
  | |- context [if ?b then _ else _] => destruct b
  end; one_decimal_tac.
Qed.

Lemma ambulatory_pain_one_decimal (row : Row) :
  one_decimal (ambulatory_pain row).
Proof.
  unfold ambulatory_pain, ambulatory_pain_therapy.
  pose proof (score_undercoding_one_decimal
                (Some (cell_or_zero (undercoding_ratio row)))).
  pose proof (score_psych_risk_one_decimal
                (Some (cell_or_zero (psych_risk_ratio row)))).
  pose proof (score_procedure_alignment_one_decimal row).
  repeat match goal with
  | |- context [if ?b then _ else _] => destruct b
  end; one_decimal_tac.
Qed.

(** The pain has one decimal unless the BEHAVIORAL volume bonus, which
    is added as it is, applies. *)
Lemma pain_of_one_decimal (row : Row) :
  (detect_track row = "BEHAVIORAL"%string ->
   match cell_get (total_psych_codes row) 0 with
   | Some total_psych => total_psych <= 500
   | None => True
   end) ->
  one_decimal (pain_of row).
Proof.
  intros H. unfold pain_of.
  destruct (String.eqb_spec (detect_track row) "BEHAVIORAL") as [E | _].
  - specialize (H E). unfold behavioral_pain.
    pose proof (score_psych_risk_one_decimal
                  (Some (cell_or_zero (psych_risk_ratio row)))).
    destruct (cell_get _ 0) as [tp |]; [| assumption].
    destruct (Qlt_bool 500 tp) eqn:Etp; [| assumption].
    qbool. exfalso. lra.
  - destruct (String.eqb _ "POST_ACUTE").
    + apply post_acute_pain_one_decimal.
    + apply ambulatory_pain_one_decimal.
Qed.

(* ------------------------------------------------------------------ *)
(** ** The scoring engine *)

Section Engine.
Variable ln : Q -> Q.

(** The one property of [math.log] the bounds depend on. *)
Hypothesis ln_pos : forall x, 1 < x -> 0 < ln x.

Lemma score_provider_count_continuous_nonneg (n : option Q) (c : Q) :
  score_provider_count_continuous ln n = Some c -> 0 <= c.
Proof.
  unfold score_provider_count_continuous.
  destruct n as [n |]; [| discriminate].
  destruct (Qle_bool n 1) eqn:E1; [intros [= <-]; lra |].
  destruct (Qle_bool 100 n) eqn:E2; intros [= <-]; [lra |]. qbool.
  apply (round1_lower 0).
  assert (H1 : 0 < ln n) by (apply ln_pos; lra).
  assert (H2 : 0 < ln 100) by (apply ln_pos; lra).
  assert (H3 : 0 < ln n / ln 100) by (apply Qlt_shift_div_l; lra).
  lra.
Qed.

Lemma fit_of_nonneg (row : Row) (fit : Q) :
  fit_of ln row = Some fit -> 0 <= fit.
Proof.
  unfold fit_of.
  destruct (score_provider_count_continuous ln _) as [c |] eqn:Ec;
    [| destruct (String.eqb _ _); discriminate].
  apply score_provider_count_continuous_nonneg in Ec.
  pose proof (score_behavioral_vbc_readiness_range row) as Bv.
  pose proof (segment_alignment_score_range (segment_of row)) as Bs.
  destruct (String.eqb _ "BEHAVIORAL"); intros [= <-];
    apply (round1_lower 0).
  - minmax; lra.
  - destruct (cell_value _); curve_cases; lra.
Qed.

Lemma fit_of_nan (row : Row) :
  fit_of ln row = None <-> npi_count row = NaN.
Proof.
  unfold fit_of, score_provider_count_continuous.
  destruct (npi_count row) as [| | n]; simpl.
  - destruct (String.eqb _ _); split; discriminate.
  - destruct (String.eqb _ _); split; reflexivity.
  - destruct (Qle_bool n 1); [| destruct (Qle_bool 100 n)];
      destruct (String.eqb _ _); split; discriminate.
Qed.

Lemma fit_of_one_decimal (row : Row) (fit : Q) :
  fit_of ln row = Some fit -> one_decimal fit.
Proof.
  unfold fit_of.
  destruct (score_provider_count_continuous ln _);
    destruct (String.eqb _ _); try discriminate;
    intros [= <-]; apply one_decimal_round1.
Qed.

Lemma strat_of_one_decimal (row : Row) : one_decimal (strat_of ln row).
Proof.
  unfold strat_of. destruct (String.eqb _ _); apply one_decimal_round1.
Qed.

(** X22.  On a row whose provider count is a number the returned
    scores fit together: [icp_score] lies in [0, 100] and is
    [min(100, .)] of the sum of the three returned totals up to one
    step of the rounding (the total is rounded once, from a pain that
    may carry the unrounded BEHAVIORAL volume bonus; the bound 0.11
    leaves room for binary floating point), and the tier is read off
    [icp_score]: 'Tier 1' from 70, 'Tier 2' from 50, 'Tier 3' from 30,
    'Tier 4' below. *)
Theorem icp_score_and_tier (row : Row) :
  npi_count row <> NaN ->
  let res := calculate_row_score ln row in
  exists fit,
    score_fit_total res = Some fit /\
    (0 <= icp_score res /\ icp_score res <= 100) /\
    (- (11 # 100)
     <= icp_score res
        - py_min 100 (score_pain_total res + fit + score_strat_total res) /\
     icp_score res
     - py_min 100 (score_pain_total res + fit + score_strat_total res)
     <= 11 # 100) /\
    (icp_tier res = "Tier 1"%string <-> 70 <= icp_score res) /\
    (icp_tier res = "Tier 2"%string
     <-> 50 <= icp_score res /\ icp_score res < 70) /\
    (icp_tier res = "Tier 3"%string
     <-> 30 <= icp_score res /\ icp_score res < 50) /\
    (icp_tier res = "Tier 4"%string <-> icp_score res < 30).
Proof.
  intros Hnum res.
  destruct (fit_of ln row) as [f |] eqn:F;
    [| exfalso; apply Hnum, fit_of_nan, F].
  subst res. unfold calculate_row_score, total_of. rewrite F.
  cbn [score_fit_total icp_score icp_tier score_pain_total score_strat_total
       round1_nan cap_100].
  exists (round1 f). split; [reflexivity |].
  pose proof (pain_of_range row) as Bp.
  pose proof (fit_of_nonneg row f F) as Bf.
  pose proof (strat_of_range ln row) as Bs.
  pose proof (round1_close (pain_of row)) as [P1 P2].
  pose proof (round1_close (pain_of row + f + strat_of ln row)) as [T1 T2].
  pose proof (round1_one_decimal f (fit_of_one_decimal row f F)) as Ef.
  pose proof (round1_one_decimal _ (strat_of_one_decimal row)) as Es.
  assert (Hpos : 0 <= round1 (pain_of row + f + strat_of ln row))
    by (apply (round1_lower 0); lra).
  pose proof (tier_of_cases (round1 (pain_of row + f + strat_of ln row)))
    as (C1 & C2 & C3 & C4).
  revert Hpos T1 T2 C1 C2 C3 C4 P1 P2 Ef Es.
  generalize (round1 (pain_of row + f + strat_of ln row)).
  generalize (round1 (pain_of row)) (round1 f) (round1 (strat_of ln row)).
  intros rp rf rs t Hpos T1 T2 C1 C2 C3 C4 P1 P2 Ef Es.
  split; [minmax; lra |].
  split; [minmax; lra |].
  destruct (py_min_cases 100 t) as [[E H] | [E H]]; rewrite E.
  - split; [split; intros K; [lra | apply C1; lra] |].
    split; [split; intros K; [apply C2 in K; lra | lra] |].
    split; [split; intros K; [apply C3 in K; lra | lra] |].
    split; intros K; [apply C4 in K; lra | lra].
  - split; [exact C1 |]. split; [exact C2 |]. split; [exact C3 | exact C4].
Qed.

(** C7.  The revenue of a row is the first number in the chain
    [total_revenue], [hospital_total_revenue], [fqhc_revenue],
    [hha_revenue], [real_medicare_revenue] (a missing or [NaN] cell is
    passed over).  A row labelled 'Hospital' whose revenue, so
    resolved, is below 10,000,000 comes out as 'Ambulatory Center';
    with a resolved revenue of at least 10,000,000, or with no number
    in any of the five columns, it stays 'Hospital'. *)
Theorem hospital_segment_correction (row : Row) :
  segment_label row = Some "Hospital"%string ->
  let out := out_segment_label (calculate_row_score ln row) in
  match cell_value (total_revenue row),
        cell_value (hospital_total_revenue row),
        cell_value (fqhc_revenue row),
        cell_value (hha_revenue row),
        cell_value (real_medicare_revenue row) with
  | Some r, _, _, _, _
  | None, Some r, _, _, _
  | None, None, Some r, _, _
  | None, None, None, Some r, _
  | None, None, None, None, Some r =>
      (r < 10000000 -> out = "Ambulatory Center"%string) /\
      (10000000 <= r -> out = "Hospital"%string)
  | None, None, None, None, None => out = "Hospital"%string
  end.
Proof.
  intros Hseg out. subst out.
  unfold calculate_row_score, segment_of, real_revenue; simpl.
  rewrite Hseg; simpl.
  assert (Hcase : forall r,
            (r < 10000000 ->
             (if Qlt_bool r 10000000 then "Ambulatory Center"%string
              else "Hospital"%string) = "Ambulatory Center"%string) /\
            (10000000 <= r ->
             (if Qlt_bool r 10000000 then "Ambulatory Center"%string
              else "Hospital"%string) = "Hospital"%string)).
  { intros r. split; intros H.
    - apply Qlt_bool_iff in H. rewrite H. reflexivity.
    - apply Qlt_bool_false in H. rewrite H. reflexivity. }
  destruct (cell_value (total_revenue row)) as [r |]; [apply Hcase |].
  destruct (cell_value (hospital_total_revenue row)) as [r |];
    [apply Hcase |].
  destruct (cell_value (fqhc_revenue row)) as [r |]; [apply Hcase |].
  destruct (cell_value (hha_revenue row)) as [r |]; [apply Hcase |].
  destruct (cell_value (real_medicare_revenue row)) as [r |];
    [apply Hcase | reflexivity].
Qed.

(** C9.  [score_psych_risk_continuous] returns at least 10, hence
    never 0, so the "winning" test fails on every row and no row,
    whatever its track, is labelled "Low Pain - Strong
    Documentation". *)
Theorem low_pain_label_unreachable :
  (forall ratio, 10 <= score_psych_risk_continuous ratio) /\
  (forall ratio, Qeq_bool (score_psych_risk_continuous ratio) 0 = false) /\
  (forall row,
     pain_label (calculate_row_score ln row)
     <> "Low Pain - Strong Documentation"%string).
Proof.
  assert (Hnz : forall ratio, Qeq_bool (score_psych_risk_continuous ratio) 0
                              = false).
  { intros ratio. pose proof (score_psych_risk_range ratio) as B.
    destruct (Qeq_bool _ 0) eqn:E; [| reflexivity].
    apply Qeq_bool_iff in E. lra. }
  split; [intros ratio; apply score_psych_risk_range |].
  split; [exact Hnz |].
  intros row. unfold calculate_row_score, pain_label_of; simpl.
  destruct (String.eqb _ "BEHAVIORAL");
    [| destruct (String.eqb _ "POST_ACUTE"); [discriminate |]].
  - unfold behavioral_pain_label. rewrite Hnz, andb_false_r.
    repeat match goal with
    | |- context [if ?b then _ else _] => destruct b
    end; discriminate.
  - unfold ambulatory_pain_label. rewrite Hnz, andb_false_r. simpl.
    repeat match goal with
    | |- context [if ?b then _ else _] => destruct b
    end; discriminate.
Qed.

(** C10.  The track is chosen from the label the row came with: a
    'Hospital' with a resolved revenue below 10,000,000 and no
    behavioral keyword in its name is scored on the POST_ACUTE track,
    its pain being the margin-based one, while the segment it is
    reported with is 'Ambulatory Center'. *)
Theorem track_reads_uncorrected_segment (row : Row) (r : Q) :
  segment_label row = Some "Hospital"%string ->
  real_revenue row = Some r -> r < 10000000 ->
  existsb (fun keyword => contains keyword (upper (text_get (org_name row) "")))
          behavioral_keywords = false ->
  let res := calculate_row_score ln row in
  scoring_track res = "POST_ACUTE"%string /\
  out_segment_label res = "Ambulatory Center"%string /\
  score_pain_total res = round1 (post_acute_pain row) /\
  pain_label res = "Margin Pressure"%string.
Proof.
  intros Hseg Hrev Hlt Hkw res.
  assert (Htrack : detect_track row = "POST_ACUTE"%string).
  { unfold detect_track. rewrite Hseg. simpl text_get.
    change (String.eqb "Hospital" "Behavioral Health") with false.
    cbv iota. rewrite Hkw. reflexivity. }
  subst res. unfold calculate_row_score; simpl.
  unfold pain_of, pain_label_of, segment_of.
  rewrite Htrack, Hrev, Hseg. simpl.
  apply Qlt_bool_iff in Hlt. rewrite Hlt. repeat split.
Qed.

(** What the engine does with a 'Private Practice' that has no
    behavioral keyword in its name, an undercoding ratio of 0.6, 10
    psych codes and no procedure-alignment pain: the row is on the
    AMBULATORY track, its therapy gate is closed, its label is
    "Undercoding Pain" and its pain is
    [score_undercoding_continuous(0.6)], which the curve makes 0. *)
Theorem gate_closed_private_practice (row : Row) (u p : Q) :
  segment_label row = Some "Private Practice"%string ->
  existsb (fun keyword => contains keyword (upper (text_get (org_name row) "")))
          behavioral_keywords = false ->
  undercoding_ratio row = Num u -> u == 6 # 10 ->
  total_psych_codes row = Num p -> p == 10 ->
  score_procedure_alignment row == 0 ->
  let res := calculate_row_score ln row in
  scoring_track res = "AMBULATORY"%string /\
  therapy_gate (psych_percentage row) (cell_or_zero (total_psych_codes row))
  = false /\
  pain_label res = "Undercoding Pain"%string /\
  pain_of row = score_undercoding_continuous (Some u) /\
  score_undercoding_continuous (Some u) = 0 /\
  score_pain_total res == 0.
Proof.
  intros Hseg Hkw Hu Eu Hp Ep Hpa res.
  assert (Htrack : detect_track row = "AMBULATORY"%string).
  { unfold detect_track. rewrite Hseg. simpl text_get.
    change (String.eqb "Private Practice" "Behavioral Health") with false.
    cbv iota. rewrite Hkw. reflexivity. }
  assert (Hgate : therapy_gate (psych_percentage row)
                    (cell_or_zero (total_psych_codes row)) = false).
  { rewrite Hp. simpl. unfold therapy_gate.
    assert (E : Qle_bool 100 p = false) by (apply Qle_bool_false; lra).
    rewrite E. apply andb_false_r. }
  assert (Hund : score_undercoding_continuous (Some u) = 0).
  { simpl. assert (E1 : Qle_bool u 0 = false) by (apply Qle_bool_false; lra).
    assert (E2 : Qle_bool UNDERCODING_NATIONAL_AVG u = true)
      by (apply Qle_bool_iff; undercoding_consts; lra).
    rewrite E1, E2. reflexivity. }
  assert (Hther : ambulatory_pain_therapy row = 0).
  { unfold ambulatory_pain_therapy. rewrite Hgate. reflexivity. }
  assert (Hpa0 : Qlt_bool 0 (score_procedure_alignment row) = false)
    by (apply Qlt_bool_false; lra).
  assert (Hpa3 : Qle_bool 3 (score_procedure_alignment row) = false)
    by (apply Qle_bool_false; lra).
  assert (Hpain : pain_of row = score_undercoding_continuous (Some u)).
  { unfold pain_of. rewrite Htrack.
    change (String.eqb "AMBULATORY" "BEHAVIORAL") with false.
    change (String.eqb "AMBULATORY" "POST_ACUTE") with false. cbv iota.
    unfold ambulatory_pain. rewrite Hther, Hpa0, Hu. cbn [cell_or_zero].
    rewrite Hund. reflexivity. }
  subst res. unfold calculate_row_score; simpl.
  split; [exact Htrack |].
  split; [exact Hgate |].
  split.
  - unfold pain_label_of. rewrite Htrack.
    change (String.eqb "AMBULATORY" "BEHAVIORAL") with false.
    change (String.eqb "AMBULATORY" "POST_ACUTE") with false. cbv iota.
    unfold ambulatory_pain_label. rewrite Hgate, Hpa3. cbn [andb].
    pose proof (score_psych_risk_range
                  (Some (cell_or_zero (psych_risk_ratio row)))) as B.
    destruct (Qeq_bool (score_psych_risk_continuous _) 0) eqn:E.
    + apply Qeq_bool_iff in E. exfalso. lra.
    + rewrite andb_false_r. reflexivity.
  - split; [exact Hpain |]. split; [exact Hund |].
    rewrite Hpain, Hund. vm_compute. reflexivity.
Qed.
End Engine.

Lemma sample_log_pos (x : Q) : 1 < x -> 0 < samples.sample_log x.
Proof. unfold samples.sample_log. intros H. lra. Qed.

Lemma icp_score_and_tier_witness :
  icp_tier (calculate_row_score samples.sample_log samples.counseling_center)
  = "Tier 3"%string.
Proof.
  destruct (icp_score_and_tier samples.sample_log sample_log_pos
              samples.counseling_center)
    as (fit & _ & _ & _ & _ & _ & H3 & _); [discriminate |].
  apply H3. split; [unfold Qle | unfold Qlt]; vm_compute;
    [discriminate | reflexivity].
Defined.

(** The scores of the sample counseling center do not involve the
    logarithm. *)
Lemma counseling_center_scores (ln : Q -> Q) :
  fit_of ln samples.counseling_center = Some (130 # 10) /\
  strat_of ln samples.counseling_center = 180 # 10 /\
  total_of ln samples.counseling_center = Some (435 # 10).
Proof. repeat split; vm_compute; reflexivity. Qed.

(** C5.  A provider count that is [NaN] passes through unguarded
    (the undercoding and psych-risk cells are set to 0 when they are
    [NaN], the provider count is not): the fit and with it the total
    are [NaN], every tier test fails and [min(100, total)] keeps its
    first argument, so the row comes out with [icp_score] 100 and
    'Tier 4', whatever the other columns.  No total, that is, fits
    both: a score of 100 belongs to 'Tier 1'. *)
Theorem nan_provider_count_scores_100_in_tier_4 (ln : Q -> Q) :
  let res := calculate_row_score ln samples.nan_provider_clinic in
  npi_count samples.nan_provider_clinic = NaN /\
  score_fit_total res = None /\
  icp_score res = 100 /\
  icp_tier res = "Tier 4"%string /\
  70 <= icp_score res.
Proof.
  assert (F : fit_of ln samples.nan_provider_clinic = None) by reflexivity.
  cbv zeta. unfold calculate_row_score, total_of. rewrite F.
  cbn [score_fit_total icp_score icp_tier round1_nan cap_100 tier_of].
  repeat split. unfold Qle; simpl; lia.
Qed.

(** The total is rounded once, from a pain that may not be: on this
    BEHAVIORAL row the volume bonus is 501 / 1000 * 5 = 2.505, so the
    pain is 12.505; with a fit of 13 and a strategy score of 18 the
    engine's [total] is 43.5, which is also what the returned totals
    12.5, 13 and 18 add up to. *)
Lemma total_is_not_the_exact_sum :
  pain_of samples.counseling_center == 12505 # 1000 /\
  fit_of samples.sample_log samples.counseling_center = Some (130 # 10) /\
  strat_of samples.sample_log samples.counseling_center = 180 # 10 /\
  total_of samples.sample_log samples.counseling_center = Some (435 # 10) /\
  ~ (435 # 10) == (12505 # 1000) + (130 # 10) + (180 # 10).
Proof.
  repeat split; try (vm_compute; reflexivity).
  vm_compute. discriminate.
Qed.

Lemma hospital_segment_correction_witness :
  out_segment_label (calculate_row_score samples.sample_log
                       samples.low_revenue_hospital)
  = "Ambulatory Center"%string /\
  out_segment_label (calculate_row_score samples.sample_log
                       samples.fallback_revenue_hospital)
  = "Ambulatory Center"%string /\
  out_segment_label (calculate_row_score samples.sample_log
                       samples.high_revenue_hospital)
  = "Hospital"%string /\
  out_segment_label (calculate_row_score samples.sample_log
                       samples.no_revenue_hospital)
  = "Hospital"%string.
Proof.
  split; [| split; [| split]].
  - apply (proj1 (hospital_segment_correction samples.sample_log
                    samples.low_revenue_hospital eq_refl)).
    unfold Qlt; simpl; lia.
  - apply (proj1 (hospital_segment_correction samples.sample_log
                    samples.fallback_revenue_hospital eq_refl)).
    unfold Qlt; simpl; lia.
  - apply (proj2 (hospital_segment_correction samples.sample_log
                    samples.high_revenue_hospital eq_refl)).
    unfold Qle; simpl; lia.
  - exact (hospital_segment_correction samples.sample_log
             samples.no_revenue_hospital eq_refl).
Defined.

Lemma low_pain_label_unreachable_witness :
  10 <= score_psych_risk_continuous (Some (5 # 10)) /\
  pain_label (calculate_row_score samples.sample_log samples.counseling_center)
  <> "Low Pain - Strong Documentation"%string /\
  pain_label (calculate_row_score samples.sample_log samples.cardiology_clinic)
  <> "Low Pain - Strong Documentation"%string.
Proof.
  destruct (low_pain_label_unreachable samples.sample_log)
    as (Hscore & _ & Hlabel).
  split; [apply Hscore |].
  split; apply Hlabel.
Defined.

Lemma track_reads_uncorrected_segment_witness :
  scoring_track (calculate_row_score samples.sample_log
                   samples.low_revenue_hospital) = "POST_ACUTE"%string /\
  out_segment_label (calculate_row_score samples.sample_log
                       samples.low_revenue_hospital)
  = "Ambulatory Center"%string.
Proof.
  destruct (track_reads_uncorrected_segment samples.sample_log
              samples.low_revenue_hospital 5000000 eq_refl eq_refl)
    as (Ht & Hs & _).
  - unfold Qlt; simpl; lia.
  - reflexivity.
  - split; assumption.
Defined.

Lemma gate_closed_private_practice_witness :
  pain_label (calculate_row_score samples.sample_log samples.cardiology_clinic)
  = "Undercoding Pain"%string /\
  score_pain_total (calculate_row_score samples.sample_log
                      samples.cardiology_clinic) == 0.
Proof.
  destruct (gate_closed_private_practice samples.sample_log
              samples.cardiology_clinic (6 # 10) 10 eq_refl eq_refl eq_refl)
    as (_ & _ & Hl & _ & _ & Hp);
    try reflexivity.
  split; assumption.
Defined.

(** Why the statement above asks for no procedure-alignment pain: a
    podiatry practice with the same undercoding ratio and psych volume
    but a procedure ratio of 0.10 against the expected 0.60 gets that
    pain (10) and its label. *)
Lemma procedure_alignment_takes_the_label :
  score_procedure_alignment samples.podiatry_practice = 10 /\
  pain_of samples.podiatry_practice = 10 /\
  pain_label (calculate_row_score samples.sample_log samples.podiatry_practice)
  = "Procedure Alignment Pain"%string.
Proof. repeat split; vm_compute; reflexivity. Qed.

(** C6.  The row of the scenario is the row of the repository's
    [test_therapy_gate_closes_for_irrelevant_clinic], which asserts
    [score_pain_total == 10].  On it the gate is closed and the label
    is "Undercoding Pain", as claim and test say, but the pain is
    [score_undercoding_continuous(0.6)], and the curve returns 0 from
    0.45 on: the engine returns 0 where claim and test expect 10. *)
Lemma gate_closed_pain_is_not_10 :
  score_undercoding_continuous (Some (6 # 10)) = 0 /\
  pain_of samples.cardiology_clinic = 0 /\
  score_pain_total (calculate_row_score samples.sample_log
                      samples.cardiology_clinic) == 0 /\
  pain_label (calculate_row_score samples.sample_log samples.cardiology_clinic)
  = "Undercoding Pain"%string /\
  ~ score_undercoding_continuous (Some (6 # 10)) == 10.
Proof.
  repeat split; try (vm_compute; reflexivity).
  vm_compute. discriminate.
Qed.

(* ------------------------------------------------------------------ *)
(** ** Sums and groupby *)

(** Addition of fractions is a commutative monoid up to syntactic
    equality, not only up to [==]: sums taken in different groupings
    are the same fraction, numerator and denominator. *)
Lemma Qplus_0_l_eq (x : Q) : 0 + x = x.
Proof.
  destruct x as [n d]. unfold Qplus; simpl.
  f_equal. lia.
Qed.

Lemma Qplus_0_r_eq (x : Q) : x + 0 = x.
Proof.
  destruct x as [n d]. unfold Qplus; simpl.
  f_equal; [lia | apply Pos.mul_1_r].
Qed.

Lemma Qplus_assoc_eq (x y z : Q) : x + (y + z) = (x + y) + z.
Proof.
  destruct x as [xn xd], y as [yn yd], z as [zn zd].
  unfold Qplus; simpl. f_equal; [| apply Pos.mul_assoc].
  rewrite !Pos2Z.inj_mul. ring.
Qed.

Lemma Qsum_app (l1 l2 : list Q) : Qsum (l1 ++ l2) = Qsum l1 + Qsum l2.
Proof.
  induction l1 as [| a l1 IH]; simpl.
  - symmetry. apply Qplus_0_l_eq.
  - rewrite IH. apply Qplus_assoc_eq.
Qed.

Lemma Qsum_nonneg (l : list Q) : Forall (fun v => 0 <= v) l -> 0 <= Qsum l.
Proof.
  induction 1 as [| a l Ha _ IH]; simpl; lra.
Qed.

Section GroupByFacts.
Context {K : Type}.
Variable eqb : K -> K -> bool.
Variable ltb : K -> K -> bool.
Hypothesis eqb_eq : forall a b, eqb a b = true <-> a = b.

Lemma eqb_refl_true (a : K) : eqb a a = true.
Proof. apply eqb_eq. reflexivity. Qed.

Lemma existsb_eqb_In (k : K) (ks : list K) :
  existsb (eqb k) ks = true <-> In k ks.
Proof.
  rewrite existsb_exists. split.
  - intros (x & Hx & E). apply eqb_eq in E. subst. exact Hx.
  - intros H. exists k. split; [exact H | apply eqb_refl_true].
Qed.

Lemma In_insert_sorted (x k : K) (ks : list K) :
  In x (insert_sorted ltb k ks) <-> x = k \/ In x ks.
Proof.
  induction ks as [| k' t IH]; simpl.
  - intuition.
  - destruct (ltb k k'); simpl; [intuition |].
    rewrite IH. intuition.
Qed.

Lemma NoDup_insert_sorted (k : K) (ks : list K) :
  ~ In k ks -> NoDup ks -> NoDup (insert_sorted ltb k ks).
Proof.
  induction ks as [| k' t IH]; simpl; intros Hk Hnd.
  - constructor; [intros [] | constructor].
  - destruct (ltb k k').
    + constructor; [exact Hk | exact Hnd].
    + inversion Hnd as [| ? ? Hk' Hnd']; subst.
      constructor.
      * rewrite In_insert_sorted. intros [-> | H]; [| contradiction].
        apply Hk. left. reflexivity.
      * apply IH; [| exact Hnd']. intros H. apply Hk. right. exact H.
Qed.

Lemma In_insert_key (x k : K) (ks : list K) :
  In x (insert_key eqb ltb k ks) <-> x = k \/ In x ks.
Proof.
  unfold insert_key. destruct (existsb (eqb k) ks) eqn:E.
  - apply existsb_eqb_In in E. split; [auto |].
    intros [-> | H]; assumption.
  - apply In_insert_sorted.
Qed.

Lemma NoDup_insert_key (k : K) (ks : list K) :
  NoDup ks -> NoDup (insert_key eqb ltb k ks).
Proof.
  intros Hnd. unfold insert_key. destruct (existsb (eqb k) ks) eqn:E.
  - exact Hnd.
  - apply NoDup_insert_sorted; [| exact Hnd].
    intros H. apply existsb_eqb_In in H. congruence.
Qed.

Lemma In_group_keys (x : K) (ks : list K) :
  In x (group_keys eqb ltb ks) <-> In x ks.
Proof.
  induction ks as [| k t IH]; simpl; [reflexivity |].
  rewrite In_insert_key, IH. intuition.
Qed.

Lemma NoDup_group_keys (ks : list K) : NoDup (group_keys eqb ltb ks).
Proof.
  induction ks as [| k t IH]; simpl; [constructor |].
  apply NoDup_insert_key, IH.
Qed.

Lemma sum_where_app (k : K) (r1 r2 : list (K * Q)) :
  sum_where eqb k (r1 ++ r2) = sum_where eqb k r1 + sum_where eqb k r2.
Proof.
  unfold sum_where. rewrite filter_app, map_app. apply Qsum_app.
Qed.

Lemma sum_where_absent (k : K) (rows : list (K * Q)) :
  ~ In k (map fst rows) -> sum_where eqb k rows = 0.
Proof.
  unfold sum_where. induction rows as [| [k' v] t IH]; simpl; intros H.
  - reflexivity.
  - destruct (eqb k k') eqn:E.
    + apply eqb_eq in E. exfalso. apply H. left. symmetry. exact E.
    + apply IH. intros H'. apply H. right. exact H'.
Qed.

(** In a table with one row per key, the rows under [k] are the one
    row of [k]. *)
Lemma sum_where_table (f : K -> Q) (k : K) (keys : list K) :
  NoDup keys -> In k keys ->
  sum_where eqb k (map (fun k' => (k', f k')) keys) = f k.
Proof.
  induction keys as [| k' t IH]; intros Hnd Hin; [destruct Hin |].
  inversion Hnd as [| ? ? Hk' Hnd']; subst.
  unfold sum_where in *. simpl.
  destruct (eqb k k') eqn:E.
  - apply eqb_eq in E. subst k'. simpl.
    fold (sum_where eqb k (map (fun k' => (k', f k')) t)).
    rewrite sum_where_absent; [apply Qplus_0_r_eq |].
    rewrite map_map. simpl. rewrite map_id. exact Hk'.
  - apply IH; [exact Hnd' |].
    destruct Hin as [-> | H]; [| exact H].
    rewrite eqb_refl_true in E. discriminate.
Qed.

Lemma map_fst_groupby_sum (rows : list (K * Q)) :
  map fst (groupby_sum eqb ltb rows) = group_keys eqb ltb (map fst rows).
Proof.
  unfold groupby_sum. rewrite map_map. simpl. apply map_id.
Qed.

(** Grouping leaves the sum under every key as it was. *)
Lemma sum_where_groupby_sum (k : K) (rows : list (K * Q)) :
  sum_where eqb k (groupby_sum eqb ltb rows) = sum_where eqb k rows.
Proof.
  destruct (existsb (eqb k) (map fst rows)) eqn:E.
  - apply existsb_eqb_In in E. unfold groupby_sum.
    apply sum_where_table; [apply NoDup_group_keys |].
    apply In_group_keys. exact E.
  - assert (H : ~ In k (map fst rows)).
    { intros H. apply existsb_eqb_In in H. congruence. }
    rewrite (sum_where_absent k rows H).
    apply sum_where_absent. rewrite map_fst_groupby_sum, In_group_keys.
    exact H.
Qed.

Lemma lookup_table (f : K -> Q) (k : K) (keys : list K) :
  lookup eqb k (map (fun k' => (k', f k')) keys)
  = if existsb (eqb k) keys then Some (f k) else None.
Proof.
  unfold lookup. induction keys as [| k' t IH]; simpl; [reflexivity |].
  destruct (eqb k k') eqn:E; simpl.
  - apply eqb_eq in E. subst. reflexivity.
  - exact IH.
Qed.

(** Reading a grouped table with 0 for a missing key gives the sum of
    the rows under the key. *)
Lemma lookup_groupby_sum (k : K) (rows : list (K * Q)) :
  match lookup eqb k (groupby_sum eqb ltb rows) with
  | Some v => v
  | None => 0
  end = sum_where eqb k rows.
Proof.
  unfold groupby_sum. rewrite lookup_table.
  destruct (existsb (eqb k) (group_keys eqb ltb (map fst rows))) eqn:E.
  - reflexivity.
  - symmetry. apply sum_where_absent. intros H.
    apply In_group_keys, existsb_eqb_In in H. congruence.
Qed.

Lemma sum_where_nonneg (k : K) (rows : list (K * Q)) :
  Forall (fun r => 0 <= snd r) rows -> 0 <= sum_where eqb k rows.
Proof.
  intros H. unfold sum_where. apply Qsum_nonneg.
  rewrite Forall_forall in *. intros v Hv.
  apply in_map_iff in Hv. destruct Hv as (r & <- & Hr).
  apply filter_In in Hr. apply H, Hr.
Qed.
End GroupByFacts.

(** The index of a [groupby] on an integer key is strictly increasing,
    so it is determined by the set of keys. *)
Lemma insert_sorted_Z_sorted (k : Z) (ks : list Z) :
  StronglySorted Z.lt ks -> ~ In k ks ->
  StronglySorted Z.lt (insert_sorted Z.ltb k ks).
Proof.
  induction 1 as [| k' t Hs IH Hall]; simpl; intros Hk.
  - constructor; constructor.
  - destruct (Z.ltb_spec k k') as [Hlt | Hge].
    + constructor; [constructor; assumption |].
      constructor; [exact Hlt |].
      rewrite Forall_forall in *. intros x Hx. specialize (Hall x Hx). lia.
    + constructor.
      * apply IH. intros H. apply Hk. right. exact H.
      * rewrite Forall_forall in *. intros x Hx.
        apply In_insert_sorted in Hx. destruct Hx as [-> | Hx].
        -- assert (k <> k') by (intros ->; apply Hk; left; reflexivity). lia.
        -- apply Hall, Hx.
Qed.

Lemma group_keys_Z_sorted (ks : list Z) :
  StronglySorted Z.lt (group_keys Z.eqb Z.ltb ks).
Proof.
  induction ks as [| k t IH]; simpl; [constructor |].
  unfold insert_key.
  destruct (existsb (Z.eqb k) (group_keys Z.eqb Z.ltb t)) eqn:E; [exact IH |].
  apply insert_sorted_Z_sorted; [exact IH |].
  intros H. apply (existsb_eqb_In Z.eqb Z.eqb_eq) in H. congruence.
Qed.

Lemma sorted_same_elements (l1 l2 : list Z) :
  StronglySorted Z.lt l1 -> StronglySorted Z.lt l2 ->
  (forall x, In x l1 <-> In x l2) -> l1 = l2.
Proof.
  intros H1. revert l2.
  induction H1 as [| a t1 Hs1 IH Ha]; intros l2 H2 Hiff.
  - destruct l2 as [| b t2]; [reflexivity |].
    exfalso. apply (Hiff b). left. reflexivity.
  - destruct H2 as [| b t2 Hs2 Hb].
    + exfalso. apply (Hiff a). left. reflexivity.
    + rewrite Forall_forall in Ha, Hb.
      assert (E : a = b).
      { destruct (proj1 (Hiff a) (or_introl eq_refl)) as [E | Hin];
          [symmetry; exact E |].
        destruct (proj2 (Hiff b) (or_introl eq_refl)) as [E | Hin'];
          [exact E |].
        specialize (Ha b Hin'). specialize (Hb a Hin). lia. }
      subst b. f_equal. apply IH; [exact Hs2 |].
      intros x. split; intros Hx.
      * destruct (proj1 (Hiff x) (or_intror Hx)) as [E | Hin]; [| exact Hin].
        specialize (Ha x Hx). lia.
      * destruct (proj2 (Hiff x) (or_intror Hx)) as [E | Hin]; [| exact Hin].
        specialize (Hb x Hx). lia.
Qed.

Lemma group_keys_Z_ext (l1 l2 : list Z) :
  (forall x, In x l1 <-> In x l2) ->
  group_keys Z.eqb Z.ltb l1 = group_keys Z.eqb Z.ltb l2.
Proof.
  intros H. apply sorted_same_elements; try apply group_keys_Z_sorted.
  intros x. rewrite !(In_group_keys Z.eqb Z.ltb Z.eqb_eq). apply H.
Qed.

(* ------------------------------------------------------------------ *)
(** ** The code aggregator *)

Section Aggregator.
Import mine_cpt_codes.
Variable bridge : option Bridge.

Lemma em_key_eqb_eq (a b : em_key) : em_key_eqb a b = true <-> a = b.
Proof.
  destruct a as [n1 c1], b as [n2 c2]. unfold em_key_eqb; simpl.
  rewrite andb_true_iff, Z.eqb_eq, String.eqb_eq.
  split; [intros [-> ->]; reflexivity | intros [= -> ->]; auto].
Qed.

Lemma with_org_app (l1 l2 : list ServiceRecord) :
  with_org bridge (l1 ++ l2) = with_org bridge l1 ++ with_org bridge l2.
Proof.
  unfold with_org, merge_bridge.
  destruct bridge; [apply flat_map_app | apply map_app].
Qed.

Lemma with_org_In (p : Z * ServiceRecord) (rows : list ServiceRecord) :
  In p (with_org bridge rows) -> In (snd p) rows.
Proof.
  unfold with_org, merge_bridge. destruct bridge as [b |]; intros H.
  - apply in_flat_map in H. destruct H as (r & Hr & Hp).
    apply in_map_iff in Hp. destruct Hp as (link & <- & _). exact Hr.
  - apply in_map_iff in H. destruct H as (r & <- & Hr). exact Hr.
Qed.

Lemma em_rows_app (l1 l2 : list ServiceRecord) :
  em_rows bridge (l1 ++ l2) = em_rows bridge l1 ++ em_rows bridge l2.
Proof. unfold em_rows. rewrite with_org_app. apply map_app. Qed.

Lemma proc_rows_app (l1 l2 : list ServiceRecord) :
  proc_rows bridge (l1 ++ l2) = proc_rows bridge l1 ++ proc_rows bridge l2.
Proof. unfold proc_rows. rewrite with_org_app. apply map_app. Qed.

Lemma em_rows_nil : em_rows bridge [] = [].
Proof. unfold em_rows, with_org. destruct bridge; reflexivity. Qed.

Lemma proc_rows_nil : proc_rows bridge [] = [].
Proof. unfold proc_rows, with_org. destruct bridge; reflexivity. Qed.

Lemma filter_target_app (l1 l2 : list ServiceRecord) :
  filter_target (l1 ++ l2) = filter_target l1 ++ filter_target l2.
Proof. apply filter_app. Qed.

Lemma filter_procedure_app (l1 l2 : list ServiceRecord) :
  filter_procedure (l1 ++ l2) = filter_procedure l1 ++ filter_procedure l2.
Proof. apply filter_app. Qed.

(** What the loop appends for one chunk. *)
Lemma process_chunk_appends (acc : Partials) (chunk : list ServiceRecord) :
  org_chunks (process_chunk bridge acc chunk)
  = org_chunks acc
    ++ (if is_nil (filter_target chunk) then []
        else [em_agg bridge (filter_target chunk)]) /\
  procedure_chunks (process_chunk bridge acc chunk)
  = procedure_chunks acc
    ++ (if is_nil (filter_procedure chunk) then []
        else [proc_agg bridge (filter_procedure chunk)]).
Proof.
  unfold process_chunk; simpl.
  destruct (is_nil (filter_target chunk)),
           (is_nil (filter_procedure chunk));
    rewrite ?app_nil_r; split; reflexivity.
Qed.

(** The accumulators after the loop: one table per chunk that has a
    selected row, in the order of the chunks. *)
Lemma loop_accumulates (chunks : list (list ServiceRecord)) (acc : Partials) :
  org_chunks (fold_left (process_chunk bridge) chunks acc)
  = org_chunks acc
    ++ flat_map (fun c => if is_nil (filter_target c) then []
                          else [em_agg bridge (filter_target c)]) chunks /\
  procedure_chunks (fold_left (process_chunk bridge) chunks acc)
  = procedure_chunks acc
    ++ flat_map (fun c => if is_nil (filter_procedure c) then []
                          else [proc_agg bridge (filter_procedure c)]) chunks.
Proof.
  revert acc. induction chunks as [| c cs IH]; intros acc; simpl.
  - rewrite !app_nil_r. split; reflexivity.
  - destruct (IH (process_chunk bridge acc c)) as [E1 E2].
    destruct (process_chunk_appends acc c) as [A1 A2].
    rewrite E1, E2, A1, A2, <- !app_assoc. split; reflexivity.
Qed.

Lemma is_nil_app {A : Type} (l1 l2 : list A) :
  is_nil (l1 ++ l2) = is_nil l1 && is_nil l2.
Proof. destruct l1; reflexivity. Qed.

(** The E&M accumulator is empty exactly when the whole stream has no
    target code. *)
Lemma org_chunks_nil (chunks : list (list ServiceRecord)) :
  is_nil (flat_map (fun c => if is_nil (filter_target c) then []
                             else [em_agg bridge (filter_target c)]) chunks)
  = is_nil (filter_target (List.concat chunks)).
Proof.
  induction chunks as [| c cs IH]; simpl; [reflexivity |].
  rewrite filter_target_app, !is_nil_app, IH.
  destruct (is_nil (filter_target c)); reflexivity.
Qed.

Lemma procedure_chunks_nil (chunks : list (list ServiceRecord)) :
  is_nil (flat_map (fun c => if is_nil (filter_procedure c) then []
                             else [proc_agg bridge (filter_procedure c)])
                   chunks)
  = is_nil (filter_procedure (List.concat chunks)).
Proof.
  induction chunks as [| c cs IH]; simpl; [reflexivity |].
  rewrite filter_procedure_app, !is_nil_app, IH.
  destruct (is_nil (filter_procedure c)); reflexivity.
Qed.

Lemma is_nil_true {A : Type} (l : list A) : is_nil l = true -> l = [].
Proof. destruct l; [reflexivity | discriminate]. Qed.

(** Under every key the partial tables add up to the sum over the
    selected rows of the whole stream. *)
Lemma org_chunks_sum (k : em_key) (chunks : list (list ServiceRecord)) :
  sum_where em_key_eqb k
    (List.concat
       (flat_map (fun c => if is_nil (filter_target c) then []
                           else [em_agg bridge (filter_target c)]) chunks))
  = sum_where em_key_eqb k
      (em_rows bridge (filter_target (List.concat chunks))).
Proof.
  induction chunks as [| c cs IH]; simpl;
    [rewrite em_rows_nil; reflexivity |].
  rewrite filter_target_app, em_rows_app, concat_app, !sum_where_app, IH.
  f_equal.
  destruct (is_nil (filter_target c)) eqn:E.
  - apply is_nil_true in E. rewrite E, em_rows_nil. reflexivity.
  - simpl. rewrite app_nil_r.
    apply (sum_where_groupby_sum em_key_eqb em_key_ltb em_key_eqb_eq).
Qed.

Lemma procedure_chunks_sum (n : Z) (chunks : list (list ServiceRecord)) :
  sum_where Z.eqb n
    (List.concat
       (flat_map (fun c => if is_nil (filter_procedure c) then []
                           else [proc_agg bridge (filter_procedure c)])
                 chunks))
  = sum_where Z.eqb n
      (proc_rows bridge (filter_procedure (List.concat chunks))).
Proof.
  induction chunks as [| c cs IH]; simpl;
    [rewrite proc_rows_nil; reflexivity |].
  rewrite filter_procedure_app, proc_rows_app, concat_app, !sum_where_app, IH.
  f_equal.
  destruct (is_nil (filter_procedure c)) eqn:E.
  - apply is_nil_true in E. rewrite E, proc_rows_nil. reflexivity.
  - simpl. rewrite app_nil_r.
    apply (sum_where_groupby_sum Z.eqb Z.ltb Z.eqb_eq).
Qed.

Lemma In_npi_groupby_sum (n : Z) (rows : list (em_key * Q)) :
  In n (map (fun r => fst (fst r)) (groupby_sum em_key_eqb em_key_ltb rows))
  <-> In n (map (fun r => fst (fst r)) rows).
Proof.
  rewrite <- !(map_map fst fst).
  rewrite (map_fst_groupby_sum em_key_eqb em_key_ltb).
  rewrite !in_map_iff. split; intros (k & E & Hk); exists k; split; auto.
  - exact (proj1 (In_group_keys em_key_eqb em_key_ltb em_key_eqb_eq _ _) Hk).
  - exact (proj2 (In_group_keys em_key_eqb em_key_ltb em_key_eqb_eq _ _) Hk).
Qed.

(** The organisations of the partial tables are those of the selected
    rows of the whole stream. *)
Lemma org_chunks_npis (n : Z) (chunks : list (list ServiceRecord)) :
  In n (map (fun r => fst (fst r))
          (List.concat
             (flat_map (fun c => if is_nil (filter_target c) then []
                                 else [em_agg bridge (filter_target c)])
                       chunks)))
  <-> In n (map (fun r => fst (fst r))
              (em_rows bridge (filter_target (List.concat chunks)))).
Proof.
  induction chunks as [| c cs IH]; simpl;
    [rewrite em_rows_nil; reflexivity |].
  rewrite filter_target_app, em_rows_app, concat_app, !map_app, !in_app_iff, IH.
  destruct (is_nil (filter_target c)) eqn:E.
  - apply is_nil_true in E. rewrite E, em_rows_nil. reflexivity.
  - simpl. rewrite app_nil_r. unfold em_agg.
    rewrite In_npi_groupby_sum. reflexivity.
Qed.
End Aggregator.

Section AggregatorResult.
Import mine_cpt_codes.
Variable bridge : option Bridge.

(** The finalization reads its accumulators only through the sums
    under each key, the set of organisations, and whether anything was
    accumulated at all. *)
Lemma finalize_ext (acc1 acc2 : Partials) :
  is_nil (org_chunks acc1) = is_nil (org_chunks acc2) ->
  (forall k, sum_where em_key_eqb k (List.concat (org_chunks acc1))
             = sum_where em_key_eqb k (List.concat (org_chunks acc2))) ->
  (forall n, In n (map (fun r => fst (fst r)) (List.concat (org_chunks acc1)))
             <-> In n (map (fun r => fst (fst r))
                         (List.concat (org_chunks acc2)))) ->
  is_nil (procedure_chunks acc1) = is_nil (procedure_chunks acc2) ->
  (forall n, sum_where Z.eqb n (List.concat (procedure_chunks acc1))
             = sum_where Z.eqb n (List.concat (procedure_chunks acc2))) ->
  finalize acc1 = finalize acc2.
Proof.
  intros Hnil Hsum Hnpi Hpnil Hpsum. unfold finalize.
  rewrite Hnil, Hpnil.
  destruct (is_nil (org_chunks acc2)); [reflexivity |].
  f_equal.
  assert (Hpivot : forall n code,
            pivot_at (groupby_sum em_key_eqb em_key_ltb
                        (List.concat (org_chunks acc1))) n code
            = pivot_at (groupby_sum em_key_eqb em_key_ltb
                          (List.concat (org_chunks acc2))) n code).
  { intros n code. unfold pivot_at.
    rewrite !(lookup_groupby_sum em_key_eqb em_key_ltb em_key_eqb_eq).
    apply Hsum. }
  assert (Hrow : forall n,
            pivot_row (groupby_sum em_key_eqb em_key_ltb
                         (List.concat (org_chunks acc1))) n
            = pivot_row (groupby_sum em_key_eqb em_key_ltb
                           (List.concat (org_chunks acc2))) n).
  { intros n. unfold pivot_row.
    rewrite (map_ext _ _ (Hpivot n) LEVEL_3_CODES).
    rewrite (map_ext _ _ (Hpivot n) LEVEL_4_5_CODES). reflexivity. }
  assert (Hidx : group_keys Z.eqb Z.ltb
                   (map (fun r => fst (fst r))
                      (groupby_sum em_key_eqb em_key_ltb
                         (List.concat (org_chunks acc1))))
                 = group_keys Z.eqb Z.ltb
                     (map (fun r => fst (fst r))
                        (groupby_sum em_key_eqb em_key_ltb
                           (List.concat (org_chunks acc2))))).
  { apply group_keys_Z_ext. intros n.
    rewrite !In_npi_groupby_sum. apply Hnpi. }
  rewrite Hidx, (map_ext _ _ Hrow).
  apply map_ext. intros p.
  rewrite !(lookup_groupby_sum Z.eqb Z.ltb Z.eqb_eq), Hpsum. reflexivity.
Qed.

(** Reading the stream in chunks gives what reading it as one chunk
    gives. *)
Lemma loop_from_empty (chunks : list (list ServiceRecord)) :
  org_chunks (fold_left (process_chunk bridge) chunks
                {| org_chunks := []; procedure_chunks := [] |})
  = flat_map (fun c => if is_nil (filter_target c) then []
                       else [em_agg bridge (filter_target c)]) chunks /\
  procedure_chunks (fold_left (process_chunk bridge) chunks
                      {| org_chunks := []; procedure_chunks := [] |})
  = flat_map (fun c => if is_nil (filter_procedure c) then []
                       else [proc_agg bridge (filter_procedure c)]) chunks.
Proof. apply (loop_accumulates bridge chunks). Qed.

Lemma concat_singleton {A : Type} (l : list A) : List.concat [l] = l.
Proof. apply app_nil_r. Qed.

Lemma process_as_one_chunk (chunks : list (list ServiceRecord)) :
  process_chunks bridge chunks
  = process_chunks bridge [List.concat chunks].
Proof.
  unfold process_chunks.
  destruct (loop_from_empty chunks) as [E1 E2].
  destruct (loop_from_empty [List.concat chunks]) as [F1 F2].
  apply finalize_ext; rewrite ?E1, ?E2, ?F1, ?F2.
  - rewrite !org_chunks_nil, concat_singleton. reflexivity.
  - intros k. rewrite !org_chunks_sum, concat_singleton. reflexivity.
  - intros n. rewrite !org_chunks_npis, concat_singleton. reflexivity.
  - rewrite !procedure_chunks_nil, concat_singleton. reflexivity.
  - intros n. rewrite !procedure_chunks_sum, concat_singleton. reflexivity.
Qed.

Lemma concat_read_chunks_fuel (fuel : nat) (chunk_size : N)
  (rows : list ServiceRecord) :
  List.concat (read_chunks_fuel fuel chunk_size rows) = rows.
Proof.
  revert rows. induction fuel as [| fuel IH]; intros rows.
  - destruct rows as [| r rows]; [reflexivity |].
    cbn [read_chunks_fuel]. apply concat_singleton.
  - destruct rows as [| r rows]; [reflexivity |].
    cbn [read_chunks_fuel List.concat]. rewrite IH. apply firstn_skipn.
Qed.

Lemma concat_read_chunks (chunk_size : N) (rows : list ServiceRecord) :
  List.concat (read_chunks chunk_size rows) = rows.
Proof. apply concat_read_chunks_fuel. Qed.
End AggregatorResult.

Section AggregatorRows.
Import mine_cpt_codes.
Variable bridge : option Bridge.

Lemma pd_div_finite (a b : Q) : ~ b == 0 -> pd_div a b = Fin (a / b).
Proof.
  intros H. unfold pd_div.
  destruct (Qeq_bool b 0) eqn:E; [| reflexivity].
  apply Qeq_bool_iff in E. contradiction.
Qed.

Lemma ratio_in_unit (a b : Q) : 0 <= a -> 0 <= b -> 0 < a + b ->
  0 <= a / (a + b) <= 1.
Proof.
  intros Ha Hb Hab. split.
  - apply Qle_shift_div_l; [exact Hab | lra].
  - apply Qle_shift_div_r; [exact Hab | lra].
Qed.

(** Service counts that are not negative give partial rows that are not
    negative. *)
Lemma em_rows_nonneg (rows : list ServiceRecord) :
  (forall r, In r rows -> 0 <= Tot_Srvcs r) ->
  Forall (fun e => 0 <= snd e) (em_rows bridge (filter_target rows)).
Proof.
  intros H. apply Forall_forall. intros e He.
  unfold em_rows in He. apply in_map_iff in He.
  destruct He as (p & <- & Hp). simpl.
  apply with_org_In in Hp. apply filter_In in Hp. apply H, Hp.
Qed.

Lemma proc_rows_nonneg (rows : list ServiceRecord) :
  (forall r, In r rows -> 0 <= Tot_Srvcs r) ->
  Forall (fun e => 0 <= snd e) (proc_rows bridge (filter_procedure rows)).
Proof.
  intros H. apply Forall_forall. intros e He.
  unfold proc_rows in He. apply in_map_iff in He.
  destruct He as (p & <- & Hp). simpl.
  apply with_org_In in Hp. apply filter_In in Hp. apply H, Hp.
Qed.

Lemma Qsum_map_nonneg {A : Type} (f : A -> Q) (l : list A) :
  (forall a, 0 <= f a) -> 0 <= Qsum (map f l).
Proof.
  intros H. apply Qsum_nonneg, Forall_forall.
  intros v Hv. apply in_map_iff in Hv. destruct Hv as (a & <- & _). apply H.
Qed.

(** Every row of the result comes from one pivot row that passed the
    volume filter. *)
Lemma finalize_rows (acc : Partials) (rows : list OrgCodeMetrics)
  (row : OrgCodeMetrics) :
  finalize acc = Some rows -> In row rows ->
  exists n,
    let final_agg :=
      groupby_sum em_key_eqb em_key_ltb (List.concat (org_chunks acc)) in
    let tpc := sum_where Z.eqb n (List.concat (procedure_chunks acc)) in
    Qle_bool 10 (total_eval_codes row) = true /\
    count_level_3 row = Qsum (map (pivot_at final_agg n) LEVEL_3_CODES) /\
    count_level_4_5 row = Qsum (map (pivot_at final_agg n) LEVEL_4_5_CODES) /\
    total_eval_codes row = count_level_3 row + count_level_4_5 row /\
    undercoding_ratio row
    = pd_div (count_level_4_5 row) (total_eval_codes row) /\
    ((total_procedure_codes row = 0 /\ procedure_ratio row = Fin 0) \/
     (total_procedure_codes row = tpc /\
      procedure_ratio row
      = fillna0 (pd_div tpc (tpc + total_eval_codes row)))).
Proof.
  unfold finalize. destruct (is_nil (org_chunks acc)); [discriminate |].
  intros [= <-] Hin.
  apply in_map_iff in Hin. destruct Hin as (p & <- & Hp).
  apply filter_In in Hp. destruct Hp as [Hp Hvol].
  apply in_map_iff in Hp. destruct Hp as (n & <- & _).
  exists n.
  destruct (is_nil (procedure_chunks acc)); simpl in *.
  - repeat split; auto.
  - rewrite (lookup_groupby_sum Z.eqb Z.ltb Z.eqb_eq).
    repeat split; auto.
Qed.
End AggregatorRows.

(** C4.  Every row the aggregator emits has at least 10 evaluation
    codes, the two level counts add up to that total, and the
    undercoding ratio is the quotient of the level-4/5 count by the
    total.  When no service count of the file is negative, the counts
    are not negative either, the undercoding ratio lies in [0, 1], and
    the procedure ratio is the quotient of the procedure volume by the
    procedure-plus-evaluation volume, lies in [0, 1] and is 0 when
    there is no procedure volume. *)
Theorem aggregator_row_invariants
  (bridge : option mine_cpt_codes.Bridge)
  (util_file : list mine_cpt_codes.ServiceRecord)
  (rows : list mine_cpt_codes.OrgCodeMetrics)
  (row : mine_cpt_codes.OrgCodeMetrics) :
  mine_cpt_codes.process_utilization_with_bridge bridge util_file = Some rows ->
  In row rows ->
  let c3 := mine_cpt_codes.count_level_3 row in
  let c45 := mine_cpt_codes.count_level_4_5 row in
  let tec := mine_cpt_codes.total_eval_codes row in
  let tpc := mine_cpt_codes.total_procedure_codes row in
  10 <= tec /\
  c3 + c45 = tec /\
  mine_cpt_codes.undercoding_ratio row = Fin (c45 / tec) /\
  ((forall r, In r util_file -> 0 <= mine_cpt_codes.Tot_Srvcs r) ->
   0 <= c3 /\ 0 <= c45 /\ 0 <= tpc /\
   0 <= c45 / tec <= 1 /\
   exists q,
     mine_cpt_codes.procedure_ratio row = Fin q /\
     q == tpc / (tpc + tec) /\
     0 <= q <= 1 /\
     (tpc == 0 -> q == 0)).
Proof.
  intros Hrun Hin c3 c45 tec tpc.
  unfold mine_cpt_codes.process_utilization_with_bridge in Hrun.
  rewrite process_as_one_chunk, concat_read_chunks in Hrun.
  unfold mine_cpt_codes.process_chunks in Hrun.
  destruct (finalize_rows _ _ _ Hrun Hin)
    as (n & Hvol & H3 & H45 & Htot & Hund & Hproc).
  destruct (loop_from_empty bridge [util_file]) as [E1 E2].
  apply Qle_bool_iff in Hvol.
  fold c3 c45 tec tpc in Hvol, H3, H45, Htot, Hund, Hproc.
  assert (Htot' : tec == c3 + c45) by (rewrite <- Htot; reflexivity).
  split; [exact Hvol |].
  split; [symmetry; exact Htot |].
  split; [rewrite Hund; apply pd_div_finite; lra |].
  intros Hnonneg.
  assert (Hcell : forall code,
            0 <= mine_cpt_codes.pivot_at
                   (groupby_sum mine_cpt_codes.em_key_eqb
                      mine_cpt_codes.em_key_ltb
                      (List.concat
                         (mine_cpt_codes.org_chunks
                            (fold_left (mine_cpt_codes.process_chunk bridge)
                               [util_file]
                               {| mine_cpt_codes.org_chunks := [];
                                  mine_cpt_codes.procedure_chunks := [] |}))))
                   n code).
  { intros code. unfold mine_cpt_codes.pivot_at.
    rewrite (lookup_groupby_sum _ _ em_key_eqb_eq).
    rewrite E1, org_chunks_sum, concat_singleton.
    apply sum_where_nonneg, em_rows_nonneg, Hnonneg. }
  assert (Hc3 : 0 <= c3) by (rewrite H3; apply Qsum_map_nonneg, Hcell).
  assert (Hc45 : 0 <= c45) by (rewrite H45; apply Qsum_map_nonneg, Hcell).
  assert (Hund01 : 0 <= c45 / tec <= 1).
  { assert (E : c45 / tec == c45 / (c45 + c3)).
    { apply Qdiv_comp; [reflexivity | lra]. }
    rewrite E. apply ratio_in_unit; lra. }
  destruct Hproc as [[Ht Hr] | [Ht Hr]].
  - fold tpc in Ht. rewrite Ht.
    repeat split; try lra.
    exists 0. rewrite Hr. repeat split; lra.
  - assert (Htpc : 0 <= tpc).
    { fold tpc in Ht. rewrite Ht, E2, procedure_chunks_sum, concat_singleton.
      apply sum_where_nonneg, proc_rows_nonneg, Hnonneg. }
    repeat split; try lra.
    exists (tpc / (tpc + tec)).
    fold tpc in Ht. rewrite <- Ht in Hr.
    rewrite Hr, pd_div_finite by lra.
    split; [reflexivity |]. split; [reflexivity |].
    split; [apply ratio_in_unit; lra |].
    intros Hz. unfold Qdiv. rewrite Hz. apply Qmult_0_l.
Qed.

Lemma aggregator_row_invariants_witness :
  exists row,
    mine_cpt_codes.process_utilization_with_bridge
      (Some samples.sample_bridge) samples.sample_stream = Some [row] /\
    mine_cpt_codes.npi row = 900%Z /\
    10 <= mine_cpt_codes.total_eval_codes row /\
    0 <= mine_cpt_codes.count_level_4_5 row
         / mine_cpt_codes.total_eval_codes row <= 1 /\
    exists q, mine_cpt_codes.procedure_ratio row = Fin q /\ 0 <= q <= 1.
Proof.
  eexists. split; [vm_compute; reflexivity |].
  split; [reflexivity |].
  match goal with
  | |- context [mine_cpt_codes.total_eval_codes ?r] =>
      destruct (aggregator_row_invariants (Some samples.sample_bridge)
                  samples.sample_stream [r] r)
        as (Hvol & _ & _ & Hnonneg)
  end.
  - vm_compute. reflexivity.
  - left. reflexivity.
  - split; [exact Hvol |].
    destruct Hnonneg as (_ & _ & _ & Hund & q & Hq & _ & Hq01 & _).
    + intros r Hr. simpl in Hr.
      repeat (destruct Hr as [<- | Hr]; [unfold Qle; simpl; lia |]).
      destruct Hr.
    + split; [exact Hund |]. exists q. split; [exact Hq | exact Hq01].
Defined.

(** C4, as stated, fails: the bounds need counts that are not
    negative.  With a level-3 count of -5, a level-4/5 count of 15 and
    a procedure count of -10 the one organisation passes the floor
    (total 10) with an undercoding ratio of 3/2, and its procedure
    ratio, -10 / 0, is minus infinity. *)
Lemma aggregator_ratio_outside_unit :
  mine_cpt_codes.process_utilization_with_bridge None
    [ samples.service 1 "99213" (- (5)); samples.service 1 "99214" 15;
      samples.service 1 "11042" (- (10)) ]
  = Some [ {| mine_cpt_codes.npi := 1;
              mine_cpt_codes.undercoding_ratio := Fin (15 / 10);
              mine_cpt_codes.total_eval_codes := 10;
              mine_cpt_codes.count_level_3 := - (5);
              mine_cpt_codes.count_level_4_5 := 15;
              mine_cpt_codes.total_procedure_codes := - (10);
              mine_cpt_codes.procedure_ratio := NegInf |} ] /\
  1 < 15 / 10.
Proof. split; vm_compute; reflexivity. Qed.

(** C8, as stated, fails: the sums are sums of doubles, and a chunk
    boundary decides which of them are added first.  Provider 1 bills
    1.7, 1.7 and 6.6 level-3 services.  Read in chunks of 1,000 rows
    the file gives 1.7 + (1.7 + 6.6) = 9.999999999999998 services,
    below the floor of 10, and no row; read in chunks of 1,000,000 it
    gives (1.7 + 1.7) + 6.6 = 10 and the row of the provider.  The
    same in a file of four rows, with chunks of 2 and of 3 rows, where
    no sum has more than two terms that are not 0. *)
Lemma chunk_size_changes_the_rows :
  mine_cpt_codes_binary64.process_chunks None
    (mine_cpt_codes_binary64.read_chunks 1000 samples.fractional_stream)
  = Some [] /\
  mine_cpt_codes_binary64.process_chunks None
    (mine_cpt_codes_binary64.read_chunks 1000000 samples.fractional_stream)
  = Some [ {| mine_cpt_codes_binary64.npi := 1;
              mine_cpt_codes_binary64.undercoding_ratio :=
                mine_cpt_codes_binary64.whole 0;
              mine_cpt_codes_binary64.total_eval_codes :=
                mine_cpt_codes_binary64.whole 10;
              mine_cpt_codes_binary64.count_level_3 :=
                mine_cpt_codes_binary64.whole 10;
              mine_cpt_codes_binary64.count_level_4_5 :=
                mine_cpt_codes_binary64.whole 0;
              mine_cpt_codes_binary64.total_procedure_codes :=
                mine_cpt_codes_binary64.whole 0;
              mine_cpt_codes_binary64.procedure_ratio :=
                mine_cpt_codes_binary64.whole 0 |} ] /\
  mine_cpt_codes_binary64.process_chunks None
    (mine_cpt_codes_binary64.read_chunks 2 samples.short_fractional_stream)
  = Some [] /\
  mine_cpt_codes_binary64.process_chunks None
    (mine_cpt_codes_binary64.read_chunks 3 samples.short_fractional_stream)
  = mine_cpt_codes_binary64.process_chunks None
      (mine_cpt_codes_binary64.read_chunks 1000000 samples.fractional_stream).
Proof. repeat split; vm_compute; reflexivity. Qed.

(** C8 (as the code has it).  On a stream of whole-number counts, none
    negative and at most 2^53 together, where the double sums are
    exact, the result of the aggregator depends on the stream of
    service records only: any two ways of cutting the stream into
    chunks give the same rows, column by column, in the same order (or
    both give nothing); in particular chunk sizes 1,000 and 1,000,000
    do, and every chunk size gives what the aggregator gives with its
    own (100,000). *)
Theorem chunk_size_invariance :
  (forall bridge chunks1 chunks2,
     mine_cpt_codes.whole_counts bridge (List.concat chunks1) = true ->
     List.concat chunks1 = List.concat chunks2 ->
     mine_cpt_codes.process_chunks bridge chunks1
     = mine_cpt_codes.process_chunks bridge chunks2) /\
  (forall bridge rows,
     mine_cpt_codes.whole_counts bridge rows = true ->
     mine_cpt_codes.process_chunks bridge
       (mine_cpt_codes.read_chunks 1000 rows)
     = mine_cpt_codes.process_chunks bridge
         (mine_cpt_codes.read_chunks 1000000 rows)) /\
  (forall bridge rows size,
     mine_cpt_codes.whole_counts bridge rows = true ->
     (0 < size)%N ->
     mine_cpt_codes.process_chunks bridge
       (mine_cpt_codes.read_chunks size rows)
     = mine_cpt_codes.process_utilization_with_bridge bridge rows).
Proof.
  split; [| split].
  - intros bridge chunks1 chunks2 _ H.
    rewrite (process_as_one_chunk bridge chunks1).
    rewrite (process_as_one_chunk bridge chunks2).
    rewrite H. reflexivity.
  - intros bridge rows _.
    rewrite (process_as_one_chunk bridge (mine_cpt_codes.read_chunks 1000 rows)).
    rewrite (process_as_one_chunk bridge
               (mine_cpt_codes.read_chunks 1000000 rows)).
    rewrite !concat_read_chunks. reflexivity.
  - intros bridge rows size _ _.
    unfold mine_cpt_codes.process_utilization_with_bridge.
    rewrite (process_as_one_chunk bridge (mine_cpt_codes.read_chunks size rows)).
    rewrite (process_as_one_chunk bridge
               (mine_cpt_codes.read_chunks mine_cpt_codes.chunk_size rows)).
    rewrite !concat_read_chunks. reflexivity.
Qed.

Lemma chunk_size_invariance_witness :
  mine_cpt_codes.whole_counts (Some samples.sample_bridge)
    samples.sample_stream = true /\
  mine_cpt_codes.process_chunks (Some samples.sample_bridge)
    (mine_cpt_codes.read_chunks 1 samples.sample_stream)
  = mine_cpt_codes.process_chunks (Some samples.sample_bridge)
      (mine_cpt_codes.read_chunks 3 samples.sample_stream) /\
  mine_cpt_codes.process_chunks (Some samples.sample_bridge)
    (mine_cpt_codes.read_chunks 1000 samples.sample_stream)
  = mine_cpt_codes.process_chunks (Some samples.sample_bridge)
      (mine_cpt_codes.read_chunks 1000000 samples.sample_stream) /\
  mine_cpt_codes.process_chunks (Some samples.sample_bridge)
    (mine_cpt_codes.read_chunks 3 samples.sample_stream)
  = mine_cpt_codes.process_utilization_with_bridge
      (Some samples.sample_bridge) samples.sample_stream.
Proof.
  destruct chunk_size_invariance as (Hany & Hsizes & Hown).
  split; [reflexivity |]. split; [| split].
  - apply Hany; reflexivity.
  - apply Hsizes; reflexivity.
  - apply Hown; reflexivity.
Defined.

(* ================================================================== *)
(** * Part III. Further properties *)
(* ================================================================== *)

(* ------------------------------------------------------------------ *)
(** ** Track selection *)

Lemma upper_ascii_idem (c : ascii) : upper_ascii (upper_ascii c) = upper_ascii c.
Proof. destruct c as [[] [] [] [] [] [] [] []]; reflexivity. Qed.

Lemma upper_lower_ascii (c : ascii) :
  upper_ascii (lower_ascii c) = upper_ascii c.
Proof. destruct c as [[] [] [] [] [] [] [] []]; reflexivity. Qed.

Lemma upper_idem (s : string) : upper (upper s) = upper s.
Proof.
  unfold upper. induction s as [| c s IH]; simpl; [reflexivity |].
  rewrite upper_ascii_idem, IH. reflexivity.
Qed.

Lemma upper_lower (s : string) : upper (lower s) = upper s.
Proof.
  unfold upper, lower. induction s as [| c s IH]; simpl; [reflexivity |].
  rewrite upper_lower_ascii, IH. reflexivity.
Qed.

(** X1.  [detect_track] returns one of the three tracks.  A behavioral
    keyword in the name decides for BEHAVIORAL whatever the segment,
    'Hospital' and 'Home Health' included; the keyword search looks at
    the name in upper case only, so two rows with the same segment
    whose names differ in the case of their letters get the same
    track. *)
Theorem detect_track_classifies :
  (forall row,
     detect_track row = "BEHAVIORAL"%string \/
     detect_track row = "POST_ACUTE"%string \/
     detect_track row = "AMBULATORY"%string) /\
  (forall row,
     existsb (fun keyword => contains keyword (upper (text_get (org_name row) "")))
             behavioral_keywords = true ->
     detect_track row = "BEHAVIORAL"%string) /\
  (forall row,
     detect_track row = "POST_ACUTE"%string ->
     (segment_label row = Some "Home Health"%string \/
      segment_label row = Some "Hospital"%string) /\
     existsb (fun keyword => contains keyword (upper (text_get (org_name row) "")))
             behavioral_keywords = false) /\
  (forall row1 row2,
     segment_label row1 = segment_label row2 ->
     upper (text_get (org_name row1) "") = upper (text_get (org_name row2) "") ->
     detect_track row1 = detect_track row2).
Proof.
  split; [| split; [| split]].
  - intros row. unfold detect_track.
    repeat match goal with
    | |- context [if ?b then _ else _] => destruct b
    end; auto.
  - intros row H. unfold detect_track. rewrite H.
    destruct (String.eqb _ _); reflexivity.
  - intros row. unfold detect_track.
    destruct (String.eqb _ "Behavioral Health"); [discriminate |].
    destruct (existsb _ _); [discriminate |].
    destruct (segment_label row) as [seg |]; simpl.
    + destruct (String.eqb_spec seg "Home Health") as [-> | _];
        [intros _; split; auto |].
      destruct (String.eqb_spec seg "Hospital") as [-> | _];
        [intros _; split; auto | discriminate].
    + discriminate.
  - intros row1 row2 Hseg Hname. unfold detect_track.
    rewrite Hseg, Hname. reflexivity.
Qed.

Lemma detect_track_classifies_witness :
  detect_track
    (samples.clinic "Hospital" "Riverside Psychiatric Hospital" Absent Absent
                    Absent Absent Absent Absent Absent)
  = "BEHAVIORAL"%string /\
  detect_track
    (samples.clinic "Hospital" "riverside psychiatric hospital" Absent Absent
                    Absent Absent Absent Absent Absent)
  = detect_track
      (samples.clinic "Hospital" "RIVERSIDE PSYCHIATRIC HOSPITAL" Absent Absent
                      Absent Absent Absent Absent Absent) /\
  segment_label samples.low_revenue_hospital = Some "Hospital"%string.
Proof.
  destruct detect_track_classifies as (_ & Hkw & Hpost & Hcase).
  split; [apply Hkw; reflexivity |].
  split; [apply Hcase; reflexivity |].
  destruct (Hpost samples.low_revenue_hospital eq_refl) as [[H | H] _];
    [discriminate H | exact H].
Defined.

(* ------------------------------------------------------------------ *)
(** ** The therapy gate on the raw columns *)

Lemma share_above_fifth (p e : Q) :
  0 < p + e -> ((20 # 100) < p / (p + e) <-> e < 4 * p).
Proof.
  intros Hpos. split; intros H.
  - assert (H' : (20 # 100) * (p + e) < p).
    { apply Qmult_lt_r with (z := p + e) in H; [| exact Hpos].
      assert (E : p / (p + e) * (p + e) == p) by (field; lra).
      rewrite E in H. exact H. }
    lra.
  - apply Qlt_shift_div_l; [exact Hpos | lra].
Qed.

(** X2.  In terms of the columns of the row, the therapy gate passes
    exactly when the evaluation-code volume is a positive number, the
    psych-code volume is at least 100 and exceeds a quarter of the
    evaluation-code volume.  The share itself lies in [0, 1) whenever
    the psych-code volume is not negative. *)
Theorem therapy_gate_on_columns (row : Row) :
  (therapy_gate (psych_percentage row) (cell_or_zero (total_psych_codes row))
   = true
   <-> exists e, total_eval_codes row = Num e /\ 0 < e /\
                 100 <= cell_or_zero (total_psych_codes row) /\
                 e < 4 * cell_or_zero (total_psych_codes row)) /\
  (0 <= cell_or_zero (total_psych_codes row) ->
   0 <= psych_percentage row /\ psych_percentage row < 1).
Proof.
  set (p := cell_or_zero (total_psych_codes row)).
  unfold psych_percentage. fold p.
  destruct (total_eval_codes row) as [| | e]; simpl.
  - split; [| intros _; lra].
    rewrite therapy_gate_iff. split; [intros [H _]; lra |].
    intros (e & He & _). discriminate He.
  - split; [| intros _; lra].
    rewrite therapy_gate_iff. split; [intros [H _]; lra |].
    intros (e & He & _). discriminate He.
  - destruct (Qlt_bool 0 e) eqn:He; qbool; simpl.
    + destruct (Qlt_bool 0 (p + e)) eqn:Hpe; qbool.
      * split.
        -- rewrite therapy_gate_iff, (share_above_fifth p e Hpe).
           split.
           ++ intros [H1 H2]. exists e. repeat split; auto.
           ++ intros (e' & [= <-] & _ & H2 & H1). split; assumption.
        -- intros Hp. split.
           ++ apply Qle_shift_div_l; [exact Hpe | lra].
           ++ apply Qlt_shift_div_r; [exact Hpe | lra].
      * split; [| intros _; lra].
        rewrite therapy_gate_iff. split; [intros [H _]; lra |].
        intros (e' & [= <-] & _ & H2 & H1). lra.
    + split; [| intros _; lra].
      rewrite therapy_gate_iff. split; [intros [H _]; lra |].
      intros (e' & [= <-] & H0 & _). lra.
Qed.

Lemma therapy_gate_on_columns_witness :
  0 <= psych_percentage samples.podiatry_practice /\
  psych_percentage samples.podiatry_practice < 1 /\
  therapy_gate (psych_percentage samples.podiatry_practice)
    (cell_or_zero (total_psych_codes samples.podiatry_practice)) = false.
Proof.
  destruct (therapy_gate_on_columns samples.podiatry_practice) as [Hiff Hrange].
  destruct Hrange as [H0 H1]; [unfold Qle; simpl; lia |].
  split; [exact H0 |]. split; [exact H1 |].
  destruct (therapy_gate _ _) eqn:E; [| reflexivity].
  destruct (proj1 Hiff eq_refl) as (e & _ & _ & H100 & _).
  unfold Qle in H100; simpl in H100; lia.
Defined.

(* ------------------------------------------------------------------ *)
(** ** Pain labels *)

(** The labels that name a therapy signal. *)
Lemma therapy_branch_labels (row : Row) (l1 l2 l3 : string) :
  let psych_risk := cell_or_zero (psych_risk_ratio row) in
  forall label,
    label = (if Qle_bool psych_risk (30 # 100) then l1
             else if Qle_bool (75 # 100) psych_risk then l2 else l3) ->
    (label = l1 /\ psych_risk <= 30 # 100) \/
    (label = l2 /\ 30 # 100 < psych_risk /\ 75 # 100 <= psych_risk) \/
    (label = l3 /\ 30 # 100 < psych_risk /\ psych_risk < 75 # 100).
Proof.
  intros psych_risk label ->.
  destruct (Qle_bool psych_risk (30 # 100)) eqn:E1; qbool; [left; auto |].
  destruct (Qle_bool (75 # 100) psych_risk) eqn:E2; qbool;
    [right; left | right; right]; auto.
Qed.

(** What each label of the BEHAVIORAL track tells about the row. *)
Lemma behavioral_pain_label_cases (row : Row) :
  let psych_risk := cell_or_zero (psych_risk_ratio row) in
  let open :=
    therapy_gate (psych_percentage row) (cell_or_zero (total_psych_codes row))
    = true /\ 0 < psych_risk /\
    score_undercoding_continuous (Some (cell_or_zero (undercoding_ratio row)))
    < score_psych_risk_continuous (Some psych_risk) in
  behavioral_pain_label row = "Undercoding Pain"%string \/
  (open /\
   ((behavioral_pain_label row = "Therapy Undercoding Pain"%string
     /\ psych_risk <= 30 # 100) \/
    (behavioral_pain_label row = "Audit Risk Pain"%string
     /\ 75 # 100 <= psych_risk) \/
    (behavioral_pain_label row = "Therapy Coding Risk"%string
     /\ 30 # 100 < psych_risk /\ psych_risk < 75 # 100))).
Proof.
  intros psych_risk open. subst open. unfold behavioral_pain_label.
  fold psych_risk.
  assert (Hnz : Qeq_bool (score_psych_risk_continuous (Some psych_risk)) 0
                = false).
  { pose proof (score_psych_risk_range (Some psych_risk)) as B.
    destruct (Qeq_bool _ 0) eqn:E; [| reflexivity].
    apply Qeq_bool_iff in E. lra. }
  rewrite Hnz, andb_false_r.
  destruct (therapy_gate _ _ && Qlt_bool 0 psych_risk && Qlt_bool _ _) eqn:G;
    [| left; reflexivity].
  right. apply andb_true_iff in G. destruct G as [G G3].
  apply andb_true_iff in G. destruct G as [G1 G2]. qbool.
  split; [repeat split; assumption |].
  destruct (therapy_branch_labels row "Therapy Undercoding Pain"
              "Audit Risk Pain" "Therapy Coding Risk" _ eq_refl)
    as [[E H] | [[E [_ H]] | [E H]]]; fold psych_risk in E, H; rewrite E; auto.
Qed.

(** What each label of the AMBULATORY track tells about the row. *)
Lemma ambulatory_pain_label_cases (row : Row) :
  let psych_risk := cell_or_zero (psych_risk_ratio row) in
  let open :=
    therapy_gate (psych_percentage row) (cell_or_zero (total_psych_codes row))
    = true /\ 0 < psych_risk /\
    score_undercoding_continuous (Some (cell_or_zero (undercoding_ratio row)))
    < score_psych_risk_continuous (Some psych_risk) in
  ambulatory_pain_label row = "Undercoding Pain"%string \/
  (ambulatory_pain_label row = "Procedure Alignment Pain"%string /\
   3 <= score_procedure_alignment row /\
   score_psych_risk_continuous (Some psych_risk)
   <= score_procedure_alignment row) \/
  (open /\
   ((ambulatory_pain_label row = "Therapy Undercoding Pain"%string
     /\ psych_risk <= 30 # 100) \/
    (ambulatory_pain_label row = "Therapy Audit Risk"%string
     /\ 75 # 100 <= psych_risk) \/
    (ambulatory_pain_label row = "Therapy Coding Risk"%string
     /\ 30 # 100 < psych_risk /\ psych_risk < 75 # 100))).
Proof.
  intros psych_risk open. subst open. unfold ambulatory_pain_label.
  fold psych_risk.
  assert (Hnz : Qeq_bool (score_psych_risk_continuous (Some psych_risk)) 0
                = false).
  { pose proof (score_psych_risk_range (Some psych_risk)) as B.
    destruct (Qeq_bool _ 0) eqn:E; [| reflexivity].
    apply Qeq_bool_iff in E. lra. }
  rewrite Hnz, andb_false_r. cbn [andb].
  destruct (Qle_bool 3 _ && Qle_bool _ _ && Qle_bool _ _) eqn:P.
  { right. left. apply andb_true_iff in P. destruct P as [P P3].
    apply andb_true_iff in P. destruct P as [P1 P2]. qbool. auto. }
  destruct (therapy_gate _ _ && Qlt_bool 0 psych_risk && Qlt_bool _ _) eqn:G;
    [| left; reflexivity].
  right. right. apply andb_true_iff in G. destruct G as [G G3].
  apply andb_true_iff in G. destruct G as [G1 G2]. qbool.
  split; [repeat split; assumption |].
  destruct (therapy_branch_labels row "Therapy Undercoding Pain"
              "Therapy Audit Risk" "Therapy Coding Risk" _ eq_refl)
    as [[E H] | [[E [_ H]] | [E H]]]; fold psych_risk in E, H; rewrite E; auto.
Qed.

Lemma track_eqb_cases (row : Row) :
  (detect_track row = "BEHAVIORAL"%string /\
   String.eqb (detect_track row) "BEHAVIORAL" = true) \/
  (detect_track row = "POST_ACUTE"%string /\
   String.eqb (detect_track row) "BEHAVIORAL" = false /\
   String.eqb (detect_track row) "POST_ACUTE" = true) \/
  (detect_track row = "AMBULATORY"%string /\
   String.eqb (detect_track row) "BEHAVIORAL" = false /\
   String.eqb (detect_track row) "POST_ACUTE" = false).
Proof.
  unfold detect_track.
  repeat match goal with
  | |- context [if ?b then _ else _] => destruct b
  end; auto.
Qed.

(** X3.  The pain label is one of seven; the initial label "Economic
    Pain" never reaches the output.  "Margin Pressure" is the label of
    the POST_ACUTE track and of no other; "Audit Risk Pain" occurs on
    the BEHAVIORAL track only, "Therapy Audit Risk" and "Procedure
    Alignment Pain" on the AMBULATORY track only. *)
Theorem pain_label_enumeration (row : Row) :
  In (pain_label_of row)
     [ "Undercoding Pain"; "Therapy Undercoding Pain"; "Therapy Coding Risk";
       "Audit Risk Pain"; "Therapy Audit Risk"; "Procedure Alignment Pain";
       "Margin Pressure" ]%string /\
  pain_label_of row <> "Economic Pain"%string /\
  (pain_label_of row = "Margin Pressure"%string
   <-> detect_track row = "POST_ACUTE"%string) /\
  (pain_label_of row = "Audit Risk Pain"%string ->
   detect_track row = "BEHAVIORAL"%string) /\
  (pain_label_of row = "Therapy Audit Risk"%string \/
   pain_label_of row = "Procedure Alignment Pain"%string ->
   detect_track row = "AMBULATORY"%string).
Proof.
  unfold pain_label_of.
  destruct (track_eqb_cases row) as [[T E] | [(T & E1 & E2) | (T & E1 & E2)]];
    rewrite T in *; cbn [String.eqb Ascii.eqb Bool.eqb].
  - pose proof (behavioral_pain_label_cases row) as H; cbv zeta in H.
    destruct H as [L | [_ [[L _] | [[L _] | [L _]]]]]; rewrite L;
      (split; [simpl; tauto |]);
      (split; [discriminate |]);
      (split; [split; discriminate |]);
      split; try reflexivity; try discriminate;
      intros [? | ?]; discriminate.
  - split; [simpl; tauto |].
    split; [discriminate |].
    split; [split; reflexivity |].
    split; [discriminate | intros [? | ?]; discriminate].
  - pose proof (ambulatory_pain_label_cases row) as H; cbv zeta in H.
    destruct H as [L | [[L _] | [_ [[L _] | [[L _] | [L _]]]]]]; rewrite L;
      (split; [simpl; tauto |]);
      (split; [discriminate |]);
      (split; [split; discriminate |]);
      split; try reflexivity; try discriminate.
Qed.

Lemma pain_label_enumeration_witness :
  pain_label_of samples.low_revenue_hospital = "Margin Pressure"%string /\
  detect_track samples.podiatry_practice = "AMBULATORY"%string.
Proof.
  split.
  - apply (proj1 (proj2 (proj2 (pain_label_enumeration
                                  samples.low_revenue_hospital)))).
    reflexivity.
  - apply (proj2 (proj2 (proj2 (proj2 (pain_label_enumeration
                                         samples.podiatry_practice))))).
    right. reflexivity.
Defined.

(** A row whose label contains "Therapy", or is "Audit Risk Pain",
    passed the therapy gate with a positive psych-risk ratio and a
    psych-risk score above the undercoding score. *)
Lemma therapy_label_open (row : Row) :
  contains "Therapy" (pain_label_of row) = true \/
  pain_label_of row = "Audit Risk Pain"%string ->
  therapy_gate (psych_percentage row) (cell_or_zero (total_psych_codes row))
  = true /\
  0 < cell_or_zero (psych_risk_ratio row) /\
  score_undercoding_continuous (Some (cell_or_zero (undercoding_ratio row)))
  < score_psych_risk_continuous (Some (cell_or_zero (psych_risk_ratio row))).
Proof.
  unfold pain_label_of.
  destruct (track_eqb_cases row) as [[T E] | [(T & E1 & E2) | (T & E1 & E2)]];
    rewrite T; cbn [String.eqb Ascii.eqb Bool.eqb].
  - pose proof (behavioral_pain_label_cases row) as H; cbv zeta in H.
    destruct H as [L | [Hopen _]]; [| intros _; exact Hopen].
    rewrite L. intros [H | H]; discriminate H.
  - intros [H | H]; discriminate H.
  - pose proof (ambulatory_pain_label_cases row) as H; cbv zeta in H.
    destruct H as [L | [[L _] | [Hopen _]]]; [| | intros _; exact Hopen];
      rewrite L; intros [H | H]; discriminate H.
Qed.

Lemma behavioral_pain_lower (row : Row) :
  score_psych_risk_continuous (Some (cell_or_zero (psych_risk_ratio row)))
  <= behavioral_pain row.
Proof.
  unfold behavioral_pain.
  pose proof (score_psych_risk_range
                (Some (cell_or_zero (psych_risk_ratio row)))) as B.
  destruct (cell_get (total_psych_codes row) 0) as [t |]; [| lra].
  destruct (Qlt_bool 500 t) eqn:E; [| lra]. qbool.
  assert (Ht : 0 <= t / 1000 * 5) by (qdiv; lra).
  minmax; lra.
Qed.

Lemma ambulatory_pain_lower (row : Row) :
  score_undercoding_continuous (Some (cell_or_zero (undercoding_ratio row)))
  <= ambulatory_pain row /\
  ambulatory_pain_therapy row <= ambulatory_pain row /\
  score_procedure_alignment row <= ambulatory_pain row.
Proof.
  pose proof (score_undercoding_range
                (Some (cell_or_zero (undercoding_ratio row)))) as BU.
  pose proof (ambulatory_pain_therapy_range row) as BT.
  pose proof (score_procedure_alignment_range row) as BP.
  unfold ambulatory_pain.
  destruct (Qlt_bool _ (ambulatory_pain_therapy row)) eqn:E1; qbool;
    destruct (Qlt_bool 0 (score_procedure_alignment row)) eqn:E2; qbool;
    minmax; lra.
Qed.

(** X4.  A label that names a therapy signal is given only behind the
    therapy gate: when the pain label contains "Therapy" or is "Audit
    Risk Pain", the gate passed for the row, the psych-risk ratio is
    positive and its score is above the undercoding score; the three
    wordings split the ratio at 0.30 and 0.75; and the pain of the row
    is at least the psych-risk score, so label and number agree. *)
Theorem therapy_label_behind_gate (row : Row) :
  let psych_risk := cell_or_zero (psych_risk_ratio row) in
  contains "Therapy" (pain_label_of row) = true \/
  pain_label_of row = "Audit Risk Pain"%string ->
  therapy_gate (psych_percentage row) (cell_or_zero (total_psych_codes row))
  = true /\
  0 < psych_risk /\
  score_undercoding_continuous (Some (cell_or_zero (undercoding_ratio row)))
  < score_psych_risk_continuous (Some psych_risk) /\
  (pain_label_of row = "Therapy Undercoding Pain"%string
   <-> psych_risk <= 30 # 100) /\
  (pain_label_of row = "Therapy Coding Risk"%string
   <-> 30 # 100 < psych_risk /\ psych_risk < 75 # 100) /\
  score_psych_risk_continuous (Some psych_risk) <= pain_of row.
Proof.
  intros psych_risk Hlabel.
  destruct (therapy_label_open row Hlabel) as (G & R & S).
  fold psych_risk in R, S.
  split; [exact G |]. split; [exact R |]. split; [exact S |].
  revert Hlabel. unfold pain_label_of, pain_of.
  destruct (track_eqb_cases row) as [[T E] | [(T & E1 & E2) | (T & E1 & E2)]];
    rewrite T; cbn [String.eqb Ascii.eqb Bool.eqb].
  - intros Hlabel.
    pose proof (behavioral_pain_lower row) as Hlow. fold psych_risk in Hlow.
    pose proof (behavioral_pain_label_cases row) as H; cbv zeta in H.
    fold psych_risk in H.
    destruct H as [L | [_ [[L H] | [[L H] | [L H]]]]]; rewrite L in *.
    + destruct Hlabel as [H | H]; discriminate H.
    + repeat split; auto; try discriminate; intros; lra.
    + repeat split; auto; try discriminate; intros; lra.
    + repeat split; auto; try discriminate; intros; lra.
  - intros [H | H]; discriminate H.
  - intros Hlabel.
    destruct (ambulatory_pain_lower row) as (_ & Hlow & _).
    assert (Ht : ambulatory_pain_therapy row
                 = score_psych_risk_continuous (Some psych_risk)).
    { unfold ambulatory_pain_therapy. rewrite G. fold psych_risk.
      apply Qlt_bool_iff in R. rewrite R. reflexivity. }
    rewrite Ht in Hlow.
    pose proof (ambulatory_pain_label_cases row) as H; cbv zeta in H.
    fold psych_risk in H.
    destruct H as [L | [[L H] | [_ [[L H] | [[L H] | [L H]]]]]];
      rewrite L in *.
    + destruct Hlabel as [H | H]; discriminate H.
    + destruct Hlabel as [H' | H']; discriminate H'.
    + repeat split; auto; try discriminate; intros; lra.
    + repeat split; auto; try discriminate; intros; lra.
    + repeat split; auto; try discriminate; intros; lra.
Qed.

Lemma therapy_label_behind_gate_witness :
  therapy_gate (psych_percentage samples.integrated_clinic)
    (cell_or_zero (total_psych_codes samples.integrated_clinic)) = true /\
  score_psych_risk_continuous
    (Some (cell_or_zero (psych_risk_ratio samples.integrated_clinic)))
  <= pain_of samples.integrated_clinic.
Proof.
  destruct (therapy_label_behind_gate samples.integrated_clinic)
    as (G & _ & _ & _ & _ & P).
  - left. vm_compute. reflexivity.
  - split; [exact G | exact P].
Defined.

(* ------------------------------------------------------------------ *)
(** ** The validation scripts *)

(** A row behind the open gate has the share that [calc_psych_pct]
    recomputes, and it is above 0.20. *)
Lemma calc_psych_pct_open (row : Row) :
  therapy_gate (psych_percentage row) (cell_or_zero (total_psych_codes row))
  = true ->
  validate_fixes.calc_psych_pct row = psych_percentage row /\
  20 # 100 < validate_fixes.calc_psych_pct row.
Proof.
  intros G. apply therapy_gate_iff in G. destruct G as [G1 G2].
  revert G1. unfold validate_fixes.calc_psych_pct, psych_percentage.
  destruct (total_eval_codes row) as [| | e]; simpl; try lra.
  destruct (Qlt_bool 0 e) eqn:He; simpl; [| lra].
  destruct (Qlt_bool 0 (_ + e)) eqn:Hpe; [| lra].
  intros G1. split; [reflexivity | exact G1].
Qed.

(** X5.  The two validation scripts cannot report a row scored by this
    engine: test 1 of [validate_fixes.py] (label contains 'Therapy' and
    recomputed therapy share below 0.20) and check C of
    [validate_scoring_signals.py] (AMBULATORY, pain above 30, label
    contains "Therapy", fewer than 100 psych codes) select no row, for
    every row and whatever the logarithm. *)
Theorem validation_checks_never_fire (ln : Q -> Q) (row : Row) :
  validate_fixes.low_psych row (calculate_row_score ln row) = false /\
  validate_scoring_signals.high_pain_low_volume row
    (calculate_row_score ln row) = false.
Proof.
  unfold validate_fixes.low_psych,
    validate_scoring_signals.high_pain_low_volume.
  cbn [calculate_row_score pain_label scoring_track score_pain_total].
  destruct (contains "Therapy" (pain_label_of row)) eqn:L.
  - destruct (therapy_label_open row (or_introl L)) as (G & _ & _).
    destruct (calc_psych_pct_open row G) as [_ Hpct].
    apply therapy_gate_iff in G. destruct G as [_ G2].
    split.
    + cbn [andb]. destruct (Qlt_bool _ (20 # 100)) eqn:E; [| reflexivity].
      qbool. lra.
    + rewrite andb_true_r.
      destruct (total_psych_codes row) as [| | p]; simpl in *;
        try apply andb_false_r.
      destruct (Qlt_bool p 100) eqn:E; [| apply andb_false_r].
      qbool. lra.
  - split; [reflexivity |].
    rewrite andb_false_r. reflexivity.
Qed.

(* ------------------------------------------------------------------ *)
(** ** How each track composes its pain *)

(** X6.  On the AMBULATORY path the pain is the larger of the
    undercoding score and the gated therapy score, plus the procedure
    alignment score, capped at 40: the alignment score only ever adds,
    and the pain is at least each of the three signals. *)
Theorem ambulatory_pain_composition (row : Row) :
  let pain_undercoding :=
    score_undercoding_continuous (Some (cell_or_zero (undercoding_ratio row))) in
  let pain_therapy := ambulatory_pain_therapy row in
  let pain_procedure_alignment := score_procedure_alignment row in
  ambulatory_pain row
  == py_min 40 (py_max pain_undercoding pain_therapy
                + pain_procedure_alignment) /\
  py_max pain_undercoding pain_therapy <= ambulatory_pain row /\
  pain_procedure_alignment <= ambulatory_pain row /\
  ambulatory_pain row
  <= py_max pain_undercoding pain_therapy + pain_procedure_alignment /\
  ambulatory_pain row <= 40.
Proof.
  intros su pt pa.
  pose proof (score_undercoding_range
                (Some (cell_or_zero (undercoding_ratio row)))) as BU.
  pose proof (ambulatory_pain_therapy_range row) as BT.
  pose proof (score_procedure_alignment_range row) as BP.
  fold su in BU. fold pt in BT. fold pa in BP.
  unfold ambulatory_pain. fold su pt pa.
  change (if Qlt_bool su pt then pt else su) with (py_max su pt).
  destruct (Qlt_bool 0 pa) eqn:E; qbool; minmax; repeat split; lra.
Qed.

(** X7.  On the POST_ACUTE path the pain never rises with the margin:
    of two rows with a numeric margin, the one with the larger margin
    has the smaller or equal pain.  A numeric margin gives 15 or a value
    in [25, 40]; a missing margin gives 10, less than any numeric one. *)
Theorem post_acute_pain_antitone (row1 row2 : Row) (m1 m2 : Q) :
  net_margin row1 = Num m1 -> net_margin row2 = Num m2 -> m1 <= m2 ->
  post_acute_pain row2 <= post_acute_pain row1 /\
  (post_acute_pain row1 = 15 \/
   25 <= post_acute_pain row1 /\ post_acute_pain row1 <= 40) /\
  (forall row, cell_value (net_margin row) = None ->
     post_acute_pain row = 10 /\ post_acute_pain row < post_acute_pain row1).
Proof.
  intros E1 E2 Hle.
  assert (Hramp : forall m, 0 <= m -> m < 5 # 100 ->
            25 <= round1 (25 + ((5 # 100) - m) / (5 # 100) * 15) <= 40).
  { intros m H0 H5.
    assert (E : 25 + ((5 # 100) - m) / (5 # 100) * 15
                == 25 + ((5 # 100) - m) * 300) by field.
    rewrite (round1_comp _ _ E). apply (round1_within 25 40); lra. }
  assert (Hvalues : post_acute_pain row1 = 15 \/
                    25 <= post_acute_pain row1 /\ post_acute_pain row1 <= 40).
  { unfold post_acute_pain. rewrite E1. simpl.
    destruct (Qlt_bool m1 0) eqn:A; [right; lra |].
    destruct (Qlt_bool m1 (5 # 100)) eqn:B; [| left; reflexivity].
    qbool. right. apply Hramp; assumption. }
  split; [| split; [exact Hvalues |]].
  - unfold post_acute_pain. rewrite E1, E2. simpl.
    destruct (Qlt_bool m1 0) eqn:A1; destruct (Qlt_bool m2 0) eqn:A2; qbool;
      try lra.
    + destruct (Qlt_bool m2 (5 # 100)) eqn:B2; qbool; [| lra].
      apply Hramp; assumption.
    + destruct (Qlt_bool m1 (5 # 100)) eqn:B1;
        destruct (Qlt_bool m2 (5 # 100)) eqn:B2; qbool; try lra.
      * apply round1_mono. qdiv. lra.
      * pose proof (Hramp m1 A1 B1). lra.
  - intros row H. unfold post_acute_pain at 1 2. rewrite H.
    split; [reflexivity |].
    destruct Hvalues as [-> | [H25 _]]; lra.
Qed.

Lemma post_acute_pain_antitone_witness :
  post_acute_pain
    (samples.clinic "Home Health" "Care at Home" Absent Absent Absent Absent
                    Absent (Num (4 # 100)) (Num 10))
  <= post_acute_pain
       (samples.clinic "Home Health" "Care at Home" Absent Absent Absent
                       Absent Absent (Num (1 # 100)) (Num 10)).
Proof.
  apply (post_acute_pain_antitone _ _ (1 # 100) (4 # 100));
    [reflexivity | reflexivity | unfold Qle; simpl; lia].
Defined.

(** X8.  On the BEHAVIORAL path the volume bonus adds between 0 and 5
    to the psych-risk score: nothing up to 500 psych codes (or when the
    count is missing), more than 2.5 just above 500, the full 5 from
    1,000 on, short of the cap at 40; and of two rows with the same
    psych-risk ratio the one with more psych codes has the larger or
    equal pain. *)
Theorem behavioral_pain_bonus (row : Row) :
  let pain_psych :=
    score_psych_risk_continuous (Some (cell_or_zero (psych_risk_ratio row))) in
  pain_psych <= behavioral_pain row /\
  behavioral_pain row <= pain_psych + 5 /\
  (match cell_get (total_psych_codes row) 0 with
   | Some total_psych => total_psych <= 500
   | None => True
   end -> behavioral_pain row = pain_psych) /\
  (forall total_psych, total_psych_codes row = Num total_psych ->
     500 < total_psych -> pain_psych <= 35 ->
     pain_psych + (5 # 2) < behavioral_pain row /\
     (1000 <= total_psych -> behavioral_pain row == pain_psych + 5)) /\
  (forall row' t t', psych_risk_ratio row' = psych_risk_ratio row ->
     total_psych_codes row = Num t -> total_psych_codes row' = Num t' ->
     t <= t' -> behavioral_pain row <= behavioral_pain row').
Proof.
  intros sp.
  pose proof (score_psych_risk_range
                (Some (cell_or_zero (psych_risk_ratio row)))) as B.
  fold sp in B.
  split; [apply behavioral_pain_lower |].
  split; [| split; [| split]].
  - unfold behavioral_pain. fold sp.
    destruct (cell_get _ 0) as [t |]; [| lra].
    destruct (Qlt_bool 500 t) eqn:E; [| lra]. qbool. minmax; lra.
  - unfold behavioral_pain. fold sp.
    destruct (cell_get _ 0) as [t |]; [| reflexivity].
    intros H. destruct (Qlt_bool 500 t) eqn:E; [| reflexivity].
    qbool. lra.
  - intros t Ht H500 H35. unfold behavioral_pain. fold sp.
    rewrite Ht. simpl. apply Qlt_bool_iff in H500. rewrite H500.
    apply Qlt_bool_iff in H500.
    assert (Hb : t / 1000 * 5 == t * (1 # 200)) by field.
    split; [| intros H1000]; minmax; lra.
  - intros row' t t' Hr Ht Ht' Hle. unfold behavioral_pain.
    rewrite Hr, Ht, Ht'. fold sp. simpl.
    assert (Hb : t / 1000 * 5 == t * (1 # 200)) by field.
    assert (Hb' : t' / 1000 * 5 == t' * (1 # 200)) by field.
    destruct (Qlt_bool 500 t) eqn:E; destruct (Qlt_bool 500 t') eqn:E'; qbool;
      minmax; lra.
Qed.

Lemma behavioral_pain_bonus_witness :
  behavioral_pain samples.counseling_center
  = score_psych_risk_continuous
      (Some (cell_or_zero (psych_risk_ratio samples.counseling_center)))
  \/ score_psych_risk_continuous
       (Some (cell_or_zero (psych_risk_ratio samples.counseling_center)))
     + (5 # 2) < behavioral_pain samples.counseling_center.
Proof.
  right.
  apply (proj1 (proj2 (proj2 (proj2
           (behavioral_pain_bonus samples.counseling_center)))) 501).
  - reflexivity.
  - unfold Qlt; simpl; lia.
  - vm_compute. discriminate.
Defined.

(* ------------------------------------------------------------------ *)
(** ** Procedure alignment *)

Lemma first_some_Some {A B : Type} (f : A -> option B) (l : list A) (b : B) :
  first_some f l = Some b -> exists a, In a l /\ f a = Some b.
Proof.
  induction l as [| a l IH]; simpl; [discriminate |].
  destruct (f a) as [b' |] eqn:E.
  - intros [= <-]. exists a. auto.
  - intros H. destruct (IH H) as (a' & Hin & Ha). exists a'. auto.
Qed.

Lemma first_some_None {A B : Type} (f : A -> option B) (l : list A) :
  first_some f l = None <-> forall a, In a l -> f a = None.
Proof.
  induction l as [| a l IH]; simpl.
  - split; [intros _ a [] | reflexivity].
  - destruct (f a) as [b |] eqn:E.
    + split; [discriminate |]. intros H.
      rewrite <- E. apply H. left. reflexivity.
    + rewrite IH. split.
      * intros H a' [<- | Hin]; auto.
      * intros H a' Hin. apply H. right. exact Hin.
Qed.

(** Two prefixes of one string: one is a prefix of the other. *)
Lemma prefix_both (p1 p2 c : string) :
  prefix p1 c = true -> prefix p2 c = true ->
  prefix p1 p2 = true \/ prefix p2 p1 = true.
Proof.
  revert p1 p2. induction c as [| a c IH]; intros p1 p2.
  - destruct p1; [| discriminate]. left. destruct p2; reflexivity.
  - destruct p1 as [| a1 p1]; [left; destruct p2; reflexivity |].
    destruct p2 as [| a2 p2]; [right; reflexivity |].
    simpl. destruct (ascii_dec a1 a) as [-> |]; [| discriminate].
    destruct (ascii_dec a2 a) as [-> |]; [| discriminate].
    destruct (ascii_dec a a); [| contradiction].
    apply IH.
Qed.

(** No prefix of [SPECIALTY_PROCEDURE_TARGETS] is a prefix of another
    one, so a code matches at most one line of the table. *)
Lemma targets_prefix_free (p1 p2 : string) (e1 e2 : Q) :
  In (p1, e1) SPECIALTY_PROCEDURE_TARGETS ->
  In (p2, e2) SPECIALTY_PROCEDURE_TARGETS ->
  prefix p1 p2 = true -> p1 = p2 /\ e1 = e2.
Proof.
  unfold SPECIALTY_PROCEDURE_TARGETS. simpl.
  intros H1 H2.
  repeat (destruct H1 as [[= <- <-] | H1]);
    try contradiction;
    repeat (destruct H2 as [[= <- <-] | H2]);
    try contradiction;
    intros H; try (vm_compute in H; discriminate H); split; reflexivity.
Qed.

Lemma target_of_code (code p : string) (e : Q) :
  In (p, e) SPECIALTY_PROCEDURE_TARGETS -> prefix p code = true ->
  find (fun t => prefix (fst t) code) SPECIALTY_PROCEDURE_TARGETS
  = Some (p, e).
Proof.
  intros Hin Hp.
  destruct (find _ SPECIALTY_PROCEDURE_TARGETS) as [[p' e'] |] eqn:F.
  - apply find_some in F. destruct F as [Hin' Hp']. simpl in Hp'.
    destruct (prefix_both p p' code Hp Hp') as [H | H].
    + destruct (targets_prefix_free _ _ _ _ Hin Hin' H) as [-> ->].
      reflexivity.
    + destruct (targets_prefix_free _ _ _ _ Hin' Hin H) as [-> ->].
      reflexivity.
  - pose proof (find_none _ _ F _ Hin) as H. simpl in H. congruence.
Qed.

Lemma targets_range (p : string) (e : Q) :
  In (p, e) SPECIALTY_PROCEDURE_TARGETS -> 40 # 100 <= e /\ e <= 60 # 100.
Proof.
  unfold SPECIALTY_PROCEDURE_TARGETS. simpl. intros H.
  repeat (destruct H as [[= <- <-] | H]); try contradiction;
    split; unfold Qle; simpl; lia.
Qed.

(** X9.  [get_expected_procedure_ratio] looks the taxonomy codes up by
    prefix: a result is the target, between 0.40 and 0.60, of a table
    line whose prefix starts one of the stripped, non-empty codes of
    the string; there is no result exactly when no code starts with a
    prefix of the table; and the first code that matches any line
    decides, whatever follows it.  A missing taxonomy gives no
    result. *)
Theorem get_expected_procedure_ratio_spec (s : string) :
  let codes :=
    filter (fun c => negb (is_empty_string c)) (map strip (split_on ";" s)) in
  get_expected_procedure_ratio None = None /\
  (forall e, get_expected_procedure_ratio (Some s) = Some e ->
     (40 # 100 <= e /\ e <= 60 # 100) /\
     exists code p, In code codes /\ In (p, e) SPECIALTY_PROCEDURE_TARGETS /\
                    prefix p code = true) /\
  (get_expected_procedure_ratio (Some s) = None
   <-> forall code p e, In code codes ->
         In (p, e) SPECIALTY_PROCEDURE_TARGETS -> prefix p code = false) /\
  (forall code rest p e, codes = code :: rest ->
     In (p, e) SPECIALTY_PROCEDURE_TARGETS -> prefix p code = true ->
     get_expected_procedure_ratio (Some s) = Some e).
Proof.
  intros codes.
  assert (Hempty : is_empty_string s = true -> codes = []).
  { destruct s; [reflexivity | discriminate]. }
  split; [reflexivity |].
  unfold get_expected_procedure_ratio. fold codes.
  split; [| split].
  - destruct (is_empty_string s); [discriminate |].
    intros e H. apply first_some_Some in H. destruct H as (code & Hin & H).
    destruct (find _ SPECIALTY_PROCEDURE_TARGETS) as [[p e'] |] eqn:F;
      [| discriminate].
    injection H as ->. apply find_some in F. destruct F as [Hp Hpre].
    split; [exact (targets_range _ _ Hp) |].
    exists code, p. auto.
  - destruct (is_empty_string s) eqn:E.
    + rewrite (Hempty eq_refl). split; [intros _ code p e [] | reflexivity].
    + rewrite first_some_None. split.
      * intros H code p e Hin Hp.
        specialize (H code Hin).
        destruct (find _ SPECIALTY_PROCEDURE_TARGETS) eqn:F; [discriminate |].
        exact (find_none _ _ F _ Hp).
      * intros H code Hin.
        destruct (find _ SPECIALTY_PROCEDURE_TARGETS) as [[p e] |] eqn:F;
          [| reflexivity].
        apply find_some in F. destruct F as [Hp Hpre]. simpl in Hpre.
        rewrite (H code p e Hin Hp) in Hpre. discriminate.
  - intros code rest p e Hcodes Hp Hpre.
    destruct (is_empty_string s) eqn:E.
    + rewrite (Hempty eq_refl) in Hcodes. discriminate.
    + rewrite Hcodes. cbn [first_some].
      rewrite (target_of_code code p e Hp Hpre). reflexivity.
Qed.

Lemma get_expected_procedure_ratio_spec_witness :
  get_expected_procedure_ratio (Some "213E00000X; 207Q00000X"%string)
  = Some (60 # 100).
Proof.
  apply (proj2 (proj2 (proj2 (get_expected_procedure_ratio_spec
                                "213E00000X; 207Q00000X")))
           "213E00000X"%string ["207Q00000X"%string] "213E"%string).
  - reflexivity.
  - left. reflexivity.
  - reflexivity.
Defined.

(** The score once the row has passed every filter. *)
Lemma score_procedure_alignment_scored (row : Row) (expected r : Q) :
  String.eqb (text_get (segment_label row) "") "Private Practice"
  || String.eqb (text_get (segment_label row) "") "Specialty Group" = true ->
  get_expected_procedure_ratio (taxonomy row) = Some expected ->
  procedure_ratio row = Num r ->
  Qlt_bool (cell_or_zero (total_procedure_codes row)
            + cell_or_zero (total_eval_codes row)) 50 = false ->
  score_procedure_alignment row
  = if Qle_bool (20 # 100) (expected - r) then
      if Qle_bool (40 # 100) (expected - r) then 10
      else round1 (4 + ((expected - r - (20 # 100)) / (20 # 100)) * 6)
    else 0.
Proof.
  intros Hseg Hexp Hr Hvol. unfold score_procedure_alignment.
  rewrite Hseg, Hexp, Hvol, Hr. reflexivity.
Qed.

Lemma deficit_ramp (d : Q) :
  4 + (d - (20 # 100)) / (20 # 100) * 6 == 4 + (d - (20 # 100)) * 30.
Proof. field. Qed.

(** X10.  The procedure alignment score is 0 or lies in [4, 10].  A
    positive score is given only to a Private Practice or Specialty
    Group row whose taxonomy has a target, with at least 50 claims, a
    numeric procedure ratio and a ratio 0.20 below the target; such a
    row gets at least 4, and 10 when the ratio is 0.40 or more below.
    At the threshold of 0.20 itself the comparison is made on the
    difference of two doubles, which decides it either way (0.6 - 0.4
    comes out below 0.20), and the 50 claims are a sum of two
    doubles: the statements about the two thresholds leave a margin
    of one billionth on either side.  Other things equal, the score
    never rises with the procedure ratio. *)
Theorem score_procedure_alignment_cases (row : Row) :
  let segment := text_get (segment_label row) "" in
  let total_claims :=
    cell_or_zero (total_procedure_codes row)
    + cell_or_zero (total_eval_codes row) in
  let margin := 1 # 1000000000 in
  (score_procedure_alignment row = 0 \/
   4 <= score_procedure_alignment row /\ score_procedure_alignment row <= 10) /\
  (0 < score_procedure_alignment row ->
   (segment = "Private Practice"%string \/ segment = "Specialty Group"%string)
   /\ exists expected r,
        get_expected_procedure_ratio (taxonomy row) = Some expected /\
        procedure_ratio row = Num r /\ 50 - margin <= total_claims /\
        (20 # 100) - margin <= expected - r) /\
  (forall expected r,
     segment = "Private Practice"%string \/ segment = "Specialty Group"%string ->
     get_expected_procedure_ratio (taxonomy row) = Some expected ->
     procedure_ratio row = Num r -> 50 + margin <= total_claims ->
     (20 # 100) + margin <= expected - r ->
     4 <= score_procedure_alignment row) /\
  (forall expected r,
     segment = "Private Practice"%string \/ segment = "Specialty Group"%string ->
     get_expected_procedure_ratio (taxonomy row) = Some expected ->
     procedure_ratio row = Num r -> 50 + margin <= total_claims ->
     40 # 100 <= expected - r -> score_procedure_alignment row = 10) /\
  (forall row' r r',
     segment_label row' = segment_label row -> taxonomy row' = taxonomy row ->
     total_procedure_codes row' = total_procedure_codes row ->
     total_eval_codes row' = total_eval_codes row ->
     procedure_ratio row = Num r -> procedure_ratio row' = Num r' ->
     r <= r' ->
     score_procedure_alignment row' <= score_procedure_alignment row).
Proof.
  intros segment total_claims margin.
  assert (Hseg : segment = "Private Practice"%string \/
                 segment = "Specialty Group"%string
                 <-> String.eqb segment "Private Practice"
                     || String.eqb segment "Specialty Group" = true).
  { rewrite orb_true_iff, !String.eqb_eq. reflexivity. }
  assert (Hramp : forall d, 20 # 100 <= d -> d < 40 # 100 ->
            4 <= round1 (4 + (d - (20 # 100)) / (20 # 100) * 6) <= 10).
  { intros d H1 H2. rewrite (round1_comp _ _ (deficit_ramp d)).
    apply (round1_within 4 10); lra. }
  assert (Hmargin : margin == 1 # 1000000000) by reflexivity.
  split; [| split; [| split; [| split]]].
  - unfold score_procedure_alignment. fold segment total_claims.
    destruct (negb _); [left; reflexivity |].
    destruct (get_expected_procedure_ratio _) as [e |]; [| left; reflexivity].
    destruct (Qlt_bool total_claims 50); [left; reflexivity |].
    destruct (cell_value _); [| left; reflexivity].
    unfold PROCEDURE_DEFICIT_THRESHOLD.
    destruct (Qle_bool (20 # 100) _) eqn:E1; [| left; reflexivity].
    destruct (Qle_bool (40 # 100) _) eqn:E2; qbool; right; [lra |].
    apply Hramp; assumption.
  - unfold score_procedure_alignment. fold segment total_claims.
    destruct (String.eqb segment "Private Practice"
              || String.eqb segment "Specialty Group") eqn:S;
      cbn [negb]; [| lra].
    destruct (get_expected_procedure_ratio _) as [e |]; [| lra].
    destruct (Qlt_bool total_claims 50) eqn:V; [lra |].
    destruct (procedure_ratio row) as [| | r]; cbn [cell_value cell_or_zero];
      try lra.
    unfold PROCEDURE_DEFICIT_THRESHOLD.
    destruct (Qle_bool (20 # 100) (e - r)) eqn:E1; [| lra].
    intros _. qbool. split; [apply Hseg; reflexivity |].
    exists e, r. repeat split; try reflexivity; lra.
  - intros e r S He Hr Hv Hd.
    apply Hseg in S.
    assert (Hv' : 50 <= total_claims) by lra.
    apply Qlt_bool_false in Hv'.
    rewrite (score_procedure_alignment_scored row e r S He Hr Hv').
    assert (H20 : 20 # 100 <= e - r) by lra.
    apply Qle_bool_iff in H20. rewrite H20. apply Qle_bool_iff in H20.
    destruct (Qle_bool (40 # 100) (e - r)) eqn:E2; qbool; [lra |].
    pose proof (Hramp (e - r) H20 E2). lra.
  - intros e r S He Hr Hv Hd.
    apply Hseg in S.
    assert (Hv' : 50 <= total_claims) by lra.
    apply Qlt_bool_false in Hv'.
    rewrite (score_procedure_alignment_scored row e r S He Hr Hv').
    assert (H20 : 20 # 100 <= e - r) by lra.
    apply Qle_bool_iff in H20, Hd. rewrite H20, Hd. reflexivity.
  - intros row' r r' Es Et Ep Ee Hr Hr' Hle.
    unfold score_procedure_alignment.
    rewrite Es, Et, Ep, Ee, Hr, Hr'. fold segment total_claims.
    destruct (negb _); [lra |].
    destruct (get_expected_procedure_ratio _) as [e |]; [| lra].
    destruct (Qlt_bool total_claims 50); [lra |].
    cbn [cell_value cell_or_zero]. unfold PROCEDURE_DEFICIT_THRESHOLD.
    destruct (Qle_bool (20 # 100) (e - r)) eqn:A1;
      destruct (Qle_bool (20 # 100) (e - r')) eqn:A2; qbool; try lra.
    + destruct (Qle_bool (40 # 100) (e - r)) eqn:B1;
        destruct (Qle_bool (40 # 100) (e - r')) eqn:B2; qbool; try lra.
      * pose proof (Hramp (e - r') A2 B2). lra.
      * apply round1_mono. qdiv. lra.
    + destruct (Qle_bool (40 # 100) (e - r)) eqn:B1; qbool; [lra |].
      pose proof (Hramp (e - r) A1 B1). lra.
Qed.

Lemma score_procedure_alignment_cases_witness :
  score_procedure_alignment samples.podiatry_practice = 10.
Proof.
  apply (proj1 (proj2 (proj2 (proj2 (score_procedure_alignment_cases
                                       samples.podiatry_practice))))
           (60 # 100) (1 # 10)).
  - left. reflexivity.
  - reflexivity.
  - reflexivity.
  - unfold Qle; simpl; lia.
  - unfold Qle; simpl; lia.
Defined.

(* ------------------------------------------------------------------ *)
(** ** Specialty names and the data quality counters *)

(** The two tables are keyed by the same prefixes, so a code finds a
    line in one exactly when it finds the line of the same prefix in
    the other. *)
Lemma code_tables_agree (code : string) :
  match find (fun t => prefix (fst t) code) SPECIALTY_PROCEDURE_TARGETS,
        find (fun t => prefix (fst t) code) TAXONOMY_TO_SPECIALTY with
  | Some t1, Some t2 =>
      fst t1 = fst t2 /\ In t1 SPECIALTY_PROCEDURE_TARGETS /\
      In t2 TAXONOMY_TO_SPECIALTY
  | None, None => True
  | _, _ => False
  end.
Proof.
  unfold SPECIALTY_PROCEDURE_TARGETS, TAXONOMY_TO_SPECIALTY.
  cbn [find fst].
  repeat (destruct (prefix _ code);
          [split; [reflexivity | split; simpl; auto 12] |]).
  exact I.
Qed.

Lemma codes_tables_agree (codes : list string) :
  match first_some
          (fun code =>
             match find (fun t => prefix (fst t) code)
                        SPECIALTY_PROCEDURE_TARGETS with
             | Some t => Some (snd t)
             | None => None
             end) codes,
        first_some
          (fun code =>
             match find (fun t => prefix (fst t) code)
                        TAXONOMY_TO_SPECIALTY with
             | Some t => Some (snd t)
             | None => None
             end) codes with
  | Some e, Some name =>
      exists p, In (p, e) SPECIALTY_PROCEDURE_TARGETS /\
                In (p, name) TAXONOMY_TO_SPECIALTY
  | None, None => True
  | _, _ => False
  end.
Proof.
  induction codes as [| code codes IH]; cbn [first_some]; [exact I |].
  pose proof (code_tables_agree code) as H.
  destruct (find _ SPECIALTY_PROCEDURE_TARGETS) as [[p e] |];
    destruct (find _ TAXONOMY_TO_SPECIALTY) as [[p' name] |];
    try contradiction; [| exact IH].
  simpl in H. destruct H as (-> & H1 & H2). exists p'. auto.
Qed.

Lemma specialty_names_proper (p name : string) :
  In (p, name) TAXONOMY_TO_SPECIALTY ->
  name <> "Unknown"%string /\ name <> "Other Specialty"%string.
Proof.
  unfold TAXONOMY_TO_SPECIALTY. simpl. intros H.
  repeat (destruct H as [[= <- <-] | H]); try contradiction;
    split; discriminate.
Qed.

(** The specialty name of a taxonomy that has a target. *)
Lemma specialty_of_target (t : option string) (e : Q) :
  get_expected_procedure_ratio t = Some e ->
  exists p, In (p, e) SPECIALTY_PROCEDURE_TARGETS /\
            In (p, get_specialty_name t) TAXONOMY_TO_SPECIALTY.
Proof.
  unfold get_expected_procedure_ratio, get_specialty_name.
  destruct t as [s |]; [| discriminate].
  destruct (is_empty_string s); [discriminate |].
  pose proof (codes_tables_agree
                (filter (fun c => negb (is_empty_string c))
                        (map strip (split_on ";" s)))) as H.
  destruct (first_some _ _) as [e' |]; [| discriminate].
  destruct (first_some _ _) as [name |]; [| contradiction].
  intros [= <-]. exact H.
Qed.

(** X11.  [get_specialty_name] and [get_expected_procedure_ratio] agree:
    a taxonomy has an expected ratio exactly when its specialty name is
    neither "Unknown" nor "Other Specialty", and then name and ratio
    come from the lines of the same prefix in the two tables. *)
Theorem specialty_name_matches_target (t : option string) :
  (get_expected_procedure_ratio t = None
   <-> get_specialty_name t = "Unknown"%string \/
       get_specialty_name t = "Other Specialty"%string) /\
  (forall e, get_expected_procedure_ratio t = Some e ->
     exists p, In (p, e) SPECIALTY_PROCEDURE_TARGETS /\
               In (p, get_specialty_name t) TAXONOMY_TO_SPECIALTY).
Proof.
  split; [| apply specialty_of_target].
  destruct (get_expected_procedure_ratio t) as [e |] eqn:E.
  - destruct (specialty_of_target t e E) as (p & _ & Hname).
    destruct (specialty_names_proper _ _ Hname) as [H1 H2].
    split; [discriminate | intros [H | H]; contradiction].
  - split; [intros _ | reflexivity].
    revert E. unfold get_expected_procedure_ratio, get_specialty_name.
    destruct t as [s |]; [| left; reflexivity].
    destruct (is_empty_string s); [left; reflexivity |].
    pose proof (codes_tables_agree
                  (filter (fun c => negb (is_empty_string c))
                          (map strip (split_on ";" s)))) as H.
    destruct (first_some _ _) as [e' |]; [discriminate |].
    destruct (first_some _ _) as [name |]; [contradiction |].
    right. reflexivity.
Qed.

Lemma specialty_name_matches_target_witness :
  exists p, In (p, 60 # 100) SPECIALTY_PROCEDURE_TARGETS /\
            In (p, get_specialty_name (Some "213E00000X"%string))
               TAXONOMY_TO_SPECIALTY.
Proof.
  apply (proj2 (specialty_name_matches_target (Some "213E00000X"%string))).
  reflexivity.
Defined.

Lemma dict_total_set (d : dict) (k : string) :
  dict_total (dict_set d k (dict_get d k 0 + 1)%Z)
  = (dict_total d + 1)%Z.
Proof.
  unfold dict_total.
  induction d as [| [k' v] d IH]; simpl; [lia |].
  destruct (String.eqb k k'); simpl; [lia |].
  rewrite IH. lia.
Qed.

Lemma dict_set_keys (d : dict) (k : string) (v : Z) (k' : string) :
  In k' (map fst (dict_set d k v)) -> k' = k \/ In k' (map fst d).
Proof.
  induction d as [| [k0 v0] d IH]; simpl.
  - intros [<- | []]. left. reflexivity.
  - destruct (String.eqb k k0); simpl; [tauto |].
    intros [<- | H]; [tauto |]. destruct (IH H); tauto.
Qed.

Lemma dict_set_keeps_keys (d : dict) (k : string) (v : Z) (k' : string) :
  In k' (map fst d) \/ k' = k -> In k' (map fst (dict_set d k v)).
Proof.
  induction d as [| [k0 v0] d IH]; simpl.
  - intros [[] | ->]. left. reflexivity.
  - destruct (String.eqb k k0) eqn:E; simpl.
    + apply String.eqb_eq in E. subst k0. intros [[H | H] | H]; auto.
    + intros [[H | H] | H]; auto.
Qed.

Lemma score_procedure_alignment_counting_consistent (row : Row) (st : Stats)
  (bound : Z) :
  stats_consistent bound st ->
  stats_consistent (bound + 1) (snd (score_procedure_alignment_counting row st)).
Proof.
  intros (H1 & H2 & H3 & H4 & H5 & H6 & H7 & H8 & H9).
  assert (Hsame : stats_consistent (bound + 1) st).
  { repeat split; auto. lia. }
  unfold score_procedure_alignment_counting.
  destruct (negb _); [exact Hsame |].
  destruct (get_expected_procedure_ratio (taxonomy row)) as [e |] eqn:E;
    [| exact Hsame].
  destruct (specialty_of_target _ _ E) as (p & _ & Hname).
  assert (Hkey : forall k,
            In k (map fst (dict_set (by_specialty st)
                             (get_specialty_name (taxonomy row))
                             (dict_get (by_specialty st)
                                (get_specialty_name (taxonomy row)) 0 + 1)%Z))
            -> In k (map snd TAXONOMY_TO_SPECIALTY)).
  { intros k Hk. apply dict_set_keys in Hk. destruct Hk as [-> | Hk]; auto.
    apply (in_map snd) in Hname. exact Hname. }
  destruct (Qlt_bool _ 50);
    [| destruct (cell_value (procedure_ratio row));
       [repeat match goal with
               | |- context [if ?b then _ else _] => destruct b
               end |]];
    cbn [snd]; unfold stats_consistent;
    cbn [procedure_heavy_specialties has_data missing_data low_volume
         by_specialty missing_by_specialty];
    rewrite ?dict_total_set;
    (repeat split; try lia; try exact Hkey);
    intros k Hk;
    try (apply dict_set_keys in Hk);
    apply dict_set_keeps_keys; try (destruct Hk as [-> | Hk]); auto.
Qed.

Lemma count_procedure_alignment_consistent (rows : list Row) (st : Stats)
  (bound : Z) :
  stats_consistent bound st ->
  stats_consistent (bound + Z.of_nat (List.length rows))
                   (count_procedure_alignment rows st).
Proof.
  unfold count_procedure_alignment.
  revert st bound. induction rows as [| row rows IH]; intros st bound H.
  - simpl. rewrite Z.add_0_r. exact H.
  - cbn [fold_left List.length]. rewrite Nat2Z.inj_succ.
    replace (bound + Z.succ (Z.of_nat (List.length rows)))%Z
      with (bound + 1 + Z.of_nat (List.length rows))%Z by lia.
    apply IH. apply score_procedure_alignment_counting_consistent, H.
Qed.

(** X12.  The data quality counters, started as the module sets them up
    and updated by any sequence of calls, stay consistent: the
    procedure-heavy rows split into those with data, without data and
    with low volume; the per-specialty counts add up to the totals they
    break down; at most one row is counted per call; and every key is a
    specialty of [TAXONOMY_TO_SPECIALTY] (never "Unknown" or "Other
    Specialty").  The counters do not influence the score. *)
Theorem procedure_stats_consistent (rows : list Row) :
  let stats := count_procedure_alignment rows PROCEDURE_DATA_QUALITY_STATS in
  (procedure_heavy_specialties stats
   = has_data stats + missing_data stats + low_volume stats)%Z /\
  (0 <= has_data stats)%Z /\ (0 <= missing_data stats)%Z /\
  (0 <= low_volume stats)%Z /\
  (procedure_heavy_specialties stats <= Z.of_nat (List.length rows))%Z /\
  dict_total (by_specialty stats) = procedure_heavy_specialties stats /\
  dict_total (missing_by_specialty stats) = missing_data stats /\
  (forall k, In k (map fst (by_specialty stats)) ->
             In k (map snd TAXONOMY_TO_SPECIALTY)) /\
  (forall k, In k (map fst (missing_by_specialty stats)) ->
             In k (map fst (by_specialty stats))) /\
  (forall row st,
     fst (score_procedure_alignment_counting row st)
     = score_procedure_alignment row).
Proof.
  intros stats.
  assert (H0 : stats_consistent 0 PROCEDURE_DATA_QUALITY_STATS).
  { unfold stats_consistent. simpl. repeat split; try lia; intros k []. }
  pose proof (count_procedure_alignment_consistent rows _ 0 H0) as H.
  fold stats in H. rewrite Z.add_0_l in H.
  destruct H as (H1 & H2 & H3 & H4 & H5 & H6 & H7 & H8 & H9).
  repeat (split; [assumption |]).
  intros row st.
  unfold score_procedure_alignment_counting, score_procedure_alignment.
  repeat match goal with
  | |- context [if ?b then _ else _] => destruct b
  | |- context [match ?o with Some _ => _ | None => _ end] => destruct o
  end; reflexivity.
Qed.

Lemma procedure_stats_consistent_witness :
  In "Podiatry"%string
     (map fst (by_specialty
                 (count_procedure_alignment
                    [samples.podiatry_practice; samples.base_clinic_data]
                    PROCEDURE_DATA_QUALITY_STATS))) /\
  In "Podiatry"%string (map snd TAXONOMY_TO_SPECIALTY).
Proof.
  assert (H : In "Podiatry"%string
     (map fst (by_specialty
                 (count_procedure_alignment
                    [samples.podiatry_practice; samples.base_clinic_data]
                    PROCEDURE_DATA_QUALITY_STATS)))).
  { left. reflexivity. }
  split; [exact H |].
  exact (proj1 (proj2 (proj2 (proj2 (proj2 (proj2 (proj2 (proj2
           (procedure_stats_consistent
              [samples.podiatry_practice; samples.base_clinic_data]))))))))
           "Podiatry"%string H).
Defined.

(* ------------------------------------------------------------------ *)
(** ** The logarithmic scores *)

Lemma sample_log_one : samples.sample_log 1 == 0.
Proof. reflexivity. Qed.

Lemma sample_log_mono (x y : Q) :
  0 < x -> x <= y -> samples.sample_log x <= samples.sample_log y.
Proof. unfold samples.sample_log. intros _ H. lra. Qed.

Lemma sample_log_strict (x y : Q) :
  0 < x -> x < y -> samples.sample_log x < samples.sample_log y.
Proof. unfold samples.sample_log. intros _ H. lra. Qed.

Section LogScores.
Variable ln : Q -> Q.

(** What the scores use of [math.log]: it vanishes at 1 and
    increases on the positive numbers. *)
Hypothesis ln_one : ln 1 == 0.
Hypothesis ln_mono : forall x y, 0 < x -> x <= y -> ln x <= ln y.
Hypothesis ln_strict : forall x y, 0 < x -> x < y -> ln x < ln y.

Lemma ln_above_one (x : Q) : 1 < x -> 0 < ln x.
Proof. intros H. rewrite <- ln_one. apply ln_strict; lra. Qed.

(** The position of [x] between [lo] and [hi] on the logarithmic
    scale. *)
Lemma log_share_mono (lo hi x y : Q) :
  0 < lo -> lo < hi -> 0 < x -> x <= y ->
  (ln x - ln lo) / (ln hi - ln lo) <= (ln y - ln lo) / (ln hi - ln lo).
Proof.
  intros Hlo Hhi Hx Hxy.
  pose proof (ln_strict lo hi Hlo Hhi) as HD.
  pose proof (ln_mono x y Hx Hxy) as Hln.
  unfold Qdiv. apply Qmult_le_compat_r; [lra |].
  apply Qinv_le_0_compat. lra.
Qed.

Lemma log_share_unit (lo hi x : Q) :
  0 < lo -> lo < hi -> lo <= x -> x <= hi ->
  0 <= (ln x - ln lo) / (ln hi - ln lo) <= 1.
Proof.
  intros Hlo Hhi H1 H2.
  pose proof (ln_strict lo hi Hlo Hhi) as HD.
  pose proof (ln_mono lo x Hlo H1) as Ha.
  assert (Hx : 0 < x) by lra.
  pose proof (ln_mono x hi Hx H2) as Hb.
  split.
  - apply Qle_shift_div_l; lra.
  - apply Qle_shift_div_r; lra.
Qed.

Lemma provider_share_unit (n : Q) :
  1 < n -> n < 100 -> 0 <= ln n / ln 100 * 10 <= 10.
Proof.
  intros H1 H2.
  assert (E : ln n / ln 100 == (ln n - ln 1) / (ln 100 - ln 1)).
  { rewrite ln_one. unfold Qminus.
    change (- 0) with 0. rewrite !Qplus_0_r. reflexivity. }
  rewrite E.
  pose proof (log_share_unit 1 100 n) as H.
  destruct H as [Ha Hb]; lra.
Qed.

(** X13.  The provider-count score is a number in [0, 10] for every
    numeric count and never falls when the count grows. *)
Theorem score_provider_count_continuous_monotone (n m : Q) :
  n <= m ->
  exists a b,
    score_provider_count_continuous ln (Some n) = Some a /\
    score_provider_count_continuous ln (Some m) = Some b /\
    0 <= a /\ a <= b /\ b <= 10.
Proof.
  intros Hnm. unfold score_provider_count_continuous.
  destruct (Qle_bool n 1) eqn:N1; destruct (Qle_bool m 1) eqn:M1; qbool;
    try (exfalso; lra).
  - exists 0, 0. repeat split; lra.
  - destruct (Qle_bool 100 m) eqn:M2; qbool.
    + exists 0, 10. repeat split; lra.
    + pose proof (provider_share_unit m M1 M2) as [Ha Hb].
      eexists; eexists.
      split; [reflexivity |]. split; [reflexivity |].
      split; [lra |]. split; [apply (round1_within 0 10) |
                              apply (round1_within 0 10)]; lra.
  - destruct (Qle_bool 100 n) eqn:N2; destruct (Qle_bool 100 m) eqn:M2; qbool;
      try (exfalso; lra).
    + exists 10, 10. repeat split; lra.
    + pose proof (provider_share_unit n N1 N2) as [Ha Hb].
      eexists; eexists.
      split; [reflexivity |]. split; [reflexivity |].
      split; [apply (round1_within 0 10) | split;
              [apply (round1_within 0 10) |]]; lra.
    + pose proof (provider_share_unit n N1 N2) as [Ha Hb].
      pose proof (provider_share_unit m M1 M2) as [Hc Hd].
      eexists; eexists.
      split; [reflexivity |]. split; [reflexivity |].
      split; [apply (round1_within 0 10); lra |].
      split; [| apply (round1_within 0 10); lra].
      apply round1_mono.
      assert (Hn : 0 < n) by lra.
      pose proof (ln_mono n m Hn Hnm) as Hln.
      pose proof (ln_above_one 100) as H100.
      apply Qmult_le_compat_r; [| lra].
      unfold Qdiv. apply Qmult_le_compat_r; [exact Hln |].
      apply Qinv_le_0_compat. lra.
Qed.

Lemma py_clamp_mono (lo hi x y : Q) :
  x <= y -> py_min hi (py_max lo x) <= py_min hi (py_max lo y).
Proof. intros H. minmax; lra. Qed.

(** X14.  The revenue score lies in [2, 15] and, for a given segment,
    never falls when the revenue grows. *)
Theorem score_revenue_continuous_monotone (segment : string) (r1 r2 : Q) :
  r1 <= r2 ->
  2 <= score_revenue_continuous ln (Some r1) segment /\
  score_revenue_continuous ln (Some r1) segment
  <= score_revenue_continuous ln (Some r2) segment /\
  score_revenue_continuous ln (Some r2) segment <= 15.
Proof.
  intros Hle.
  pose proof (score_revenue_continuous_range ln (Some r1) segment) as B1.
  pose proof (score_revenue_continuous_range ln (Some r2) segment) as B2.
  split; [lra |]. split; [| lra].
  revert B1 B2. unfold score_revenue_continuous.
  destruct (Qle_bool r1 0) eqn:A1; [intros; lra |].
  destruct (Qle_bool r2 0) eqn:A2; qbool; [exfalso; lra |].
  destruct (String.eqb segment "FQHC").
  - destruct (Qle_bool 5000000 r2) eqn:C2; [intros; lra |].
    destruct (Qle_bool 5000000 r1) eqn:C1; qbool; [exfalso; lra |].
    destruct (Qle_bool r1 100000) eqn:D1; [intros; lra |].
    destruct (Qle_bool r2 100000) eqn:D2; qbool; [exfalso; lra |].
    intros _ _. apply round1_mono, py_clamp_mono.
    pose proof (log_share_mono 100000 5000000 r1 r2) as H.
    assert (H' : (ln r1 - ln 100000) / (ln 5000000 - ln 100000)
                 <= (ln r2 - ln 100000) / (ln 5000000 - ln 100000))
      by (apply H; lra).
    lra.
  - destruct (Qle_bool 15000000 r2) eqn:C2; [intros; lra |].
    destruct (Qle_bool 15000000 r1) eqn:C1; qbool; [exfalso; lra |].
    destruct (Qle_bool r1 500000) eqn:D1; [intros; lra |].
    destruct (Qle_bool r2 500000) eqn:D2; qbool; [exfalso; lra |].
    intros _ _. apply round1_mono, py_clamp_mono.
    pose proof (log_share_mono 500000 15000000 r1 r2) as H.
    assert (H' : (ln r1 - ln 500000) / (ln 15000000 - ln 500000)
                 <= (ln r2 - ln 500000) / (ln 15000000 - ln 500000))
      by (apply H; lra).
    lra.
Qed.

Lemma score_volume_between_monotone (lo hi : Q) (is_verified : bool)
  (v1 v2 : Q) :
  0 < lo -> lo < hi -> v1 <= v2 ->
  score_volume_between ln lo hi (Some v1) is_verified
  <= score_volume_between ln lo hi (Some v2) is_verified.
Proof.
  intros Hlo Hhi Hle.
  pose proof (score_volume_between_range ln lo hi (Some v1) is_verified) as B1.
  pose proof (score_volume_between_range ln lo hi (Some v2) is_verified) as B2.
  assert (B1' : score_volume_between ln lo hi (Some v1) is_verified
                <= if is_verified then 15 else 10).
  { unfold score_volume_between.
    destruct is_verified; curve_cases; try lra;
      match goal with |- round1 ?q <= _ =>
        assert (Bq : 3 <= q <= 15) by (minmax; lra) ||
        assert (Bq : 3 <= q <= 10) by (minmax; lra)
      end.
    - apply (round1_within 3 15); lra.
    - assert (Bq' : 3 <= py_min 10 (py_max 3 (3 + (ln v1 - ln lo)
                                                / (ln hi - ln lo) * (10 - 3)))
                    <= 10) by (minmax; lra).
      apply (round1_within 3 10); lra. }
  revert B1 B2 B1'. unfold score_volume_between.
  destruct (Qle_bool v1 0) eqn:A1; [intros; lra |].
  destruct (Qle_bool v2 0) eqn:A2; qbool; [exfalso; lra |].
  destruct (Qle_bool hi v2) eqn:C2; [intros; lra |].
  destruct (Qle_bool hi v1) eqn:C1; qbool; [exfalso; lra |].
  destruct (Qle_bool v1 lo) eqn:D1; [intros; lra |].
  destruct (Qle_bool v2 lo) eqn:D2; qbool; [exfalso; lra |].
  intros _ _ _. apply round1_mono, py_clamp_mono.
  pose proof (log_share_mono lo hi v1 v2 Hlo Hhi A1 Hle) as H.
  destruct is_verified; lra.
Qed.

Lemma score_volume_between_verified (lo hi : Q) (v : option Q) :
  score_volume_between ln lo hi v false
  <= score_volume_between ln lo hi v true.
Proof.
  unfold score_volume_between.
  destruct v as [v |]; [| lra].
  destruct (Qle_bool v 0); [lra |].
  destruct (Qle_bool hi v) eqn:C; [lra |].
  destruct (Qle_bool v lo) eqn:D; [lra |]. qbool.
  apply round1_mono.
  generalize ((ln v - ln lo) / (ln hi - ln lo)). intros share.
  minmax; lra.
Qed.

(** X15.  The two volume scores lie in [3, 15], at most 10 for an
    estimated volume; a verified volume never scores below the same
    volume estimated; and each score never falls when the volume
    grows. *)
Theorem score_volume_continuous_monotone (is_verified : bool) (v1 v2 : Q) :
  v1 <= v2 ->
  (3 <= score_volume_continuous ln (Some v1) is_verified /\
   score_volume_continuous ln (Some v1) is_verified
   <= score_volume_continuous ln (Some v2) is_verified /\
   score_volume_continuous ln (Some v2) is_verified <= 15) /\
  (3 <= score_behavioral_volume_continuous ln (Some v1) is_verified /\
   score_behavioral_volume_continuous ln (Some v1) is_verified
   <= score_behavioral_volume_continuous ln (Some v2) is_verified /\
   score_behavioral_volume_continuous ln (Some v2) is_verified <= 15) /\
  score_volume_continuous ln (Some v1) false
  <= score_volume_continuous ln (Some v1) true /\
  score_behavioral_volume_continuous ln (Some v1) false
  <= score_behavioral_volume_continuous ln (Some v1) true /\
  score_volume_continuous ln (Some v1) false <= 10 /\
  score_behavioral_volume_continuous ln (Some v1) false <= 10.
Proof.
  intros Hle.
  unfold score_volume_continuous, score_behavioral_volume_continuous.
  pose proof (score_volume_between_range ln 1000 50000 (Some v1) is_verified).
  pose proof (score_volume_between_range ln 1000 50000 (Some v2) is_verified).
  pose proof (score_volume_between_range ln 500 20000 (Some v1) is_verified).
  pose proof (score_volume_between_range ln 500 20000 (Some v2) is_verified).
  assert (Hten : forall lo hi,
            score_volume_between ln lo hi (Some v1) false <= 10).
  { intros lo hi. unfold score_volume_between.
    curve_cases; try lra.
    generalize ((ln v1 - ln lo) / (ln hi - ln lo)). intros share.
    apply (round1_within 3 10); minmax; lra. }
  split; [| split; [| split; [| split; [| split]]]].
  - split; [lra |]. split; [| lra].
    apply score_volume_between_monotone; lra.
  - split; [lra |]. split; [| lra].
    apply score_volume_between_monotone; lra.
  - apply score_volume_between_verified.
  - apply score_volume_between_verified.
  - apply Hten.
  - apply Hten.
Qed.
End LogScores.

Lemma score_provider_count_continuous_monotone_witness :
  exists a b,
    score_provider_count_continuous samples.sample_log (Some 1) = Some a /\
    score_provider_count_continuous samples.sample_log (Some 100) = Some b /\
    0 <= a /\ a <= b /\ b <= 10.
Proof.
  apply (score_provider_count_continuous_monotone samples.sample_log
           sample_log_one sample_log_mono sample_log_strict 1 100).
  unfold Qle; simpl; lia.
Defined.

Lemma score_revenue_continuous_monotone_witness :
  score_revenue_continuous samples.sample_log (Some 100000) "FQHC"
  <= score_revenue_continuous samples.sample_log (Some 5000000) "FQHC".
Proof.
  apply (score_revenue_continuous_monotone samples.sample_log
           sample_log_mono sample_log_strict "FQHC" 100000 5000000).
  unfold Qle; simpl; lia.
Defined.

Lemma score_volume_continuous_monotone_witness :
  score_volume_continuous samples.sample_log (Some 1000) true
  <= score_volume_continuous samples.sample_log (Some 50000) true.
Proof.
  apply (score_volume_continuous_monotone samples.sample_log
           sample_log_mono sample_log_strict true 1000 50000).
  unfold Qle; simpl; lia.
Defined.

(* ------------------------------------------------------------------ *)
(** ** Bounds on the scores returned *)

Section ScoreBounds.
Variable ln : Q -> Q.
Hypothesis ln_one : ln 1 == 0.
Hypothesis ln_mono : forall x y, 0 < x -> x <= y -> ln x <= ln y.
Hypothesis ln_strict : forall x y, 0 < x -> x < y -> ln x < ln y.

Lemma score_provider_count_continuous_range (n : option Q) (c : Q) :
  score_provider_count_continuous ln n = Some c -> 0 <= c <= 10.
Proof.
  unfold score_provider_count_continuous.
  destruct n as [n |]; [| discriminate].
  destruct (Qle_bool n 1) eqn:E1; [intros [= <-]; lra |].
  destruct (Qle_bool 100 n) eqn:E2; intros [= <-]; [lra |]. qbool.
  pose proof (provider_share_unit ln ln_one ln_mono ln_strict n E1 E2).
  apply (round1_within 0 10); lra.
Qed.

Lemma fit_of_range (row : Row) (fit : Q) :
  fit_of ln row = Some fit ->
  5 <= fit <= 40 /\
  (detect_track row = "BEHAVIORAL"%string -> 10 <= fit <= 30).
Proof.
  unfold fit_of.
  destruct (score_provider_count_continuous ln _) as [c |] eqn:Ec;
    [| destruct (String.eqb _ _); discriminate].
  apply score_provider_count_continuous_range in Ec.
  pose proof (score_behavioral_vbc_readiness_range row) as Bv.
  pose proof (segment_alignment_score_range (segment_of row)) as Bs.
  destruct (String.eqb _ "BEHAVIORAL") eqn:T; intros [= <-].
  - assert (B : 10 <= 10 + score_behavioral_vbc_readiness row + py_min c 5
                <= 30) by (minmax; lra).
    pose proof (round1_within 10 30 _ (proj1 B) (proj2 B)). 
    split; [lra | intros _; lra].
  - split.
    + apply (round1_within 5 40);
        destruct (cell_value _); curve_cases; lra.
    + intros H. rewrite H in T. discriminate T.
Qed.

(** X16.  Whatever the row, the scores returned are bounded: the pain
    in [0, 40], the strategy score in [5, 30], the fit (when it is a
    number) in [5, 40] and in [10, 30] on the BEHAVIORAL track, the ICP
    score in [10, 100], and the data confidence is 0, 30, 40 or 50, so
    its cap at 100 never binds. *)
Theorem scores_are_bounded (row : Row) :
  let res := calculate_row_score ln row in
  (0 <= score_pain_total res /\ score_pain_total res <= 40) /\
  (5 <= score_strat_total res /\ score_strat_total res <= 30) /\
  (forall fit, score_fit_total res = Some fit ->
     (5 <= fit /\ fit <= 40) /\
     (scoring_track res = "BEHAVIORAL"%string -> 10 <= fit /\ fit <= 30)) /\
  (10 <= icp_score res /\ icp_score res <= 100) /\
  In (data_confidence res) [0; 30; 40; 50] /\
  data_confidence res = confidence_of row.
Proof.
  intros res. subst res. unfold calculate_row_score.
  cbn [score_pain_total score_strat_total score_fit_total icp_score
       data_confidence scoring_track].
  pose proof (pain_of_range row) as Bp.
  pose proof (strat_of_range ln row) as Bs.
  split; [apply (round1_within 0 40); lra |].
  split; [apply (round1_within 5 30); lra |].
  split; [| split; [| split]].
  - intros fit. destruct (fit_of ln row) as [f |] eqn:F; [| discriminate].
    intros [= <-]. destruct (fit_of_range row f F) as [[B1 B2] B3].
    split; [apply (round1_within 5 40); lra |].
    intros T. destruct (B3 T). apply (round1_within 10 30); lra.
  - unfold total_of.
    destruct (fit_of ln row) as [f |] eqn:F; cbn [cap_100]; [| lra].
    destruct (fit_of_range row f F) as [[B1 B2] _].
    assert (B : 10 <= round1 (pain_of row + f + strat_of ln row))
      by (apply (round1_lower 10); lra).
    minmax; lra.
  - unfold confidence_of.
    repeat match goal with
    | |- context [if ?b then _ else _] => destruct b
    | |- context [match ?o with Some _ => _ | None => _ end] => destruct o
    end; vm_compute; auto 6.
  - unfold confidence_of.
    repeat match goal with
    | |- context [if ?b then _ else _] => destruct b
    | |- context [match ?o with Some _ => _ | None => _ end] => destruct o
    end; reflexivity.
Qed.
End ScoreBounds.

Lemma scores_are_bounded_witness :
  10 <= icp_score (calculate_row_score samples.sample_log
                     samples.counseling_center) /\
  icp_score (calculate_row_score samples.sample_log
               samples.counseling_center) <= 100.
Proof.
  exact (proj1 (proj2 (proj2 (proj2
           (scores_are_bounded samples.sample_log sample_log_one
              sample_log_mono sample_log_strict
              samples.counseling_center))))).
Defined.

(* ------------------------------------------------------------------ *)
(** ** Procedure codes *)

Lemma digit_of_range (c : ascii) (d : Z) :
  digit_of c = Some d -> (0 <= d <= 9)%Z.
Proof.
  unfold digit_of.
  destruct ((48 <=? _)%Z && (_ <=? 57)%Z) eqn:E; [| discriminate].
  intros [= <-]. apply andb_true_iff in E. destruct E as [E1 E2].
  apply Z.leb_le in E1, E2. lia.
Qed.

Lemma substring_0_0 (s : string) : substring 0 0 s = EmptyString.
Proof. destruct s; reflexivity. Qed.

(** X17.  A code is a procedure code exactly when its first five
    characters are decimal digits and the first of them is between 1
    and 6; in particular no evaluation (E&M) target code is one, so no
    service record is selected both as an evaluation and as a
    procedure. *)
Theorem is_procedure_code_spec (code : string) :
  (mine_cpt_codes.is_procedure_code code = true
   <-> exists c1 c2 c3 c4 c5 rest d1 d2 d3 d4 d5,
         code = String c1 (String c2 (String c3 (String c4 (String c5 rest))))
         /\ digit_of c1 = Some d1 /\ digit_of c2 = Some d2
         /\ digit_of c3 = Some d3 /\ digit_of c4 = Some d4
         /\ digit_of c5 = Some d5 /\ (1 <= d1 <= 6)%Z) /\
  (existsb (String.eqb code) mine_cpt_codes.ALL_TARGET_CODES = true ->
   mine_cpt_codes.is_procedure_code code = false).
Proof.
  split.
  - split.
    + unfold mine_cpt_codes.is_procedure_code.
      destruct code as [| c1 [| c2 [| c3 [| c4 [| c5 rest]]]]];
        try (simpl; discriminate).
      * cbn [String.length Nat.ltb Nat.leb substring py_int py_int_acc].
        destruct (digit_of c1) as [d1 |] eqn:E1; [| discriminate].
        destruct (digit_of c2) as [d2 |] eqn:E2; [| discriminate].
        destruct (digit_of c3) as [d3 |] eqn:E3; [| discriminate].
        destruct (digit_of c4) as [d4 |] eqn:E4; [| discriminate].
        apply digit_of_range in E1, E2, E3, E4.
        intros H. apply andb_true_iff in H. destruct H as [H _].
        apply Z.leb_le in H. lia.
      * cbn [String.length Nat.ltb Nat.leb substring py_int py_int_acc].
        rewrite substring_0_0. cbn [py_int_acc].
        destruct (digit_of c1) as [d1 |] eqn:E1; [| discriminate].
        destruct (digit_of c2) as [d2 |] eqn:E2; [| discriminate].
        destruct (digit_of c3) as [d3 |] eqn:E3; [| discriminate].
        destruct (digit_of c4) as [d4 |] eqn:E4; [| discriminate].
        destruct (digit_of c5) as [d5 |] eqn:E5; [| discriminate].
        intros H. exists c1, c2, c3, c4, c5, rest, d1, d2, d3, d4, d5.
        split; [reflexivity |].
        repeat (split; [assumption |]).
        apply digit_of_range in E1, E2, E3, E4, E5.
        apply andb_true_iff in H. destruct H as [H1 H2].
        apply Z.leb_le in H1, H2. lia.
    + intros (c1 & c2 & c3 & c4 & c5 & rest & d1 & d2 & d3 & d4 & d5
              & -> & E1 & E2 & E3 & E4 & E5 & Hd).
      unfold mine_cpt_codes.is_procedure_code.
      cbn [String.length Nat.ltb Nat.leb substring py_int py_int_acc].
      rewrite substring_0_0. cbn [py_int_acc].
      rewrite E1, E2, E3, E4, E5.
      apply digit_of_range in E1, E2, E3, E4, E5.
      apply andb_true_iff. split; apply Z.leb_le; lia.
  - unfold mine_cpt_codes.ALL_TARGET_CODES, mine_cpt_codes.LEVEL_3_CODES,
      mine_cpt_codes.LEVEL_4_5_CODES.
    cbn [app existsb]. rewrite !orb_true_iff, !String.eqb_eq.
    intros [-> | [-> | [-> | [-> | [-> | [-> | H]]]]]];
      try reflexivity; discriminate H.
Qed.

Lemma is_procedure_code_spec_witness :
  mine_cpt_codes.is_procedure_code "11042" = true /\
  mine_cpt_codes.is_procedure_code "99213" = false.
Proof.
  split.
  - apply (proj1 (is_procedure_code_spec "11042")).
    exists "1"%char, "1"%char, "0"%char, "4"%char, "2"%char, ""%string,
      1%Z, 1%Z, 0%Z, 4%Z, 2%Z.
    repeat split; try reflexivity; lia.
  - apply (proj2 (is_procedure_code_spec "99213")). reflexivity.
Defined.

(* ------------------------------------------------------------------ *)
(** ** The PECOS bridge *)

Section KeepFirstFacts.
Context {A : Type}.
Variable eqb : A -> A -> bool.
Hypothesis eqb_eq : forall a b, eqb a b = true <-> a = b.

Lemma existsb_eqb_seen (x : A) (seen : list A) :
  existsb (eqb x) seen = true <-> In x seen.
Proof.
  rewrite existsb_exists. split.
  - intros (y & Hy & E). apply eqb_eq in E. subst y. exact Hy.
  - intros H. exists x. split; [exact H | apply eqb_eq; reflexivity].
Qed.

Lemma In_drop_duplicates_from (seen l : list A) (x : A) :
  In x (drop_duplicates_from eqb seen l) <-> In x l /\ ~ In x seen.
Proof.
  revert seen. induction l as [| y l IH]; intros seen; simpl.
  - tauto.
  - destruct (existsb (eqb y) seen) eqn:E.
    + apply existsb_eqb_seen in E. rewrite IH. split.
      * intros [H1 H2]. auto.
      * intros [[<- | H1] H2]; [contradiction | auto].
    + assert (Hy : ~ In y seen).
      { intros H. apply existsb_eqb_seen in H. congruence. }
      simpl. rewrite IH. simpl. split.
      * intros [<- | [H1 H2]]; [auto |]. split; [auto |]. tauto.
      * intros [[<- | H1] H2]; [auto |].
        destruct (existsb (eqb x) [y]) eqn:Exy.
        -- apply existsb_eqb_seen in Exy. destruct Exy as [-> | []]. auto.
        -- right. split; [exact H1 |]. intros [-> | H]; [| contradiction].
           assert (In x [x]) as Hx by (left; reflexivity).
           apply existsb_eqb_seen in Hx. congruence.
Qed.

Lemma NoDup_drop_duplicates_from (seen l : list A) :
  NoDup (drop_duplicates_from eqb seen l).
Proof.
  revert seen. induction l as [| y l IH]; intros seen; simpl.
  - constructor.
  - destruct (existsb (eqb y) seen); [apply IH |].
    constructor; [| apply IH].
    rewrite In_drop_duplicates_from. intros [_ H]. apply H. left. reflexivity.
Qed.
End KeepFirstFacts.

Lemma link_eqb_eq (a b : Z * Z) : mine_cpt_codes.link_eqb a b = true <-> a = b.
Proof.
  unfold mine_cpt_codes.link_eqb. destruct a as [a1 a2], b as [b1 b2]. simpl.
  rewrite andb_true_iff, !Z.eqb_eq. split.
  - intros [-> ->]. reflexivity.
  - intros [= -> ->]. auto.
Qed.

(** X18.  [load_pecos_bridge] gives no bridge exactly when one of the
    two extracts is missing.  Otherwise the bridge has no repeated
    link, and it links an individual NPI to an organisation NPI exactly
    when some reassignment row names an enrollment of the first as the
    reassigning one and an enrollment of the second as the receiving
    one. *)
Theorem load_pecos_bridge_spec (enroll : option (list (Z * string)))
  (reassign : option (list (string * string))) :
  (mine_cpt_codes.load_pecos_bridge enroll reassign = None
   <-> enroll = None \/ reassign = None) /\
  (forall enrl reas bridge,
     enroll = Some enrl -> reassign = Some reas ->
     mine_cpt_codes.load_pecos_bridge enroll reassign = Some bridge ->
     NoDup bridge /\
     forall indiv_npi org_npi,
       In (indiv_npi, org_npi) bridge
       <-> exists reasgn_id rcv_id,
             In (reasgn_id, rcv_id) reas /\
             In (indiv_npi, reasgn_id) enrl /\
             In (org_npi, rcv_id) enrl).
Proof.
  split.
  - destruct enroll, reassign; simpl; split; try discriminate; auto;
      intros [H | H]; discriminate H.
  - intros enrl reas bridge -> ->. unfold mine_cpt_codes.load_pecos_bridge.
    intros [= <-]. split.
    + apply (NoDup_drop_duplicates_from _ link_eqb_eq).
    + intros i o. unfold drop_duplicates.
      rewrite (In_drop_duplicates_from _ link_eqb_eq).
      rewrite in_flat_map. split.
      * intros [(m & Hm & Hp) _].
        apply in_flat_map in Hm. destruct Hm as ([rid oid] & Hr & Hm).
        apply in_map_iff in Hm. destruct Hm as ([n1 id1] & <- & He1).
        apply filter_In in He1. destruct He1 as [He1 E1].
        apply in_map_iff in Hp. destruct Hp as ([n2 id2] & [= <- <-] & He2).
        apply filter_In in He2. destruct He2 as [He2 E2].
        simpl in *. apply String.eqb_eq in E1, E2. subst id1 id2.
        exists rid, oid. auto.
      * intros (rid & oid & Hr & Hi & Ho). split; [| intros []].
        exists ((rid, oid), i). split.
        -- apply in_flat_map. exists (rid, oid). split; [exact Hr |].
           apply in_map_iff. exists (i, rid). split; [reflexivity |].
           apply filter_In. split; [exact Hi | apply String.eqb_refl].
        -- apply in_map_iff. exists (o, oid). split; [reflexivity |].
           apply filter_In. split; [exact Ho | apply String.eqb_refl].
Qed.

Lemma load_pecos_bridge_spec_witness :
  exists bridge,
    mine_cpt_codes.load_pecos_bridge
      (Some [(101, "I1"); (900, "O1"); (102, "I2")]%Z%string)
      (Some [("I1", "O1"); ("I2", "O1"); ("I1", "O1")]%string)
    = Some bridge /\ NoDup bridge /\ In (101, 900)%Z bridge.
Proof.
  eexists. split; [reflexivity |].
  match goal with
  | |- NoDup ?b /\ _ =>
      destruct (proj2 (load_pecos_bridge_spec
                  (Some [(101, "I1"); (900, "O1"); (102, "I2")]%Z%string)
                  (Some [("I1", "O1"); ("I2", "O1"); ("I1", "O1")]%string))
                  _ _ b eq_refl eq_refl eq_refl) as [Hnd Hin]
  end.
  split; [exact Hnd |].
  apply Hin. exists "I1"%string, "O1"%string.
  split; [left; reflexivity |].
  split; [left; reflexivity | right; left; reflexivity].
Defined.

(* ------------------------------------------------------------------ *)
(** ** What the aggregator emits *)

Lemma filter_map_swap {A B : Type} (f : A -> B) (p : B -> bool) (l : list A) :
  filter p (map f l) = map f (filter (fun a => p (f a)) l).
Proof.
  induction l as [| a l IH]; simpl; [reflexivity |].
  destruct (p (f a)); simpl; rewrite IH; reflexivity.
Qed.

Lemma StronglySorted_filter (p : Z -> bool) (l : list Z) :
  StronglySorted Z.lt l -> StronglySorted Z.lt (filter p l).
Proof.
  induction 1 as [| a l Hs IH Ha]; simpl; [constructor |].
  destruct (p a); [| exact IH].
  constructor; [exact IH |].
  rewrite Forall_forall in *. intros x Hx.
  apply filter_In in Hx. apply Ha, Hx.
Qed.

Lemma Qsum_map_Qeq {A : Type} (f g : A -> Q) (l : list A) :
  (forall a, In a l -> f a == g a) -> Qsum (map f l) == Qsum (map g l).
Proof.
  induction l as [| a l IH]; simpl; intros H; [reflexivity |].
  rewrite (H a (or_introl eq_refl)), IH; [reflexivity |].
  intros x Hx. apply H. right. exact Hx.
Qed.

Section AggregatorOutput.
Import mine_cpt_codes.
Variable bridge : option Bridge.

(** The run on a file, as the finalization of the two tables of the
    whole file. *)
Lemma run_as_whole (util_file : list ServiceRecord) :
  process_utilization_with_bridge bridge util_file
  = finalize
      {| org_chunks :=
           if is_nil (filter_target util_file) then []
           else [em_agg bridge (filter_target util_file)];
         procedure_chunks :=
           if is_nil (filter_procedure util_file) then []
           else [proc_agg bridge (filter_procedure util_file)] |}.
Proof.
  unfold process_utilization_with_bridge.
  rewrite process_as_one_chunk, concat_read_chunks.
  unfold process_chunks. cbn [fold_left]. unfold process_chunk.
  cbn [org_chunks procedure_chunks app]. reflexivity.
Qed.

(** The rows of the finalization: the organisations of the index that
    pass the volume filter, each with the sums of its pivot row. *)
Lemma finalize_shape (acc : Partials) (rows : list OrgCodeMetrics) :
  finalize acc = Some rows ->
  let final_agg :=
    groupby_sum em_key_eqb em_key_ltb (List.concat (org_chunks acc)) in
  map npi rows
  = filter (fun n => Qle_bool 10 (p_total_eval_codes (pivot_row final_agg n)))
           (group_keys Z.eqb Z.ltb (map (fun r => fst (fst r)) final_agg)) /\
  forall row, In row rows ->
    count_level_3 row = p_count_level_3 (pivot_row final_agg (npi row)) /\
    count_level_4_5 row = p_count_level_4_5 (pivot_row final_agg (npi row)) /\
    total_procedure_codes row
    = if is_nil (procedure_chunks acc) then 0
      else sum_where Z.eqb (npi row) (List.concat (procedure_chunks acc)).
Proof.
  unfold finalize. destruct (is_nil (org_chunks acc)); [discriminate |].
  intros [= <-]. split.
  - rewrite filter_map_swap, !map_map.
    destruct (is_nil (procedure_chunks acc)); cbn [npi pivot_row p_npi];
      apply map_id.
  - intros row Hin.
    apply in_map_iff in Hin. destruct Hin as (p & <- & Hp).
    apply filter_In in Hp. destruct Hp as [Hp _].
    apply in_map_iff in Hp. destruct Hp as (n & <- & _).
    destruct (is_nil (procedure_chunks acc));
      cbn [npi count_level_3 count_level_4_5 total_procedure_codes
           pivot_row p_npi p_count_level_3 p_count_level_4_5].
    + repeat split.
    + rewrite (lookup_groupby_sum Z.eqb Z.ltb Z.eqb_eq). repeat split.
Qed.

Lemma Qsum_nil_proc (n : Z) : sum_where Z.eqb n (proc_rows bridge []) = 0.
Proof. rewrite proc_rows_nil. reflexivity. Qed.

(** The organisations of the selected evaluation records: those a
    record with a target code counts for. *)
Lemma em_rows_orgs (util_file : list ServiceRecord) (n : Z) :
  In n (map (fun r => fst (fst r)) (em_rows bridge (filter_target util_file)))
  <-> exists r, In r util_file /\ In (HCPCS_Cd r) ALL_TARGET_CODES /\
                match bridge with
                | Some b => In (Rndrng_NPI r, n) b
                | None => n = Rndrng_NPI r
                end.
Proof.
  assert (Hsel : forall r, In r (filter_target util_file)
                           <-> In r util_file /\
                               In (HCPCS_Cd r) ALL_TARGET_CODES).
  { intros r. unfold filter_target. rewrite filter_In, existsb_exists.
    split; intros [H1 H2]; (split; [exact H1 |]).
    - destruct H2 as (c & Hc & E). apply String.eqb_eq in E.
      rewrite E. exact Hc.
    - exists (HCPCS_Cd r). split; [exact H2 | apply String.eqb_refl]. }
  unfold em_rows, with_org, merge_bridge. rewrite map_map. cbn [fst].
  rewrite in_map_iff. destruct bridge as [b |].
  - split.
    + intros ([o r] & <- & Hp). apply in_flat_map in Hp.
      destruct Hp as (r' & Hr' & Hp).
      apply in_map_iff in Hp. destruct Hp as ([i o'] & [= <- <-] & Hl).
      apply filter_In in Hl. destruct Hl as [Hl E].
      cbn [fst] in E. apply Z.eqb_eq in E. subst i.
      apply Hsel in Hr'. destruct Hr' as [H1 H2].
      exists r'. auto.
    + intros (r & H1 & H2 & Hl). exists (n, r). split; [reflexivity |].
      apply in_flat_map. exists r. split; [apply Hsel; auto |].
      apply in_map_iff. exists (Rndrng_NPI r, n). split; [reflexivity |].
      apply filter_In. split; [exact Hl | apply Z.eqb_refl].
  - split.
    + intros ([o r] & <- & Hp). apply in_map_iff in Hp.
      destruct Hp as (r' & [= <- <-] & Hr').
      apply Hsel in Hr'. destruct Hr' as [H1 H2]. exists r'. auto.
    + intros (r & H1 & H2 & ->). exists (Rndrng_NPI r, r).
      split; [reflexivity |].
      apply in_map_iff. exists r. split; [reflexivity | apply Hsel; auto].
Qed.

(** The rows of a run in terms of the two tables of selected records:
    the organisations some selected evaluation record counts for and
    whose level sums reach 10, in increasing order, each with the sums
    of its rows in the two tables. *)
Lemma aggregator_rows_of_tables (util_file : list ServiceRecord) :
  let em := em_rows bridge (filter_target util_file) in
  let procs := proc_rows bridge (filter_procedure util_file) in
  let level codes n :=
    Qsum (map (fun code => sum_where em_key_eqb (n, code) em) codes) in
  (process_utilization_with_bridge bridge util_file = None
   <-> forall r, In r util_file -> ~ In (HCPCS_Cd r) ALL_TARGET_CODES) /\
  (forall rows,
     process_utilization_with_bridge bridge util_file = Some rows ->
     StronglySorted Z.lt (map npi rows) /\
     (forall n,
        In n (map npi rows)
        <-> (exists r, In r util_file /\ In (HCPCS_Cd r) ALL_TARGET_CODES /\
                       match bridge with
                       | Some b => In (Rndrng_NPI r, n) b
                       | None => n = Rndrng_NPI r
                       end) /\
            10 <= level LEVEL_3_CODES n + level LEVEL_4_5_CODES n) /\
     (forall row, In row rows ->
        count_level_3 row = level LEVEL_3_CODES (npi row) /\
        count_level_4_5 row = level LEVEL_4_5_CODES (npi row) /\
        total_procedure_codes row = sum_where Z.eqb (npi row) procs)).
Proof.
  intros em procs level.
  rewrite run_as_whole.
  assert (Hnil : is_nil (filter_target util_file) = true
                 <-> forall r, In r util_file ->
                       ~ In (HCPCS_Cd r) ALL_TARGET_CODES).
  { split.
    - intros H r Hr Hc. apply is_nil_true in H.
      assert (Hin : In r (filter_target util_file)).
      { apply filter_In. split; [exact Hr |].
        apply existsb_exists. exists (HCPCS_Cd r).
        split; [exact Hc | apply String.eqb_refl]. }
      rewrite H in Hin. destruct Hin.
    - intros H. destruct (filter_target util_file) as [| r t] eqn:E;
        [reflexivity |].
      assert (Hin : In r (filter_target util_file))
        by (rewrite E; left; reflexivity).
      apply filter_In in Hin. destruct Hin as [Hr Hc].
      apply existsb_exists in Hc. destruct Hc as (c & Hc & Ec).
      apply String.eqb_eq in Ec. subst c.
      exfalso. exact (H r Hr Hc). }
  split.
  - rewrite <- Hnil. unfold finalize. cbn [org_chunks].
    destruct (is_nil (filter_target util_file)); simpl;
      split; (discriminate || reflexivity).
  - intros rows Hrun.
    destruct (is_nil (filter_target util_file)) eqn:Ht;
      [discriminate Hrun |].
    pose proof (finalize_shape _ _ Hrun) as Hshape.
    cbv zeta in Hshape. cbn [org_chunks procedure_chunks] in Hshape.
    rewrite concat_singleton in Hshape.
    destruct Hshape as [Hnpi Hrows].
    assert (Hcell : forall n code,
              pivot_at (groupby_sum em_key_eqb em_key_ltb
                          (em_agg bridge (filter_target util_file))) n code
              = sum_where em_key_eqb (n, code) em).
    { intros n code. unfold pivot_at, em_agg.
      rewrite (lookup_groupby_sum _ _ em_key_eqb_eq).
      apply (sum_where_groupby_sum _ _ em_key_eqb_eq). }
    assert (Hlevel : forall codes n,
              Qsum (map (pivot_at (groupby_sum em_key_eqb em_key_ltb
                                     (em_agg bridge
                                        (filter_target util_file))) n) codes)
              = level codes n).
    { intros codes n. unfold level. f_equal. apply map_ext.
      intros code. apply Hcell. }
    split; [| split].
    + rewrite Hnpi. apply StronglySorted_filter, group_keys_Z_sorted.
    + intros n. rewrite Hnpi, filter_In.
      rewrite (In_group_keys Z.eqb Z.ltb Z.eqb_eq).
      unfold em_agg. rewrite !In_npi_groupby_sum.
      cbn [pivot_row p_total_eval_codes].
      fold (em_agg bridge (filter_target util_file)).
      rewrite !Hlevel, Qle_bool_iff, em_rows_orgs. reflexivity.
    + intros row Hin. destruct (Hrows row Hin) as (H3 & H45 & Hp).
      cbn [pivot_row p_count_level_3 p_count_level_4_5] in H3, H45.
      rewrite Hlevel in H3, H45.
      split; [exact H3 |]. split; [exact H45 |].
      rewrite Hp. unfold procs.
      destruct (is_nil (filter_procedure util_file)) eqn:Hpn.
      * apply is_nil_true in Hpn. rewrite Hpn, Qsum_nil_proc. reflexivity.
      * cbn [is_nil]. rewrite concat_singleton. unfold proc_agg.
        apply (sum_where_groupby_sum _ _ Z.eqb_eq).
Qed.
(** The rows a record contributes under organisation [n]. *)
Lemma links_volume (b : Bridge) (r : ServiceRecord) (n : Z) :
  Qsum (map (fun p : Z * ServiceRecord => Tot_Srvcs (snd p))
            (filter (fun p => (n =? fst p)%Z)
                    (map (fun link : Z * Z => (snd link, r))
                         (filter (fun link => (fst link =? Rndrng_NPI r)%Z) b))))
  == Tot_Srvcs r * inject_Z (Z.of_nat (counts_for (Some b) r n)).
Proof.
  unfold counts_for.
  induction b as [| [i o] b IH]; simpl.
  - ring.
  - destruct (i =? Rndrng_NPI r)%Z; simpl; [| exact IH].
    rewrite (Z.eqb_sym n o).
    destruct (o =? n)%Z; simpl; [| exact IH].
    rewrite IH. rewrite Zpos_P_of_succ_nat, <- Z.add_1_r, inject_Z_plus.
    ring.
Qed.

Lemma filter_links (sel : string -> bool) (r : ServiceRecord) (n : Z)
  (links : list (Z * Z)) :
  filter (fun p : Z * ServiceRecord => (n =? fst p)%Z && sel (HCPCS_Cd (snd p)))
         (map (fun link : Z * Z => (snd link, r)) links)
  = if sel (HCPCS_Cd r)
    then filter (fun p : Z * ServiceRecord => (n =? fst p)%Z)
                (map (fun link : Z * Z => (snd link, r)) links)
    else [].
Proof.
  induction links as [| l ls IH]; simpl; [destruct (sel _); reflexivity |].
  rewrite IH. destruct (sel (HCPCS_Cd r)).
  - rewrite andb_true_r. reflexivity.
  - rewrite andb_false_r. reflexivity.
Qed.

Lemma with_org_volume (pre sel : string -> bool)
  (util_file : list ServiceRecord) (n : Z) :
  Qsum (map (fun p : Z * ServiceRecord => Tot_Srvcs (snd p))
            (filter (fun p => (n =? fst p)%Z && sel (HCPCS_Cd (snd p)))
                    (with_org bridge
                       (filter (fun r => pre (HCPCS_Cd r)) util_file))))
  == volume bridge util_file (fun c => pre c && sel c) n.
Proof.
  unfold volume.
  induction util_file as [| r t IH]; [destruct bridge; reflexivity |].
  cbn [filter map Qsum fold_right].
  fold (Qsum (map (fun r0 : ServiceRecord =>
                if pre (HCPCS_Cd r0) && sel (HCPCS_Cd r0)
                then Tot_Srvcs r0 * inject_Z (Z.of_nat (counts_for bridge r0 n))
                else 0) t)).
  destruct (pre (HCPCS_Cd r)) eqn:P; cbn [andb].
  - rewrite <- IH. clear IH.
    destruct bridge as [b |]; unfold with_org, merge_bridge.
    + cbn [flat_map]. rewrite filter_app, map_app, Qsum_app.
      apply Qplus_comp; [| reflexivity].
      rewrite filter_links.
      destruct (sel (HCPCS_Cd r)); [apply links_volume | reflexivity].
    + cbn [map filter fst snd]. unfold counts_for.
      rewrite (Z.eqb_sym n (Rndrng_NPI r)).
      destruct (Rndrng_NPI r =? n)%Z; destruct (sel (HCPCS_Cd r));
        cbn [andb map Qsum fold_right snd]; unfold Qsum;
        try change (inject_Z (Z.of_nat 1)) with 1;
        try change (inject_Z (Z.of_nat 0)) with 0; ring.
  - rewrite IH. ring.
Qed.

Lemma volume_ext (util_file : list ServiceRecord) (sel1 sel2 : string -> bool)
  (n : Z) :
  (forall r, In r util_file -> sel1 (HCPCS_Cd r) = sel2 (HCPCS_Cd r)) ->
  volume bridge util_file sel1 n = volume bridge util_file sel2 n.
Proof.
  intros H. unfold volume. f_equal. apply map_ext_in.
  intros r Hr. rewrite (H r Hr). reflexivity.
Qed.

(** The procedure rows under [n] add up to the procedure volume. *)
Lemma proc_rows_volume (util_file : list ServiceRecord) (n : Z) :
  sum_where Z.eqb n (proc_rows bridge (filter_procedure util_file))
  == volume bridge util_file is_procedure_code n.
Proof.
  unfold sum_where, proc_rows, filter_procedure.
  rewrite filter_map_swap, map_map. cbn [fst snd].
  rewrite (volume_ext util_file is_procedure_code
             (fun c => is_procedure_code c && true)).
  - rewrite <- with_org_volume.
    rewrite (filter_ext (fun p : Z * ServiceRecord => (n =? fst p)%Z && true)
               (fun p => (n =? fst p)%Z)); [reflexivity |].
    intros p. apply andb_true_r.
  - intros r _. rewrite andb_true_r. reflexivity.
Qed.

(** The evaluation rows under [(n, code)] add up to the volume of the
    code, for a target code. *)
Lemma em_rows_volume (util_file : list ServiceRecord) (n : Z) (code : string) :
  In code ALL_TARGET_CODES ->
  sum_where em_key_eqb (n, code) (em_rows bridge (filter_target util_file))
  == volume bridge util_file (String.eqb code) n.
Proof.
  intros Hc.
  unfold sum_where, em_rows, filter_target.
  rewrite filter_map_swap, map_map. cbn [fst snd].
  rewrite (volume_ext util_file (String.eqb code)
             (fun c => existsb (String.eqb c) ALL_TARGET_CODES
                       && String.eqb code c)).
  - rewrite <- with_org_volume. reflexivity.
  - intros r _. destruct (String.eqb_spec code (HCPCS_Cd r)) as [E | E].
    + rewrite andb_true_r. symmetry. apply existsb_exists.
      exists code. split; [exact Hc |]. rewrite E. apply String.eqb_refl.
    + rewrite andb_false_r. reflexivity.
Qed.
Lemma level_volume (util_file : list ServiceRecord) (codes : list string)
  (n : Z) :
  incl codes ALL_TARGET_CODES ->
  Qsum (map (fun code =>
               sum_where em_key_eqb (n, code)
                 (em_rows bridge (filter_target util_file))) codes)
  == Qsum (map (fun code => volume bridge util_file (String.eqb code) n) codes).
Proof.
  intros H. apply Qsum_map_Qeq. intros code Hc.
  apply em_rows_volume, H, Hc.
Qed.

(** X19.  The aggregator returns nothing exactly when no record of the
    file carries an evaluation target code, whatever the bridge.  On a
    file of whole-number counts, none negative and at most 2^53
    together, where the double sums are exact, it otherwise returns
    one row per organisation that some record with a target code
    counts for (through a link of the bridge, or as its own rendering
    NPI when there is no bridge) and that has at least 10 evaluation
    services, in strictly increasing order of NPI (so no organisation
    twice).  The level counts of a row are, code by code of the level,
    the services of the records of the file under that code, each
    record counted once per bridge link from its rendering NPI to the
    organisation; its procedure volume is the same sum over the
    records under a procedure code. *)
Theorem aggregator_emits_sums (util_file : list ServiceRecord) :
  let vol := volume bridge util_file in
  let level codes n := Qsum (map (fun code => vol (String.eqb code) n) codes) in
  (process_utilization_with_bridge bridge util_file = None
   <-> forall r, In r util_file -> ~ In (HCPCS_Cd r) ALL_TARGET_CODES) /\
  (whole_counts bridge util_file = true ->
   forall rows,
     process_utilization_with_bridge bridge util_file = Some rows ->
     StronglySorted Z.lt (map npi rows) /\
     (forall n,
        In n (map npi rows)
        <-> (exists r, In r util_file /\ In (HCPCS_Cd r) ALL_TARGET_CODES /\
                       match bridge with
                       | Some b => In (Rndrng_NPI r, n) b
                       | None => n = Rndrng_NPI r
                       end) /\
            10 <= level LEVEL_3_CODES n + level LEVEL_4_5_CODES n) /\
     (forall row, In row rows ->
        count_level_3 row == level LEVEL_3_CODES (npi row) /\
        count_level_4_5 row == level LEVEL_4_5_CODES (npi row) /\
        total_procedure_codes row == vol is_procedure_code (npi row))).
Proof.
  intros vol level.
  destruct (aggregator_rows_of_tables util_file) as [Hnone Hrows].
  split; [exact Hnone |].
  intros _ rows Hrun.
  destruct (Hrows rows Hrun) as (Hsorted & Hnpi & Hrow).
  assert (H3 : forall n,
             Qsum (map (fun code =>
                          sum_where em_key_eqb (n, code)
                            (em_rows bridge (filter_target util_file)))
                       LEVEL_3_CODES)
             == level LEVEL_3_CODES n).
  { intros n. apply level_volume. intros c Hc.
    unfold ALL_TARGET_CODES. apply in_or_app. left. exact Hc. }
  assert (H45 : forall n,
              Qsum (map (fun code =>
                           sum_where em_key_eqb (n, code)
                             (em_rows bridge (filter_target util_file)))
                        LEVEL_4_5_CODES)
              == level LEVEL_4_5_CODES n).
  { intros n. apply level_volume. intros c Hc.
    unfold ALL_TARGET_CODES. apply in_or_app. right. exact Hc. }
  split; [exact Hsorted |]. split.
  - intros n. rewrite Hnpi, (H3 n), (H45 n). reflexivity.
  - intros row Hin. destruct (Hrow row Hin) as (E3 & E45 & Ep).
    rewrite E3, E45, Ep, (H3 (npi row)), (H45 (npi row)).
    repeat split; try reflexivity.
    apply proc_rows_volume.
Qed.
End AggregatorOutput.

Lemma aggregator_emits_sums_witness :
  mine_cpt_codes.whole_counts (Some samples.sample_bridge)
    samples.sample_stream = true /\
  exists rows,
    mine_cpt_codes.process_utilization_with_bridge
      (Some samples.sample_bridge) samples.sample_stream = Some rows /\
    StronglySorted Z.lt (map mine_cpt_codes.npi rows) /\
    ~ In 901%Z (map mine_cpt_codes.npi rows) /\
    (forall row, In row rows ->
       mine_cpt_codes.total_procedure_codes row
       == mine_cpt_codes.volume (Some samples.sample_bridge)
            samples.sample_stream mine_cpt_codes.is_procedure_code
            (mine_cpt_codes.npi row)).
Proof.
  split; [reflexivity |].
  eexists. split; [vm_compute; reflexivity |].
  match goal with
  | |- StronglySorted _ (map _ ?rows) /\ _ =>
      destruct (proj2 (aggregator_emits_sums (Some samples.sample_bridge)
                         samples.sample_stream) eq_refl rows)
        as (Hsorted & Hnpi & Hrow)
  end.
  - vm_compute. reflexivity.
  - split; [exact Hsorted |]. split.
    + intros H. apply Hnpi in H. destruct H as [_ H].
      vm_compute in H. apply H. reflexivity.
    + intros row Hin. apply (Hrow row Hin).
Defined.

(* ------------------------------------------------------------------ *)
(** ** The order of the records *)

Lemma Qplus_comm_eq (x y : Q) : x + y = y + x.
Proof.
  destruct x as [a b], y as [c d]. unfold Qplus; simpl.
  f_equal; [apply Z.add_comm | apply Pos.mul_comm].
Qed.

Lemma Qsum_perm (l1 l2 : list Q) : Permutation l1 l2 -> Qsum l1 = Qsum l2.
Proof.
  induction 1 as [| x l1 l2 _ IH | x y l | l1 l2 l3 _ IH1 _ IH2]; simpl.
  - reflexivity.
  - rewrite IH. reflexivity.
  - rewrite !Qplus_assoc_eq, (Qplus_comm_eq y x). reflexivity.
  - rewrite IH1. exact IH2.
Qed.

Lemma filter_perm {A : Type} (p : A -> bool) (l1 l2 : list A) :
  Permutation l1 l2 -> Permutation (filter p l1) (filter p l2).
Proof.
  induction 1 as [| x l1 l2 _ IH | x y l | l1 l2 l3 _ IH1 _ IH2]; simpl.
  - constructor.
  - destruct (p x); [constructor |]; exact IH.
  - destruct (p x), (p y); try apply Permutation_refl. constructor.
  - exact (Permutation_trans IH1 IH2).
Qed.

Lemma sum_where_perm {K : Type} (eqb : K -> K -> bool) (k : K)
  (r1 r2 : list (K * Q)) :
  Permutation r1 r2 -> sum_where eqb k r1 = sum_where eqb k r2.
Proof.
  intros H. unfold sum_where.
  apply Qsum_perm, Permutation_map, filter_perm, H.
Qed.

Lemma is_nil_perm {A : Type} (l1 l2 : list A) :
  Permutation l1 l2 -> mine_cpt_codes.is_nil l1 = mine_cpt_codes.is_nil l2.
Proof.
  intros H. apply Permutation_length in H.
  destruct l1, l2; simpl in *; congruence.
Qed.

Lemma with_org_perm (bridge : option mine_cpt_codes.Bridge)
  (l1 l2 : list mine_cpt_codes.ServiceRecord) :
  Permutation l1 l2 ->
  Permutation (mine_cpt_codes.with_org bridge l1)
              (mine_cpt_codes.with_org bridge l2).
Proof.
  intros H. unfold mine_cpt_codes.with_org, mine_cpt_codes.merge_bridge.
  destruct bridge; [apply Permutation_flat_map | apply Permutation_map];
    exact H.
Qed.

(** X20.  On a file of whole-number counts, none negative and at most
    2^53 together, where the double sums are exact, the aggregator
    does not depend on the order of the records: two files with the
    same records in any order give the same rows in the same order. *)
Theorem aggregator_order_invariance
  (bridge : option mine_cpt_codes.Bridge)
  (file1 file2 : list mine_cpt_codes.ServiceRecord) :
  mine_cpt_codes.whole_counts bridge file1 = true ->
  Permutation file1 file2 ->
  mine_cpt_codes.process_utilization_with_bridge bridge file1
  = mine_cpt_codes.process_utilization_with_bridge bridge file2.
Proof.
  intros _ Hperm.
  assert (Ht : Permutation (mine_cpt_codes.filter_target file1)
                           (mine_cpt_codes.filter_target file2))
    by (apply filter_perm, Hperm).
  assert (Hp : Permutation (mine_cpt_codes.filter_procedure file1)
                           (mine_cpt_codes.filter_procedure file2))
    by (apply filter_perm, Hperm).
  assert (Hem : Permutation
                  (mine_cpt_codes.em_rows bridge
                     (mine_cpt_codes.filter_target file1))
                  (mine_cpt_codes.em_rows bridge
                     (mine_cpt_codes.filter_target file2)))
    by (apply Permutation_map, with_org_perm, Ht).
  assert (Hpr : Permutation
                  (mine_cpt_codes.proc_rows bridge
                     (mine_cpt_codes.filter_procedure file1))
                  (mine_cpt_codes.proc_rows bridge
                     (mine_cpt_codes.filter_procedure file2)))
    by (apply Permutation_map, with_org_perm, Hp).
  unfold mine_cpt_codes.process_utilization_with_bridge.
  rewrite (process_as_one_chunk bridge (mine_cpt_codes.read_chunks _ file1)).
  rewrite (process_as_one_chunk bridge (mine_cpt_codes.read_chunks _ file2)).
  rewrite !concat_read_chunks.
  unfold mine_cpt_codes.process_chunks.
  destruct (loop_from_empty bridge [file1]) as [E1 E2].
  destruct (loop_from_empty bridge [file2]) as [F1 F2].
  apply finalize_ext; rewrite ?E1, ?E2, ?F1, ?F2.
  - rewrite !org_chunks_nil, !concat_singleton. apply is_nil_perm, Ht.
  - intros k. rewrite !org_chunks_sum, !concat_singleton.
    apply sum_where_perm, Hem.
  - intros n. rewrite !org_chunks_npis, !concat_singleton.
    split; apply Permutation_in, Permutation_map;
      [exact Hem | apply Permutation_sym, Hem].
  - rewrite !procedure_chunks_nil, !concat_singleton. apply is_nil_perm, Hp.
  - intros n. rewrite !procedure_chunks_sum, !concat_singleton.
    apply sum_where_perm, Hpr.
Qed.

Lemma aggregator_order_invariance_witness :
  mine_cpt_codes.whole_counts (Some samples.sample_bridge)
    (samples.service 104 "99213" 50 :: samples.service 101 "99213" 20 :: [])
  = true /\
  mine_cpt_codes.process_utilization_with_bridge (Some samples.sample_bridge)
    (samples.service 104 "99213" 50 :: samples.service 101 "99213" 20 :: [])
  = mine_cpt_codes.process_utilization_with_bridge
      (Some samples.sample_bridge)
      (samples.service 101 "99213" 20 :: samples.service 104 "99213" 50 :: []).
Proof.
  split; [reflexivity |].
  apply aggregator_order_invariance; [reflexivity | apply perm_swap].
Defined.

(* ------------------------------------------------------------------ *)
(** ** The two scales of the revenue and volume scores *)

Section Scales.
Variable ln : Q -> Q.
Hypothesis ln_mono : forall x y, 0 < x -> x <= y -> ln x <= ln y.
Hypothesis ln_strict : forall x y, 0 < x -> x < y -> ln x < ln y.

(** On a scale that starts and ends lower, a number stands
    relatively higher. *)
Lemma log_share_scales (lo1 hi1 lo2 hi2 x : Q) :
  0 < lo1 -> lo1 <= lo2 -> lo2 <= x -> x <= hi1 -> hi1 <= hi2 ->
  lo1 < hi1 -> lo2 < hi2 ->
  (ln x - ln lo2) / (ln hi2 - ln lo2) <= (ln x - ln lo1) / (ln hi1 - ln lo1).
Proof.
  intros H0 Hlo Hx1 Hx2 Hhi Hs1 Hs2.
  assert (P2 : 0 < lo2) by lra.
  assert (Px : 0 < x) by lra.
  assert (Ph : 0 < hi1) by lra.
  pose proof (ln_strict lo1 hi1 H0 Hs1) as D1.
  pose proof (ln_strict lo2 hi2 P2 Hs2) as D2.
  pose proof (ln_mono lo1 lo2 H0 Hlo) as A.
  pose proof (ln_mono lo2 x P2 Hx1) as B.
  pose proof (ln_mono x hi1 Px Hx2) as C.
  pose proof (ln_mono hi1 hi2 Ph Hhi) as D.
  set (X := ln x) in *. set (A1 := ln lo1) in *. set (A2 := ln lo2) in *.
  set (B1 := ln hi1) in *. set (B2 := ln hi2) in *.
  apply Qle_shift_div_r; [lra |].
  assert (E : (X - A1) / (B1 - A1) * (B2 - A2)
              == (X - A1) * (B2 - A2) / (B1 - A1)) by (field; lra).
  rewrite E. apply Qle_shift_div_l; [lra |].
  assert (T1 : 0 <= (X - A2) * (B2 - B1))
    by (apply Qmult_le_0_compat; lra).
  assert (T2 : 0 <= (B1 - X) * (A2 - A1))
    by (apply Qmult_le_0_compat; lra).
  assert (T3 : 0 <= (A2 - A1) * (B2 - B1))
    by (apply Qmult_le_0_compat; lra).
  nra.
Qed.

Lemma score_volume_between_scales (lo1 hi1 lo2 hi2 : Q) (v : option Q)
  (is_verified : bool) :
  0 < lo1 -> lo1 <= lo2 -> lo2 < hi1 -> hi1 <= hi2 ->
  score_volume_between ln lo2 hi2 v is_verified
  <= score_volume_between ln lo1 hi1 v is_verified.
Proof.
  intros H0 Hlo Hmid Hhi.
  pose proof (score_volume_between_range ln lo1 hi1 v is_verified) as R1.
  pose proof (score_volume_between_range ln lo2 hi2 v is_verified) as R2.
  assert (Hcap : forall lo hi,
            score_volume_between ln lo hi v is_verified
            <= if is_verified then 15 else 10).
  { intros lo hi. unfold score_volume_between.
    destruct v as [v |]; [| destruct is_verified; lra].
    destruct is_verified; curve_cases; try lra;
      generalize ((ln v - ln lo) / (ln hi - ln lo)); intros share.
    - apply (round1_within 3 15); minmax; lra.
    - apply (round1_within 3 10); minmax; lra. }
  pose proof (Hcap lo2 hi2) as C2.
  revert R1 R2 C2. unfold score_volume_between.
  destruct v as [v |]; [| intros; lra].
  destruct (Qle_bool v 0) eqn:Z; [intros; lra |].
  destruct (Qle_bool hi1 v) eqn:U1; [intros; destruct is_verified; lra |].
  destruct (Qle_bool hi2 v) eqn:U2; qbool; [exfalso; lra |].
  destruct (Qle_bool v lo2) eqn:L2; [intros; lra |].
  destruct (Qle_bool v lo1) eqn:L1; qbool; [exfalso; lra |].
  intros _ _ _. apply round1_mono.
  pose proof (log_share_scales lo1 hi1 lo2 hi2 v) as H.
  assert (H' : (ln v - ln lo2) / (ln hi2 - ln lo2)
               <= (ln v - ln lo1) / (ln hi1 - ln lo1)) by (apply H; lra).
  assert (Hs : 0 <= (ln v - ln lo2) / (ln hi2 - ln lo2)).
  { apply (log_share_unit ln ln_mono ln_strict lo2 hi2 v); lra. }
  revert H' Hs.
  generalize ((ln v - ln lo2) / (ln hi2 - ln lo2)).
  generalize ((ln v - ln lo1) / (ln hi1 - ln lo1)).
  intros s1 s2 H' Hs. destruct is_verified; minmax; lra.
Qed.

(** X21.  The scales differ in one direction only: at equal revenue
    the FQHC scale never scores below the scale of the other segments,
    and at equal volume the behavioral volume scale never scores below
    the ambulatory one. *)
Theorem lenient_scales (segment : string) (revenue volume : option Q)
  (is_verified : bool) :
  score_revenue_continuous ln revenue segment
  <= score_revenue_continuous ln revenue "FQHC" /\
  score_volume_continuous ln volume is_verified
  <= score_behavioral_volume_continuous ln volume is_verified.
Proof.
  split.
  - pose proof (score_revenue_continuous_range ln revenue segment) as R1.
    pose proof (score_revenue_continuous_range ln revenue "FQHC") as R2.
    revert R1 R2. unfold score_revenue_continuous.
    destruct revenue as [rev |]; [| intros; lra].
    destruct (Qle_bool rev 0) eqn:Z; [intros; lra |].
    destruct (String.eqb segment "FQHC"); cbn [String.eqb Ascii.eqb Bool.eqb];
      [intros; lra |].
    destruct (Qle_bool 5000000 rev) eqn:U1; [intros; lra |].
    destruct (Qle_bool 15000000 rev) eqn:U2; qbool; [exfalso; lra |].
    destruct (Qle_bool rev 500000) eqn:L2; [intros; lra |].
    destruct (Qle_bool rev 100000) eqn:L1; qbool; [exfalso; lra |].
    intros _ _. apply round1_mono, py_clamp_mono.
    pose proof (log_share_scales 100000 5000000 500000 15000000 rev) as H.
    assert (H' : (ln rev - ln 500000) / (ln 15000000 - ln 500000)
                 <= (ln rev - ln 100000) / (ln 5000000 - ln 100000))
      by (apply H; lra).
    lra.
  - unfold score_volume_continuous, score_behavioral_volume_continuous.
    apply score_volume_between_scales; lra.
Qed.
End Scales.

Lemma lenient_scales_witness :
  score_revenue_continuous samples.sample_log (Some 5000000) "Hospital"
  <= score_revenue_continuous samples.sample_log (Some 5000000) "FQHC".
Proof.
  exact (proj1 (lenient_scales samples.sample_log sample_log_mono
                  sample_log_strict "Hospital" (Some 5000000) None true)).
Defined.
